(** * pue-gauge-demo: the gauge renderer and the chart instance manager

  A shallow embedding of
    - [src/components/PowerUsageGauge.vue]  (module [Gauge], module [Component])
    - [src/composables/useChartJSManager.ts] (module [Manager])
  and the properties of the repository's specification that were checked
  against it.  A JavaScript [Map] that the code walks is modelled by its
  entries in insertion order (module [JsMap]).

  JavaScript numbers are IEEE-754 binary64 values: they are modelled by
  Rocq's primitive floats, whose [+ - * /] and comparisons are the same
  correctly rounded operations.  [Math.cos] and [Math.sin] are
  implementation-approximated in ECMAScript, so the drawing routine takes
  them as parameters. *)

From Stdlib Require Import ZArith Floats DecimalString.
From stdpp Require Import gmap strings list fin_maps.

Set Warnings "-inexact-float".

(* ===================================================================== *)
(** * JavaScript numbers *)
(* ===================================================================== *)

Module JsNumber.

(** The Number value of a small non-negative integer (exact below 2^53). *)
Definition of_Z (n : Z) : float := PrimFloat.of_uint63 (Uint63.of_Z n).

Definition of_nat (n : nat) : float := of_Z (Z.of_nat n).

(** [Math.PI]: the binary64 value nearest to pi. *)
Definition Math_PI : float := 0x1.921fb54442d18p+1%float.

(** ToBoolean on a Number: [+0], [-0] and [NaN] are falsy. *)
Definition truthy (x : float) : bool :=
  negb (PrimFloat.eqb x 0 || PrimFloat.is_nan x).

(** The integer [n] of Number.prototype.toFixed for a finite magnitude
    [m * 2^e] and [f] fraction digits: the [n] for which [n / 10^f] is
    nearest to the magnitude, the larger one on a tie. *)
Definition fixed_digits (m : positive) (e : Z) (f : nat) : Z :=
  let scale := (10 ^ Z.of_nat f)%Z in
  if (0 <=? e)%Z then (Z.pos m * 2 ^ e * scale)%Z
  else ((2 * scale * Z.pos m + 2 ^ (- e)) / 2 ^ (1 - e))%Z.

(** Decimal digits of [n], left-padded with zeros to at least [f + 1]
    digits, with a point before the last [f] of them. *)
Fixpoint pad_zeros (k : nat) (s : string) : string :=
  match k with
  | O => s
  | S k' => pad_zeros k' (String.append "0" s)
  end.

Definition place_point (n : Z) (f : nat) : string :=
  let digits := NilZero.string_of_uint (N.to_uint (Z.to_N n)) in
  let digits := pad_zeros (S f - String.length digits) digits in
  let int_len := (String.length digits - f)%nat in
  match f with
  | O => digits
  | _ => String.append (String.substring 0 int_len digits)
           (String.append "." (String.substring int_len f digits))
  end.

(** [x.toFixed(f)] for the finite [x] below 1e21 in magnitude; the other
    cases of ECMAScript (NaN, infinities, huge values) print [x] with
    ToString and are [None] here. *)
Definition toFixed (x : float) (f : nat) : option string :=
  match Prim2SF x with
  | S754_zero _ => Some (place_point 0 f)
  | S754_finite sgn m e =>
      if PrimFloat.leb 1e21 (PrimFloat.abs x) then None
      else Some (String.append (if sgn then "-" else "")
                   (place_point (fixed_digits m e f) f))
  | _ => None
  end.

(** [parseFloat(x.toFixed(2))].  With [n] the integer of [toFixed], the
    printed decimal is [n / 100]; below 2^53 both [n] and [100] are exact
    Numbers and the correctly rounded quotient is the nearest Number to
    the decimal, which is what [parseFloat] returns.  From 2^53 on, [x]
    is farther than 2^46 from zero, its neighbours are at least 1/64
    apart and the decimal is within 0.005 of [x], so [parseFloat] gives
    [x] back; so it does for the values [toFixed] prints with ToString. *)
Definition toFixed2_parsed (x : float) : float :=
  match Prim2SF x with
  | S754_zero _ => 0%float
  | S754_finite sgn m e =>
      if PrimFloat.leb 1e21 (PrimFloat.abs x) then x
      else
        let n := fixed_digits m e 2 in
        if (n <? 2 ^ 53)%Z then
          let q := PrimFloat.div (of_Z n) 100 in
          if sgn then PrimFloat.opp q else q
        else x
  | _ => x
  end.

End JsNumber.

(* ===================================================================== *)
(** * The gauge renderer ([PowerUsageGauge.vue]) *)
(* ===================================================================== *)

Module Gauge.
Import JsNumber.
Local Open Scope float_scope.

(** ** Tick generation (module level of the script) *)

Definition majorTickValues : list float :=
  [1; 1.2; 1.4; 1.6; 1.8; 2; 2.2; 2.4; 2.6; 2.8; 3].

Definition subStepCount : nat := 4.

(** [parseFloat((prev + ((curr - prev) * s) / subStepCount).toFixed(2))] *)
Definition subTick (prev curr : float) (s k : nat) : float :=
  toFixed2_parsed (prev + ((curr - prev) * of_nat s) / of_nat k).

(** The inner loop [for (let s = 1; s < subStepCount; s++)]: the values
    it pushes, in order. *)
Definition subTicks (prev curr : float) (k : nat) : list float :=
  map (fun s => subTick prev curr s k) (seq 1 (k - 1)).

(** One iteration of the outer loop, on the array built so far.  The
    reads [M[i]], [M[i-1]] are in range; out of range JavaScript yields
    [undefined], which arithmetic turns into [NaN]. *)
Definition tickStep (M : list float) (k : nat)
    (fullTickValues : list float) (i : nat) : list float :=
  let fullTickValues := fullTickValues ++ [nth i M nan] in
  if (i =? 0)%nat then fullTickValues
  else
    let prev := nth (i - 1) M nan in
    let curr := nth i M nan in
    fullTickValues ++ subTicks prev curr k.

(** [for (let i = 0; i < majorTickValues.length; i++) { ... }] *)
Definition fullTickValuesOf (M : list float) (k : nat) : list float :=
  fold_left (tickStep M k) (seq 0 (length M)) [].

Definition fullTickValues : list float :=
  fullTickValuesOf majorTickValues subStepCount.

(** Strict increase of a sequence of Numbers, by [<] on neighbours. *)
Fixpoint strictlyIncreasing (l : list float) : bool :=
  match l with
  | x :: ((y :: _) as tl) => PrimFloat.ltb x y && strictlyIncreasing tl
  | _ => true
  end.

(** ** The overlay plugin [gaugeTickPlugin] *)

(** What [afterDraw] reads from the chart: the first element of the
    first dataset's meta (absent before layout) and the first dataset
    with its optional [rotation] and [circumference]. *)
Record ArcElement := {
  arc_x : float;            (* getProps(["x", "y"]).x *)
  arc_y : float;            (* getProps(["x", "y"]).y *)
  innerRadius : float;
}.

Record Dataset := {
  rotation : option float;
  circumference : option float;
}.

Record DrawnChart := {
  meta0_data0 : option ArcElement;   (* chart.getDatasetMeta(0).data[0] *)
  datasets0 : Dataset;               (* chart.data.datasets[0] *)
}.

Record Segment := { from : float; to : float }.

(** The calls and property writes on the 2D context, in program order.
    The text of [fillText] is [None] where [toFixed] falls back to
    ToString. *)
Inductive CanvasCall :=
| save
| restore
| set_lineWidth (w : float)
| set_strokeStyle (s : string)
| set_fillStyle (s : string)
| set_font (s : string)
| set_textAlign (s : string)
| set_textBaseline (s : string)
| beginPath
| moveTo (x y : float)
| lineTo (x y : float)
| stroke
| fillText (text : option string) (x y : float)
| arc (x y r startAngle endAngle : float)
| fill.

Definition minValue : float := 1.
Definition maxValue : float := 3.

Definition overlayMajorTickValues : list float :=
  [1; 1.2; 1.4; 1.6; 1.8; 2; 2.2; 2.4; 2.6; 2.8; 3].

Definition overlaySubStepCount : nat := 5.

Definition segments : list Segment :=
  [ {| from := 1; to := 1.4 |};
    {| from := 1.4; to := 1.8 |};
    {| from := 1.8; to := 3 |} ].

(** [((dataset.rotation ?? 0) * Math.PI) / 88.4] *)
Definition rotationRad (dataset : Dataset) : float :=
  (default 0 (rotation dataset) * Math_PI) / 88.4.

(** [((dataset.circumference ?? 360) * Math.PI) / 180] *)
Definition circumferenceRad (dataset : Dataset) : float :=
  (default 360 (circumference dataset) * Math_PI) / 180.

(** [pointerT] and [pointerAngle] of the pointer part. *)
Definition pointerAngle (dataset : Dataset) (value : float) : float :=
  let pointerT := (value - minValue) / (maxValue - minValue) in
  rotationRad dataset + pointerT * circumferenceRad dataset.

(** [Array.prototype.indexOf] (strict equality), [-1] when absent. *)
Fixpoint indexOf (val : float) (l : list float) : Z :=
  match l with
  | [] => (-1)%Z
  | v :: tl =>
      if PrimFloat.eqb v val then 0%Z
      else let r := indexOf val tl in
           if (r <? 0)%Z then (-1)%Z else (r + 1)%Z
  end.

Section Overlay.
Variables Math_cos Math_sin : float -> float.

(** A stroked line along [angle] between two radii around [(x, y)]. *)
Definition radialLine (x y rStart rEnd angle : float) : list CanvasCall :=
  let xStart := x + rStart * Math_cos angle in
  let yStart := y + rStart * Math_sin angle in
  let xEnd := x + rEnd * Math_cos angle in
  let yEnd := y + rEnd * Math_sin angle in
  [beginPath; moveTo xStart yStart; lineTo xEnd yEnd; stroke].

(** Body of the minor-tick loop for one [s]. *)
Definition minorTick (x y r : float) (segment : Segment)
    (currentStartAngle segmentArc prevVal val : float) (s : nat)
    : list CanvasCall :=
  let subVal :=
    prevVal + ((val - prevVal) * of_nat s) / of_nat overlaySubStepCount in
  if PrimFloat.ltb subVal (from segment) || PrimFloat.ltb (to segment) subVal
  then []
  else
    let subT := (subVal - from segment) / (to segment - from segment) in
    let subAngle := currentStartAngle + subT * segmentArc in
    radialLine x y (r - 5) (r - 12) subAngle.

(** Body of [majorTickValues.forEach] inside one segment. *)
Definition majorTick (x y r : float) (segment : Segment)
    (currentStartAngle segmentArc val : float) : list CanvasCall :=
  if PrimFloat.ltb val (from segment) || PrimFloat.ltb (to segment) val
  then []
  else
    let t := (val - from segment) / (to segment - from segment) in
    let angle := currentStartAngle + t * segmentArc in
    let labelRadius := r - 35 in
    let lx := x + labelRadius * Math_cos angle in
    let ly := y + labelRadius * Math_sin angle in
    let prevIndex := (indexOf val overlayMajorTickValues - 1)%Z in
    radialLine x y (r - 5) (r - 20) angle
    ++ [fillText (toFixed val 1) lx ly]
    ++ (if (0 <=? prevIndex)%Z then
          let prevVal := nth (Z.to_nat prevIndex) overlayMajorTickValues nan in
          flat_map
            (minorTick x y r segment currentStartAngle segmentArc prevVal val)
            (seq 1 (overlaySubStepCount - 1))
        else []).

(** Body of [segments.forEach]: the calls so far and
    [currentStartAngle] are threaded through. *)
Definition drawSegment (x y r circ : float)
    (acc : list CanvasCall * float) (segment : Segment)
    : list CanvasCall * float :=
  let '(calls, currentStartAngle) := acc in
  let segmentArc :=
    ((to segment - from segment) / (maxValue - minValue)) * circ in
  (calls ++ flat_map (majorTick x y r segment currentStartAngle segmentArc)
             overlayMajorTickValues,
   currentStartAngle + segmentArc).

(** The needle and the hub. *)
Definition drawPointer (x y r : float) (dataset : Dataset) (value : float)
    : list CanvasCall :=
  let pointerLength := r - 45 in
  let px := x + pointerLength * Math_cos (pointerAngle dataset value) in
  let py := y + pointerLength * Math_sin (pointerAngle dataset value) in
  [ set_lineWidth 3; set_strokeStyle "#fff"; beginPath; moveTo x y;
    lineTo px py; stroke; set_fillStyle "#fff"; beginPath;
    arc x y 5 0 (Math_PI * 2); fill ].

(** [afterDraw(chart)]; [value] is the reactive cell read at draw
    time.  The result lists what was painted. *)
Definition afterDraw (chart : DrawnChart) (value : float)
    : list CanvasCall :=
  match meta0_data0 chart with
  | None => []                                     (* if (!arc) return *)
  | Some a =>
      let x := arc_x a in
      let y := arc_y a in
      if negb (truthy x) || negb (truthy y) then [] (* if (!x || !y) return *)
      else
        let r := innerRadius a in
        let dataset := datasets0 chart in
        let setup :=
          [ save; set_lineWidth 2; set_strokeStyle "#ffffff88";
            set_fillStyle "#fff"; set_font "12px Arial";
            set_textAlign "center"; set_textBaseline "middle" ] in
        let '(calls, _) :=
          fold_left (drawSegment x y r (circumferenceRad dataset))
            segments (setup, rotationRad dataset) in
        calls ++ drawPointer x y r dataset value ++ [restore]
  end.

End Overlay.

(** The first dataset of the configuration passed by [initChart]. *)
Definition gaugeDataset : Dataset :=
  {| rotation := Some 260; circumference := Some 200 |}.

End Gauge.

(* ===================================================================== *)
(** * JavaScript [Map] *)
(* ===================================================================== *)

Module JsMap.

(** A [Map] with string keys, given by its entries in insertion order,
    the order in which [forEach] walks them.  [get] returns the value of
    the entry with the key; [set] on a key already there replaces the
    value and keeps the entry's place, and puts a new key at the end;
    [delete] removes the entry with the key.  A [Map] has one entry per
    key, and the operations keep it so. *)
Record JsMap (V : Type) := Map_of { entries : list (string * V) }.
Arguments Map_of {V} _.
Arguments entries {V} _.

Fixpoint assoc_get {V} (k : string) (l : list (string * V)) : option V :=
  match l with
  | [] => None
  | (k', v) :: tl => if decide (k' = k) then Some v else assoc_get k tl
  end.

Fixpoint assoc_set {V} (k : string) (v : V) (l : list (string * V))
    : list (string * V) :=
  match l with
  | [] => [(k, v)]
  | (k', v') :: tl =>
      if decide (k' = k) then (k, v) :: tl else (k', v') :: assoc_set k v tl
  end.

Definition Map_get {V} (k : string) (m : JsMap V) : option V :=
  assoc_get k (entries m).

Definition Map_set {V} (k : string) (v : V) (m : JsMap V) : JsMap V :=
  Map_of (assoc_set k v (entries m)).

Definition Map_delete {V} (k : string) (m : JsMap V) : JsMap V :=
  Map_of (filter (fun e => e.1 ≠ k) (entries m)).

(** The keys and the values, in insertion order. *)
Definition keys {V} (m : JsMap V) : list string := (entries m).*1.
Definition values {V} (m : JsMap V) : list V := (entries m).*2.

(** [m !! k], [<[k := v]> m], [delete k m] and [∅] on a [Map]. *)
#[global] Instance JsMap_lookup {V} : Lookup string V (JsMap V) := Map_get.
#[global] Instance JsMap_insert {V} : Insert string V (JsMap V) := Map_set.
#[global] Instance JsMap_delete {V} : Delete string (JsMap V) := Map_delete.
#[global] Instance JsMap_empty {V} : Empty (JsMap V) := Map_of [].

Arguments Map_get : simpl never.
Arguments Map_set : simpl never.
Arguments Map_delete : simpl never.
Arguments JsMap_lookup : simpl never.
Arguments JsMap_insert : simpl never.
Arguments JsMap_delete : simpl never.

End JsMap.

(* ===================================================================== *)
(** * The chart instance manager ([useChartJSManager.ts]) *)
(* ===================================================================== *)

Module Manager.
Import JsMap.

(** ** Objects of the runtime

    Objects are known by identity: a [Chart] by its index in the store
    of charts ever constructed, a timer, a listener and a promise by a
    number drawn from one counter.  Payloads the manager only passes
    along (chart data, option values) are kept as their JSON text.

    JavaScript runs every call and every callback to completion on one
    thread, so a method or a callback is a function from state to state.
    Closures passed to [setTimeout] and [addEventListener] are listed by
    what they close over.  Timers fire at their due time, earliest first
    and in order of creation among equals; the minimum delays browsers
    impose are left out.  The registry [chartInstances] is a [Map] that
    the code walks with [forEach], so it keeps its insertion order; the
    map [initializingCharts] is only read and written by key and is a
    finite map.  A call into the chart engine can throw: the constructor
    and [update()] do so when the environment says so, and the exception
    takes the path the code gives it.  The log is an instrument of the
    model: it records, with the time, the calls a test double of the chart
    engine and the console would see, and each entry into [resizeCharts]. *)

Abbreviation Handle := nat.
Abbreviation TimerId := nat.
Abbreviation PromiseId := nat.
Abbreviation Json := string.

Record ChartConfiguration := {
  config_type : string;
  config_data : option Json;
  config_options : option (gmap string Json);
}.

(** An [HTMLCanvasElement]: [getContext("2d")] gives its context, known
    by a number, or [null]. *)
Record Canvas := { getContext_2d : option nat }.

(** A [Chart] object: the id of the canvas it draws on, its options and
    data, and whether [destroy()] has been called on it. *)
Record Chart := {
  chart_canvas_id : string;
  chart_ctx : nat;
  chart_options : gmap string Json;
  chart_data : option Json;
  chart_destroyed : bool;
}.

(** The environment the manager cannot control: the document at each
    instant of the clock, whether the chart engine's constructor throws,
    and whether [update(mode)] throws on a chart, given the time, the
    chart's handle and what the chart holds when it is called. *)
Record World := {
  getElementById : nat -> string -> option Canvas;
  constructorThrows : nat -> string -> ChartConfiguration -> bool;
  updateThrows : nat -> Handle -> option Chart -> option string -> bool;
}.

(** How a call ends: it returns, or an exception leaves it. *)
Inductive Completion :=
| returns
| throws.

(** A promise handed to the caller: already resolved (the value of an
    [async] function that returned, or of an executor that called
    [resolve] before returning), already rejected (an executor that threw
    before it called [resolve]), or pending under an identity. *)
Inductive Promise :=
| resolved_promise
| rejected_promise
| pending_promise (p : PromiseId).

(** The closures given to [setTimeout] and [addEventListener]. *)
Inductive Thunk :=
| call_resizeCharts.                  (* () => { this.resizeCharts() } *)

Inductive Callback :=
| tryCreateChart_cb (id : string) (config : ChartConfiguration)
    (resolve : PromiseId) (retryCount : nat)
    (* () => tryCreateChart(retryCount) inside spawnChart(id, config) *)
| construct_cb (id : string) (ctx : nat) (config : ChartConfiguration)
    (resolve : PromiseId)
    (* the deferred try / catch / finally block *)
| debounce_cb (func : Thunk) (cell : nat).
    (* () => { func(); timeoutId = null } of one debounce() closure *)

Record Timer := {
  timer_id : TimerId;
  timer_due : nat;
  timer_callback : Callback;
}.

Inductive Listener :=
| resizeHandler_fn (uid delay : nat)  (* the closure setupResizeListener builds *)
| direct_resize_fn (uid : nat).       (* () => chartManager.resizeCharts() *)

Definition listener_uid (l : Listener) : nat :=
  match l with
  | resizeHandler_fn uid _ => uid
  | direct_resize_fn uid => uid
  end.

Inductive Event :=
| chart_constructed (id : string) (h : Handle)
| chart_destroy (h : Handle)
| chart_update (h : Handle) (mode : option string)
| resizeCharts_called
| console_warn (msg : string)
| console_error (msg : string).

(** ** State: the three fields of [ChartManager], then the runtime *)

Record State := {
  chartInstances : JsMap Handle;
  initializingCharts : gmap string bool;
  resizeHandler : option Listener;
  (* runtime *)
  now : nat;                           (* clock, in ms *)
  charts : list Chart;                 (* every Chart constructed, by handle *)
  timers : list Timer;                 (* pending, in order of creation *)
  cells : gmap nat (option TimerId);   (* [timeoutId] of each debounce closure *)
  listeners : list Listener;           (* window "resize" listeners *)
  resolved : gset PromiseId;
  fresh : nat;
  log : list (nat * Event);            (* observable calls, with their time *)
}.

Definition initial : State :=
  {| chartInstances := ∅; initializingCharts := ∅; resizeHandler := None;
     now := 0; charts := []; timers := []; cells := ∅; listeners := [];
     resolved := ∅; fresh := 0; log := [] |}.

Definition with_chartInstances (f : JsMap Handle -> JsMap Handle)
    (st : State) : State :=
  {| chartInstances := f (chartInstances st);
     initializingCharts := initializingCharts st;
     resizeHandler := resizeHandler st; now := now st; charts := charts st;
     timers := timers st; cells := cells st; listeners := listeners st;
     resolved := resolved st; fresh := fresh st; log := log st |}.

Definition with_initializingCharts (f : gmap string bool -> gmap string bool)
    (st : State) : State :=
  {| chartInstances := chartInstances st;
     initializingCharts := f (initializingCharts st);
     resizeHandler := resizeHandler st; now := now st; charts := charts st;
     timers := timers st; cells := cells st; listeners := listeners st;
     resolved := resolved st; fresh := fresh st; log := log st |}.

Definition with_resizeHandler (r : option Listener) (st : State) : State :=
  {| chartInstances := chartInstances st;
     initializingCharts := initializingCharts st;
     resizeHandler := r; now := now st; charts := charts st;
     timers := timers st; cells := cells st; listeners := listeners st;
     resolved := resolved st; fresh := fresh st; log := log st |}.

Definition with_now (t : nat) (st : State) : State :=
  {| chartInstances := chartInstances st;
     initializingCharts := initializingCharts st;
     resizeHandler := resizeHandler st; now := t; charts := charts st;
     timers := timers st; cells := cells st; listeners := listeners st;
     resolved := resolved st; fresh := fresh st; log := log st |}.

Definition with_charts (f : list Chart -> list Chart) (st : State) : State :=
  {| chartInstances := chartInstances st;
     initializingCharts := initializingCharts st;
     resizeHandler := resizeHandler st; now := now st;
     charts := f (charts st);
     timers := timers st; cells := cells st; listeners := listeners st;
     resolved := resolved st; fresh := fresh st; log := log st |}.

Definition with_timers (f : list Timer -> list Timer) (st : State) : State :=
  {| chartInstances := chartInstances st;
     initializingCharts := initializingCharts st;
     resizeHandler := resizeHandler st; now := now st; charts := charts st;
     timers := f (timers st); cells := cells st; listeners := listeners st;
     resolved := resolved st; fresh := fresh st; log := log st |}.

Definition with_cells
    (f : gmap nat (option TimerId) -> gmap nat (option TimerId))
    (st : State) : State :=
  {| chartInstances := chartInstances st;
     initializingCharts := initializingCharts st;
     resizeHandler := resizeHandler st; now := now st; charts := charts st;
     timers := timers st; cells := f (cells st); listeners := listeners st;
     resolved := resolved st; fresh := fresh st; log := log st |}.

Definition with_listeners (f : list Listener -> list Listener)
    (st : State) : State :=
  {| chartInstances := chartInstances st;
     initializingCharts := initializingCharts st;
     resizeHandler := resizeHandler st; now := now st; charts := charts st;
     timers := timers st; cells := cells st;
     listeners := f (listeners st);
     resolved := resolved st; fresh := fresh st; log := log st |}.

Definition with_resolved (f : gset PromiseId -> gset PromiseId)
    (st : State) : State :=
  {| chartInstances := chartInstances st;
     initializingCharts := initializingCharts st;
     resizeHandler := resizeHandler st; now := now st; charts := charts st;
     timers := timers st; cells := cells st; listeners := listeners st;
     resolved := f (resolved st); fresh := fresh st; log := log st |}.

Definition with_fresh (n : nat) (st : State) : State :=
  {| chartInstances := chartInstances st;
     initializingCharts := initializingCharts st;
     resizeHandler := resizeHandler st; now := now st; charts := charts st;
     timers := timers st; cells := cells st; listeners := listeners st;
     resolved := resolved st; fresh := n; log := log st |}.

Definition emit (e : Event) (st : State) : State :=
  {| chartInstances := chartInstances st;
     initializingCharts := initializingCharts st;
     resizeHandler := resizeHandler st; now := now st; charts := charts st;
     timers := timers st; cells := cells st; listeners := listeners st;
     resolved := resolved st; fresh := fresh st;
     log := log st ++ [(now st, e)] |}.

(** ** Runtime primitives *)

(** [setTimeout(callback, delay)]: the new timer's id and the state. *)
Definition setTimeout (callback : Callback) (delay : nat) (st : State)
    : TimerId * State :=
  let tm := {| timer_id := fresh st; timer_due := now st + delay;
               timer_callback := callback |} in
  (fresh st, with_fresh (S (fresh st)) (with_timers (fun l => l ++ [tm]) st)).

(** [clearTimeout(id)] *)
Definition clearTimeout (id : TimerId) (st : State) : State :=
  with_timers (filter (fun tm => timer_id tm ≠ id)) st.

(** [resolve()] of a pending promise. *)
Definition resolve (p : PromiseId) (st : State) : State :=
  with_resolved (fun s => {[p]} ∪ s) st.

Definition isResolved (st : State) (pr : Promise) : bool :=
  match pr with
  | resolved_promise => true
  | rejected_promise => false
  | pending_promise p => bool_decide (p ∈ resolved st)
  end.

(** [new Chart(ctx, config)] on the canvas [id]: the handle of the new
    chart, or [None] when the constructor throws.  The new chart's options
    are those supplied (the engine's defaults are left out). *)
Definition new_Chart (w : World) (id : string) (ctx : nat)
    (config : ChartConfiguration) (st : State) : option Handle * State :=
  if constructorThrows w (now st) id config then (None, st)
  else
    let h := length (charts st) in
    let c := {| chart_canvas_id := id; chart_ctx := ctx;
                chart_options := default ∅ (config_options config);
                chart_data := config_data config;
                chart_destroyed := false |} in
    (Some h, emit (chart_constructed id h)
               (with_charts (fun l => l ++ [c]) st)).

Definition mark_destroyed (c : Chart) : Chart :=
  {| chart_canvas_id := chart_canvas_id c; chart_ctx := chart_ctx c;
     chart_options := chart_options c; chart_data := chart_data c;
     chart_destroyed := true |}.

(** [chart.destroy()] *)
Definition destroy (h : Handle) (st : State) : State :=
  emit (chart_destroy h) (with_charts (alter mark_destroyed h) st).

(** [chart.update(mode)]: a redraw request to the engine, which is
    logged as a call; the engine may throw. *)
Definition update (w : World) (h : Handle) (mode : option string)
    (st : State) : State * Completion :=
  (emit (chart_update h mode) st,
   if updateThrows w (now st) h (charts st !! h) mode then throws else returns).

(** [window.addEventListener("resize", l)]: a listener already there
    (the same closure) is not added again. *)
Definition addEventListener (l : Listener) (st : State) : State :=
  if bool_decide (listener_uid l ∈ listener_uid <$> listeners st) then st
  else with_listeners (fun ls => ls ++ [l]) st.

(** [window.removeEventListener("resize", l)] *)
Definition removeEventListener (l : Listener) (st : State) : State :=
  with_listeners (filter (fun l' => listener_uid l' ≠ listener_uid l)) st.

(** ** The methods of [ChartManager] *)

(** The two give-up branches: warn, clear the flag, resolve. *)
Definition giveUp (msg : string) (id : string) (p : PromiseId)
    (st : State) : State :=
  resolve p (with_initializingCharts (delete id) (emit (console_warn msg) st)).

(** One run of the closure [tryCreateChart(retryCount)]. *)
Definition tryCreateChart (w : World) (id : string)
    (config : ChartConfiguration) (p : PromiseId) (retryCount : nat)
    (st : State) : State :=
  match getElementById w (now st) id with
  | None =>
      if retryCount <? 10 then
        (setTimeout (tryCreateChart_cb id config p (retryCount + 1)) 50 st).2
      else
        giveUp ("[ChartManager] Canvas not found after retries: " +:+ id) id p st
  | Some canvas =>
      match getContext_2d canvas with
      | None =>
          if retryCount <? 20 then
            (setTimeout (tryCreateChart_cb id config p (retryCount + 1)) 100 st).2
          else
            giveUp ("[ChartManager] Cannot acquire context: " +:+ id) id p st
      | Some ctx =>
          (* Destroy existing chart *)
          let st :=
            match chartInstances st !! id with
            | Some existingChart =>
                with_chartInstances (delete id) (destroy existingChart st)
            | None => st
            end in
          (* Delay initialization of new chart *)
          (setTimeout (construct_cb id ctx config p) 0 st).2
      end
  end.

(** The deferred block: [try { new Chart; set } catch { log } finally
    { delete flag; resolve }]. *)
Definition constructChart (w : World) (id : string) (ctx : nat)
    (config : ChartConfiguration) (p : PromiseId) (st : State) : State :=
  let st :=
    match new_Chart w id ctx config st with
    | (Some chart, st) => with_chartInstances <[id := chart]> st
    | (None, st) =>
        emit (console_error
                ("[ChartManager] Failed to create chart (" +:+ id +:+ "):")) st
    end in
  resolve p (with_initializingCharts (delete id) st).

Definition spawnChart (w : World) (id : string)
    (config : ChartConfiguration) (st : State) : State * Promise :=
  match initializingCharts st !! id with
  | Some true => (st, resolved_promise)    (* Already initializing, skip *)
  | _ =>
      let st := with_initializingCharts <[id := true]> st in
      let p := fresh st in
      let st := with_fresh (S p) st in
      (tryCreateChart w id config p 0 st, pending_promise p)
  end.

(** [configs.map(...)] runs the calls in order; the result stands for
    [Promise.all] of their promises. *)
Definition spawnCharts (w : World)
    (configs : list (string * ChartConfiguration)) (st : State)
    : State * list Promise :=
  foldl (fun acc '(id, config) =>
           let '(st', pr) := spawnChart w id config acc.1 in
           (st', acc.2 ++ [pr]))
        (st, []) configs.

Definition allResolved (st : State) (prs : list Promise) : bool :=
  forallb (isResolved st) prs.

Definition merge_options (config : ChartConfiguration) (c : Chart) : Chart :=
  {| chart_canvas_id := chart_canvas_id c; chart_ctx := chart_ctx c;
     (* Object.assign(chart.options, config.options || {}) *)
     chart_options := default ∅ (config_options config) ∪ chart_options c;
     (* if (config.data) chart.data = config.data *)
     chart_data := match config_data config with
                   | Some d => Some d
                   | None => chart_data c
                   end;
     chart_destroyed := chart_destroyed c |}.

(** [updateChartConfig]: the body is the executor of [new Promise];
    [resolve()] is its last statement, so the promise is resolved when
    the executor returns, and rejected when [chart.update()] throws, which
    nothing catches. *)
Definition updateChartConfig (w : World) (id : string)
    (config : ChartConfiguration) (st : State) : State * Promise :=
  match chartInstances st !! id with
  | Some chart =>
      let st := with_charts (alter (merge_options config) chart) st in
      match update w chart None st with
      | (st, returns) => (st, resolved_promise)
      | (st, throws) => (st, rejected_promise)
      end
  | None => (st, resolved_promise)
  end.

(** Both shapes of the argument, an array of [{id, config}] and a
    record from id to config, are walked entry by entry; a rejected
    promise does not stop the walk.  The result stands for [Promise.all]
    of the promises. *)
Definition updateAllCharts (w : World)
    (configs : list (string * ChartConfiguration))
    (st : State) : State * list Promise :=
  foldl (fun acc '(id, config) =>
           let '(st', pr) := updateChartConfig w id config acc.1 in
           (st', acc.2 ++ [pr]))
        (st, []) configs.

(** [this.chartInstances.forEach((chart) => chart.update(mode))] on the
    entries still to walk: the first [update] that throws ends the walk. *)
Fixpoint updateEach (w : World) (mode : option string)
    (l : list (string * Handle)) (st : State) : State * Completion :=
  match l with
  | [] => (st, returns)
  | (_, chart) :: tl =>
      match update w chart mode st with
      | (st, returns) => updateEach w mode tl st
      | (st, throws) => (st, throws)
      end
  end.

(** [resizeCharts]; the entry into the method is logged as well. *)
Definition resizeCharts (w : World) (st : State) : State * Completion :=
  updateEach w (Some "resize") (entries (chartInstances st))
    (emit resizeCharts_called st).

Definition runThunk (w : World) (f : Thunk) (st : State)
    : State * Completion :=
  match f with
  | call_resizeCharts => resizeCharts w st
  end.

(** [debounce(func, delay)]: a new closure with its own [timeoutId],
    initially [null]; the closure is known by the cell of that variable. *)
Definition debounce (st : State) : nat * State :=
  let c := fresh st in
  (c, with_fresh (S c) (with_cells <[c := None]> st)).

(** A call of the function [debounce] returned.  [if (timeoutId)] holds
    exactly when the variable holds a timer id (browser ids are not 0). *)
Definition callDebounced (func : Thunk) (delay : nat) (cell : nat)
    (st : State) : State :=
  let st :=
    match cells st !! cell with
    | Some (Some timeoutId) => clearTimeout timeoutId st
    | _ => st
    end in
  let '(t, st) := setTimeout (debounce_cb func cell) delay st in
  with_cells <[cell := Some t]> st.

(** The timer body of [debounce]: [func(); timeoutId = null].  When
    [func] throws the assignment is not reached; the exception leaves the
    timer callback and goes to the host. *)
Definition debounceFire (w : World) (func : Thunk) (cell : nat)
    (st : State) : State :=
  match runThunk w func st with
  | (st, returns) => with_cells <[cell := None]> st
  | (st, throws) => st
  end.

(** The body of the closure stored in [resizeHandler]. *)
Definition resizeHandlerBody (delay : nat) (st : State) : State :=
  let '(debounceResize, st) := debounce st in
  callDebounced call_resizeCharts delay debounceResize st.

Definition setupResizeListener (delay : nat) (st : State) : State :=
  let l := resizeHandler_fn (fresh st) delay in
  addEventListener l (with_resizeHandler (Some l) (with_fresh (S (fresh st)) st)).

(** [dispose]; [forEach] walks the entries in insertion order, and the
    deletion of the entry it is at does not disturb the walk. *)
Definition dispose (st : State) : State :=
  let st :=
    match resizeHandler st with
    | Some l => removeEventListener l st
    | None => st
    end in
  foldl (fun st '(id, chart) =>
           with_chartInstances (delete id) (destroy chart st))
        st (entries (chartInstances st)).

Definition disposeChart (id : string) (st : State) : State :=
  match chartInstances st !! id with
  | Some chart => with_chartInstances (delete id) (destroy chart st)
  | None => st
  end.

Definition getChart (id : string) (st : State) : option Handle :=
  chartInstances st !! id.

(** ** The event loop *)

(** The pending timer that runs next: the earliest due, the first
    created among equals. *)
Fixpoint nextTimer (l : list Timer) : option Timer :=
  match l with
  | [] => None
  | tm :: tl =>
      match nextTimer tl with
      | Some tm' => if timer_due tm' <? timer_due tm then Some tm' else Some tm
      | None => Some tm
      end
  end.

Definition runCallback (w : World) (cb : Callback) (st : State) : State :=
  match cb with
  | tryCreateChart_cb id config p retryCount =>
      tryCreateChart w id config p retryCount st
  | construct_cb id ctx config p => constructChart w id ctx config p st
  | debounce_cb func cell => debounceFire w func cell st
  end.

(** The next timer fires: the clock is at its due time, the timer leaves
    the pending list, its callback runs to completion. *)
Definition fireTimer (w : World) (st : State) : State :=
  match nextTimer (timers st) with
  | None => st
  | Some tm =>
      runCallback w (timer_callback tm)
        (with_now (now st `max` timer_due tm) (clearTimeout (timer_id tm) st))
  end.

(** Timers fire until none is pending (or the fuel is spent). *)
Fixpoint run (w : World) (fuel : nat) (st : State) : State :=
  match fuel with
  | O => st
  | S fuel' =>
      match timers st with
      | [] => st
      | _ => run w fuel' (fireTimer w st)
      end
  end.

(** Time passes with no timer firing: at most up to the next due time. *)
Definition idle (ms : nat) (st : State) : State :=
  match nextTimer (timers st) with
  | None => with_now (now st + ms) st
  | Some tm => with_now ((now st + ms) `min` (now st `max` timer_due tm)) st
  end.

(** A listener runs; an exception that leaves it goes to the host, and
    the listeners after it still run. *)
Definition callListener (w : World) (l : Listener) (st : State) : State :=
  match l with
  | resizeHandler_fn _ delay => resizeHandlerBody delay st
  | direct_resize_fn _ => (resizeCharts w st).1
  end.

(** The window dispatches one "resize" event. *)
Definition dispatchResize (w : World) (st : State) : State :=
  foldl (fun st l => callListener w l st) st (listeners st).

(** ** What can happen to a manager, one step at a time

    A method called from outside leaves the manager in the state it had
    when the call ended, whether it returned or threw. *)

Inductive Op :=
| op_spawnCharts (configs : list (string * ChartConfiguration))
| op_updateChartConfig (id : string) (config : ChartConfiguration)
| op_updateAllCharts (configs : list (string * ChartConfiguration))
| op_resizeCharts
| op_setupResizeListener (delay : nat)
| op_dispose
| op_disposeChart (id : string)
| op_resizeEvent
| op_timer
| op_idle (ms : nat).

Definition step (w : World) (st : State) (o : Op) : State :=
  match o with
  | op_spawnCharts configs => (spawnCharts w configs st).1
  | op_updateChartConfig id config => (updateChartConfig w id config st).1
  | op_updateAllCharts configs => (updateAllCharts w configs st).1
  | op_resizeCharts => (resizeCharts w st).1
  | op_setupResizeListener delay => setupResizeListener delay st
  | op_dispose => dispose st
  | op_disposeChart id => disposeChart id st
  | op_resizeEvent => dispatchResize w st
  | op_timer => fireTimer w st
  | op_idle ms => idle ms st
  end.

Definition exec (w : World) (ops : list Op) (st : State) : State :=
  foldl (step w) st ops.

End Manager.

(* ===================================================================== *)
(** * The component script of [PowerUsageGauge.vue] *)
(* ===================================================================== *)

Module Component.
Import Manager.

(** The variables of [<script setup>]: the manager returned by
    [useChartManager()], [chartInstance] and the reactive [value]. *)
Record Instance := {
  chartManager : State;
  chartInstance : option Handle;
  value : float;
}.

Definition with_chartManager (st : State) (c : Instance) : Instance :=
  {| chartManager := st; chartInstance := chartInstance c; value := value c |}.

Definition canvasId : string := "powerGauge".

(** The configuration literal of [initChart]; the nested objects are
    kept as JSON text. *)
Definition gaugeConfig : ChartConfiguration :=
  {| config_type := "doughnut";
     config_data := Some "{labels:[1-1.4,1.4-1.8,1.8-3],datasets:[{circumference:200,rotation:260,cutout:80%}]}";
     config_options :=
       Some (<["responsive" := "true"]>
               (<["maintainAspectRatio" := "false"]>
                  (<["plugins" := "{legend:{display:false},tooltip:{enabled:false}}"]> ∅))) |}.

(** The script body: a new manager, no chart yet, and the initial value
    [v], which the script picks at random among [fullTickValues]. *)
Definition setup (v : float) : Instance :=
  {| chartManager := initial; chartInstance := None; value := v |}.

(** The text of the template, [PUE = {{ value.toFixed(2) }}]. *)
Definition gaugeText (c : Instance) : option string :=
  (fun s => "PUE = " +:+ s) <$> JsNumber.toFixed (value c) 2.

Definition initChart (w : World) (c : Instance) : Instance :=
  (* Clear existing chart *)
  let st := dispose (chartManager c) in
  (* chartManager.spawnCharts([...]), not awaited *)
  let st := (spawnCharts w [(canvasId, gaugeConfig)] st).1 in
  (* chartInstance = chartManager.getChart("powerGauge") || null *)
  {| chartManager := st; chartInstance := getChart canvasId st;
     value := value c |}.

(** The mounted hooks, in the order they were registered: the one of
    [useChartManager], then the component's own. *)
Definition onMounted (w : World) (c : Instance) : Instance :=
  let c := with_chartManager (setupResizeListener 300 (chartManager c)) c in
  let c := initChart w c in
  let st := chartManager c in
  let l := direct_resize_fn (fresh st) in
  with_chartManager (addEventListener l (with_fresh (S (fresh st)) st)) c.

(** The unmounted hook registered by [useChartManager]. *)
Definition onUnmounted (c : Instance) : Instance :=
  with_chartManager (dispose (chartManager c)) c.

(** The callback of [watch(value, ...)]; an exception that leaves it is
    handled by the framework. *)
Definition onValueChange (w : World) (c : Instance) : Instance :=
  match chartInstance c with
  | None => c                                   (* if (!chartInstance) return *)
  | Some chart => with_chartManager (update w chart None (chartManager c)).1 c
  end.

(** An assignment to [value.value]; the watcher runs when the new value
    is not the same Number as the old one. *)
Definition setValue (w : World) (v : float) (c : Instance) : Instance :=
  let c' := {| chartManager := chartManager c;
               chartInstance := chartInstance c; value := v |} in
  if PrimFloat.Leibniz.eqb (value c) v then c' else onValueChange w c'.

(** The event loop of the page runs the manager's timers. *)
Definition runLoop (w : World) (fuel : nat) (c : Instance) : Instance :=
  with_chartManager (run w fuel (chartManager c)) c.

End Component.

(* ===================================================================== *)
(** * Notions used to state the properties *)
(* ===================================================================== *)

Module Notions.
Import JsNumber Gauge JsMap Manager.

(** The tick sequence read off the loop: after the first major value,
    each further major value followed by the ticks interpolated below it. *)
Fixpoint ticksAfter (prev : float) (rest : list float) (k : nat) : list float :=
  match rest with
  | [] => []
  | curr :: tl => curr :: subTicks prev curr k ++ ticksAfter curr tl k
  end.

(** The entries of a log that are entries into [resizeCharts]. *)
Definition resizeCalls (l : list (nat * Event)) : list nat :=
  omap (fun e => match e.2 with resizeCharts_called => Some e.1 | _ => None end) l.

(** The handles constructed for [id] according to a log. *)
Definition constructedFor (id : string) (l : list (nat * Event)) : list Handle :=
  omap (fun e => match e.2 with
                 | chart_constructed id' h =>
                     if bool_decide (id' = id) then Some h else None
                 | _ => None
                 end) l.

(** The redraw requests of a log. *)
Definition updateRequests (l : list (nat * Event)) : list Handle :=
  omap (fun e => match e.2 with chart_update h _ => Some h | _ => None end) l.

(** A chart is live for [id]: constructed on that canvas, not destroyed. *)
Definition liveFor (st : State) (id : string) (h : Handle) : Prop :=
  ∃ c, charts st !! h = Some c ∧ chart_canvas_id c = id
       ∧ chart_destroyed c = false.

(** The identifier a pending callback belongs to, for the callbacks of
    [spawnChart]. *)
Definition spawnId (cb : Callback) : option string :=
  match cb with
  | tryCreateChart_cb id _ _ _ => Some id
  | construct_cb id _ _ _ => Some id
  | debounce_cb _ _ => None
  end.

Definition constructId (cb : Callback) : option string :=
  match cb with
  | construct_cb id _ _ _ => Some id
  | _ => None
  end.

(** The identifiers with a creation step waiting in the timer list. *)
Definition pendingIds (st : State) : list string :=
  omap (fun tm => spawnId (timer_callback tm)) (timers st).

(** The bookkeeping invariant of the manager: the registry has one
    entry per key; a live chart is the one registered for its canvas; a
    waiting creation step has its flag set, is the only one for its
    identifier, and, when it is the deferred construction, finds no chart
    registered. *)
Record consistent (st : State) : Prop := {
  registry_keys_distinct : NoDup (keys (chartInstances st));
  live_registered :
    ∀ h c, charts st !! h = Some c → chart_destroyed c = false →
           chartInstances st !! chart_canvas_id c = Some h;
  pending_in_flight :
    ∀ id, id ∈ pendingIds st → initializingCharts st !! id = Some true;
  pending_once : NoDup (pendingIds st);
  construct_unregistered :
    ∀ tm id, tm ∈ timers st → constructId (timer_callback tm) = Some id →
             chartInstances st !! id = None;
}.

(** The events of tearing down the chart registered for [id], if any. *)
Definition teardownOf (st : State) (id : string) : list Event :=
  match chartInstances st !! id with
  | Some h => [chart_destroy h]
  | None => []
  end.

(** How a creation started in [st] has ended in [final]: what it added
    to the log and did to the registry.  A constructed chart is set after
    the old entry was deleted, so its entry is the last one. *)
Inductive SpawnOutcome (id : string) (st final : State) : Prop :=
| spawn_constructed (t : nat) (h : Handle) :
    log final = log st ++ ((fun e => (t, e)) <$> teardownOf st id)
                       ++ [(t, chart_constructed id h)] →
    chartInstances final = <[id := h]> (delete id (chartInstances st)) →
    SpawnOutcome id st final
| spawn_construction_failed (t : nat) :
    log final = log st ++ ((fun e => (t, e)) <$> teardownOf st id)
                       ++ [(t, console_error
                                 ("[ChartManager] Failed to create chart ("
                                  +:+ id +:+ "):"))] →
    chartInstances final = delete id (chartInstances st) →
    SpawnOutcome id st final
| spawn_canvas_not_found (t : nat) :
    log final = log st
                ++ [(t, console_warn
                          ("[ChartManager] Canvas not found after retries: "
                           +:+ id))] →
    chartInstances final = chartInstances st →
    SpawnOutcome id st final
| spawn_context_unavailable (t : nat) :
    log final = log st
                ++ [(t, console_warn
                          ("[ChartManager] Cannot acquire context: " +:+ id))] →
    chartInstances final = chartInstances st →
    SpawnOutcome id st final.

(** The angle the specification expects for rotation 260, sweep 200 and
    value 1.4, with both angles converted by [PI / 180]. *)
Definition degreesPointerAngle : float :=
  (260 * Math_PI / 180 + ((1.4 - 1) / (3 - 1)) * (200 * Math_PI / 180))%float.

(** ** Concrete environments and inputs *)

(** The page as it is when the component is mounted: the canvas is in
    the document, has a 2D context, and the engine constructs charts. *)
Definition pageWorld : World :=
  {| getElementById := fun _ id =>
       if String.eqb id "powerGauge" then Some {| getContext_2d := Some 1 |}
       else None;
     constructorThrows := fun _ _ _ => false;
     updateThrows := fun _ _ _ _ => false |}.

(** A page whose canvas enters the document at 50 ms. *)
Definition lateCanvasWorld : World :=
  {| getElementById := fun t id =>
       if (50 <=? t) && String.eqb id "powerGauge"
       then Some {| getContext_2d := Some 1 |} else None;
     constructorThrows := fun _ _ _ => false;
     updateThrows := fun _ _ _ _ => false |}.

(** A page without the canvas. *)
Definition emptyWorld : World :=
  {| getElementById := fun _ _ => None;
     constructorThrows := fun _ _ _ => false;
     updateThrows := fun _ _ _ _ => false |}.

(** A page whose canvas yields no 2D context. *)
Definition noContextWorld : World :=
  {| getElementById := fun _ _ => Some {| getContext_2d := None |};
     constructorThrows := fun _ _ _ => false;
     updateThrows := fun _ _ _ _ => false |}.

(** The page, with an engine whose [update()] throws. *)
Definition failingUpdateWorld : World :=
  {| getElementById := getElementById pageWorld;
     constructorThrows := fun _ _ _ => false;
     updateThrows := fun _ _ _ _ => true |}.

(** A page on which the chart engine's constructor throws. *)
Definition throwingWorld : World :=
  {| getElementById := fun _ _ => Some {| getContext_2d := Some 1 |};
     constructorThrows := fun _ _ _ => true;
     updateThrows := fun _ _ _ _ => false |}.

Definition someConfig : ChartConfiguration :=
  {| config_type := "doughnut"; config_data := Some "{datasets:[]}";
     config_options := Some (<["responsive" := "true"]> ∅) |}.

(** Five "resize" events, 20 ms apart, after [setupResizeListener(200)]. *)
Definition resizeBurst : list Op :=
  [ op_setupResizeListener 200;
    op_resizeEvent; op_idle 20; op_resizeEvent; op_idle 20;
    op_resizeEvent; op_idle 20; op_resizeEvent; op_idle 20;
    op_resizeEvent ].

(** A drawn chart of the gauge with its centre at [(x, y)]. *)
Definition drawnGauge (x y : float) : DrawnChart :=
  {| meta0_data0 := Some {| arc_x := x; arc_y := y; innerRadius := 100 |};
     datasets0 := gaugeDataset |}.

End Notions.

(* ===================================================================== *)
(** * Further notions: the registry against the chart store, bursts *)
(* ===================================================================== *)

Module Lifecycle.
Import JsNumber Gauge JsMap Manager Notions.

(** Every chart the registry holds is live for the identifier it is
    registered under. *)
Definition registryLive (st : State) : Prop :=
  ∀ id h, chartInstances st !! id = Some h → liveFor st id h.

(** The identities of timers are sound: every pending timer has an id
    below the counter, no two share one, and an id a debounce closure
    remembers is below the counter and can only be that of a debounce
    timer. *)
Record identitiesSound (st : State) : Prop := {
  timer_ids_below : ∀ tm, tm ∈ timers st → timer_id tm < fresh st;
  timer_ids_distinct : NoDup (timer_id <$> timers st);
  cell_ids_below :
    ∀ cell t, cells st !! cell = Some (Some t) → t < fresh st;
  cell_timers_debounce :
    ∀ cell t tm, cells st !! cell = Some (Some t) → tm ∈ timers st →
                 timer_id tm = t → spawnId (timer_callback tm) = None;
}.

(** Every in-flight flag has a creation step waiting behind it. *)
Definition flagsPending (st : State) : Prop :=
  ∀ id, initializingCharts st !! id = Some true → id ∈ pendingIds st.

(** The ticks laid out in ascending order: the first major value, then
    for each further major value the [k - 1] interpolated values followed
    by the major value itself. *)
Fixpoint ticksBetween (prev : float) (rest : list float) (k : nat) : list float :=
  match rest with
  | [] => []
  | curr :: tl => subTicks prev curr k ++ curr :: ticksBetween curr tl k
  end.

Definition ascendingTickValues (M : list float) (k : nat) : list float :=
  match M with
  | [] => []
  | m0 :: tl => m0 :: ticksBetween m0 tl k
  end.

(** One debounced function called again and again: after each gap of
    idle time, a further call. *)
Fixpoint debouncedCalls (func : Thunk) (delay cell : nat) (gaps : list nat)
    (st : State) : State :=
  match gaps with
  | [] => st
  | g :: gs =>
      debouncedCalls func delay cell gs (callDebounced func delay cell (idle g st))
  end.

(** A page with two canvases, "left" and "right". *)
Definition twoCanvasWorld : World :=
  {| getElementById := fun _ id =>
       if String.eqb id "left" || String.eqb id "right"
       then Some {| getContext_2d := Some 1 |} else None;
     constructorThrows := fun _ _ _ => false;
     updateThrows := fun _ _ _ _ => false |}.

(** The texts of the [fillText] calls, in order. *)
Definition labelsOf (calls : list CanvasCall) : list (option string) :=
  omap (fun c => match c with fillText t _ _ => Some t | _ => None end) calls.

(** The [save] and [restore] calls, in order. *)
Definition stateCallsOf (calls : list CanvasCall) : list CanvasCall :=
  List.filter (fun c => match c with save | restore => true | _ => false end)
    calls.

(** The number of [stroke] calls. *)
Definition strokesOf (calls : list CanvasCall) : nat :=
  length (List.filter (fun c => match c with stroke => true | _ => false end)
            calls).

End Lifecycle.

(* ===================================================================== *)
(** * Properties of the [Map] operations *)
(* ===================================================================== *)

Module JsMapFacts.
Import JsMap.

Section laws.
Context {V : Type}.
Implicit Types (m : JsMap V) (k : string) (v : V).

Lemma Map_eta m : Map_of (entries m) = m.
Proof. by destruct m. Qed.

Lemma Map_entries_inj m1 m2 : entries m1 = entries m2 → m1 = m2.
Proof. destruct m1, m2. cbn. by intros ->. Qed.

Lemma Map_entries_empty : entries (∅ : JsMap V) = [].
Proof. done. Qed.

Lemma Map_lookup_empty k : (∅ : JsMap V) !! k = None.
Proof. done. Qed.

Lemma Map_entries_insert k v m :
  entries (<[k := v]> m) = assoc_set k v (entries m).
Proof. done. Qed.

Lemma Map_entries_delete k m :
  entries (delete k m) = filter (fun e => e.1 ≠ k) (entries m).
Proof. done. Qed.

Lemma assoc_get_set_eq k v (l : list (string * V)) :
  assoc_get k (assoc_set k v l) = Some v.
Proof.
  induction l as [|[k' v'] tl IH]; cbn.
  - by rewrite decide_True.
  - destruct (decide (k' = k)); cbn.
    + by rewrite decide_True.
    + by rewrite decide_False.
Qed.

Lemma assoc_get_set_ne k k' v (l : list (string * V)) :
  k ≠ k' → assoc_get k' (assoc_set k v l) = assoc_get k' l.
Proof.
  intros Hne. induction l as [|[k0 v0] tl IH]; cbn.
  - by rewrite decide_False.
  - destruct (decide (k0 = k)) as [->|]; cbn.
    + by rewrite !decide_False.
    + destruct (decide (k0 = k')); [done|exact IH].
Qed.

Lemma assoc_get_filter_eq k (l : list (string * V)) :
  assoc_get k (filter (fun e => e.1 ≠ k) l) = None.
Proof.
  induction l as [|[k0 v0] tl IH]; [done|]. rewrite filter_cons. cbn.
  destruct (decide (k0 ≠ k)) as [Hne|_]; [|exact IH].
  cbn. by rewrite decide_False.
Qed.

Lemma assoc_get_filter_ne k k' (l : list (string * V)) :
  k ≠ k' → assoc_get k' (filter (fun e => e.1 ≠ k) l) = assoc_get k' l.
Proof.
  intros Hne. induction l as [|[k0 v0] tl IH]; [done|]. rewrite filter_cons. cbn.
  destruct (decide (k0 ≠ k)) as [Hk|Hk]; cbn.
  - destruct (decide (k0 = k')); [done|exact IH].
  - apply dec_stable in Hk as ->. by rewrite decide_False.
Qed.

Lemma Map_lookup_insert_eq k v m : <[k := v]> m !! k = Some v.
Proof. apply assoc_get_set_eq. Qed.

Lemma Map_lookup_insert_ne k k' v m : k ≠ k' → <[k := v]> m !! k' = m !! k'.
Proof. apply assoc_get_set_ne. Qed.

Lemma Map_lookup_insert_Some k k' v v' m :
  <[k := v]> m !! k' = Some v' ↔ (k = k' ∧ v = v') ∨ (k ≠ k' ∧ m !! k' = Some v').
Proof.
  destruct (decide (k = k')) as [->|Hne].
  - rewrite Map_lookup_insert_eq. split.
    + intros [= ->]. by left.
    + intros [[_ ->]|[Hne _]]; done.
  - rewrite Map_lookup_insert_ne by done. split.
    + intros H. by right.
    + intros [[He _]|[_ H]]; done.
Qed.

Lemma Map_lookup_delete_eq k m : delete k m !! k = None.
Proof. apply assoc_get_filter_eq. Qed.

Lemma Map_lookup_delete_ne k k' m : k ≠ k' → delete k m !! k' = m !! k'.
Proof. apply assoc_get_filter_ne. Qed.

Lemma Map_lookup_delete_Some k k' v m :
  delete k m !! k' = Some v ↔ k ≠ k' ∧ m !! k' = Some v.
Proof.
  destruct (decide (k = k')) as [->|Hne].
  - rewrite Map_lookup_delete_eq. split; [done|]. by intros [? _].
  - rewrite Map_lookup_delete_ne by done. split; [done|]. by intros [_ ?].
Qed.

Lemma Map_lookup_delete_None k k' m :
  delete k m !! k' = None ↔ k = k' ∨ m !! k' = None.
Proof.
  destruct (decide (k = k')) as [->|Hne].
  - rewrite Map_lookup_delete_eq. split; [by left|done].
  - rewrite Map_lookup_delete_ne by done. split; [by right|]. by intros [?|?].
Qed.

(** A key with no entry is not among the keys, and conversely. *)
Lemma Map_lookup_None k m : m !! k = None ↔ k ∉ keys m.
Proof.
  unfold lookup, JsMap_lookup, Map_get, keys.
  induction (entries m) as [|[k0 v0] tl IH]; cbn.
  - split; [intros _; apply not_elem_of_nil|done].
  - destruct (decide (k0 = k)) as [->|Hne].
    + split; [done|]. intros H. exfalso. apply H. apply elem_of_cons. by left.
    + rewrite IH. split.
      * intros H [?|?]%elem_of_cons; done.
      * intros H Hin. apply H. apply elem_of_cons. by right.
Qed.

Lemma Map_delete_id k m : m !! k = None → delete k m = m.
Proof.
  intros H%Map_lookup_None. apply Map_entries_inj.
  rewrite Map_entries_delete. unfold keys in H. induction (entries m) as [|[k0 v0] tl IH]; [done|].
  rewrite filter_cons. cbn in *.
  apply not_elem_of_cons in H as [Hne Hin].
  rewrite decide_True by done. f_equal. by apply IH.
Qed.

(** The entry [get] finds is an entry; with one entry per key, every
    entry is the one [get] finds. *)
Lemma Map_lookup_entry k v m : m !! k = Some v → (k, v) ∈ entries m.
Proof.
  unfold lookup, JsMap_lookup, Map_get.
  induction (entries m) as [|[k0 v0] tl IH]; cbn; [done|].
  destruct (decide (k0 = k)) as [->|Hne].
  - intros [= ->]. apply elem_of_cons. by left.
  - intros H. apply elem_of_cons. right. by apply IH.
Qed.

Lemma Map_entry_lookup k v m :
  NoDup (keys m) → (k, v) ∈ entries m → m !! k = Some v.
Proof.
  unfold lookup, JsMap_lookup, Map_get, keys.
  induction (entries m) as [|[k0 v0] tl IH]; cbn.
  - intros _ H. by apply not_elem_of_nil in H.
  - intros [Hk Hnd]%NoDup_cons [[= -> ->]|Hin]%elem_of_cons.
    + by rewrite decide_True.
    + rewrite decide_False; [by apply IH|]. intros ->. apply Hk.
      apply list_elem_of_fmap. by exists (k, v).
Qed.

(** [set] on a new key appends an entry; [delete] filters the entries. *)
Lemma Map_entries_insert_new k v m :
  m !! k = None → entries (<[k := v]> m) = entries m ++ [(k, v)].
Proof.
  intros H%Map_lookup_None. unfold keys in H. rewrite Map_entries_insert.
  induction (entries m) as [|[k0 v0] tl IH]; [done|]. cbn in *.
  apply not_elem_of_cons in H as [Hne Hin].
  rewrite decide_False by done. f_equal. by apply IH.
Qed.

Lemma Map_keys_insert k v m :
  keys (<[k := v]> m) = if decide (k ∈ keys m) then keys m else keys m ++ [k].
Proof.
  unfold keys. rewrite Map_entries_insert.
  induction (entries m) as [|[k0 v0] tl IH]; cbn.
  - rewrite decide_False; [done|]. apply not_elem_of_nil.
  - destruct (decide (k0 = k)) as [->|Hne]; cbn.
    + rewrite decide_True; [done|]. apply elem_of_cons. by left.
    + rewrite IH. destruct (decide (k ∈ tl.*1)) as [Hin|Hnin].
      * rewrite decide_True; [done|]. apply elem_of_cons. by right.
      * rewrite decide_False; [done|]. intros [?|?]%elem_of_cons; done.
Qed.

Lemma NoDup_keys_insert k v m : NoDup (keys m) → NoDup (keys (<[k := v]> m)).
Proof.
  intros Hnd. rewrite Map_keys_insert. destruct (decide _) as [|Hnin]; [done|].
  apply NoDup_app. split; [done|]. split; [|apply NoDup_singleton].
  intros x Hx ->%list_elem_of_singleton. done.
Qed.

Lemma NoDup_keys_delete k m : NoDup (keys m) → NoDup (keys (delete k m)).
Proof.
  unfold keys. rewrite Map_entries_delete. intros Hnd.
  eapply sublist_NoDup; [exact Hnd|]. apply fmap_sublist, sublist_filter.
Qed.

Lemma NoDup_keys_empty : NoDup (keys (∅ : JsMap V)).
Proof. constructor. Qed.

(** A map in which no key has an entry is the empty one. *)
Lemma Map_empty_lookup m : (∀ k, m !! k = None) → m = ∅.
Proof.
  intros H. apply Map_entries_inj. rewrite Map_entries_empty.
  destruct (entries m) as [|[k v] tl] eqn:E; [done|].
  specialize (H k). apply Map_lookup_None in H. exfalso. apply H.
  unfold keys. rewrite E. apply elem_of_cons. by left.
Qed.

End laws.

End JsMapFacts.

(* ===================================================================== *)
(** * Properties of the gauge renderer *)
(* ===================================================================== *)

Module GaugeFacts.
Import JsNumber Gauge Notions.

(** ** Tick generation *)

Lemma subTicks_length prev curr k : length (subTicks prev curr k) = k - 1.
Proof. unfold subTicks. by rewrite length_map, length_seq. Qed.

Lemma subTicks_lookup prev curr k s :
  1 ≤ s < k → subTicks prev curr k !! (s - 1) = Some (subTick prev curr s k).
Proof.
  intros Hs. unfold subTicks. rewrite list_lookup_fmap.
  rewrite lookup_seq_lt by lia. simpl. do 2 f_equal. lia.
Qed.

(** The loop from index [length pre + 1] on, when the array read is
    [pre ++ prev :: rest]. *)
Lemma tick_loop_from pre prev rest k acc :
  fold_left (tickStep (pre ++ prev :: rest) k)
    (seq (S (length pre)) (length rest)) acc
  = acc ++ ticksAfter prev rest k.
Proof.
  revert pre prev acc. induction rest as [|curr tl IH]; intros pre prev acc.
  - simpl. by rewrite app_nil_r.
  - cbn [length seq fold_left ticksAfter].
    assert (Hcurr : nth (S (length pre)) (pre ++ prev :: curr :: tl) nan = curr).
    { replace (pre ++ prev :: curr :: tl) with ((pre ++ [prev]) ++ curr :: tl)
        by (by rewrite <- app_assoc).
      replace (S (length pre)) with (length (pre ++ [prev]))
        by (rewrite length_app; simpl; lia).
      apply nth_middle. }
    assert (Hprev : nth (length pre) (pre ++ prev :: curr :: tl) nan = prev)
      by apply nth_middle.
    unfold tickStep at 2. cbn [Nat.eqb].
    replace (S (length pre) - 1) with (length pre) by lia.
    rewrite Hcurr, Hprev.
    specialize (IH (pre ++ [prev]) curr).
    rewrite <- app_assoc in IH. cbn [app] in IH.
    replace (length (pre ++ [prev])) with (S (length pre)) in IH
      by (rewrite length_app; simpl; lia).
    rewrite IH. rewrite <- !app_assoc. reflexivity.
Qed.

Lemma fullTickValuesOf_nil k : fullTickValuesOf [] k = [].
Proof. reflexivity. Qed.

Lemma fullTickValuesOf_cons m0 tl k :
  fullTickValuesOf (m0 :: tl) k = m0 :: ticksAfter m0 tl k.
Proof.
  unfold fullTickValuesOf. cbn [length seq fold_left].
  unfold tickStep at 2. cbn [Nat.eqb nth app].
  apply (tick_loop_from [] m0 tl k [m0]).
Qed.

Lemma ticksAfter_length prev rest k :
  length (ticksAfter prev rest k) = length rest + length rest * (k - 1).
Proof.
  revert prev. induction rest as [|curr tl IH]; intros prev; [done|].
  cbn [ticksAfter length]. rewrite length_app, subTicks_length, IH. lia.
Qed.

Lemma ticksAfter_k1 prev rest : ticksAfter prev rest 1 = rest.
Proof.
  revert prev. induction rest as [|curr tl IH]; intros prev; [done|].
  cbn [ticksAfter]. by rewrite IH.
Qed.

(** Where the loop puts the major value [curr = rest[i]] and the ticks
    interpolated between it and its predecessor. *)
Lemma ticksAfter_lookup m0 rest k i prev curr :
  1 ≤ k → (m0 :: rest) !! i = Some prev → rest !! i = Some curr →
  ticksAfter m0 rest k !! (i * k) = Some curr
  ∧ ∀ s, 1 ≤ s < k →
      ticksAfter m0 rest k !! (i * k + s) = Some (subTick prev curr s k).
Proof.
  intros Hk. revert m0 i. induction rest as [|c tl IH]; intros m0 i Hp Hc.
  - by rewrite lookup_nil in Hc.
  - destruct i as [|i].
    + simpl in Hp, Hc. injection Hp as <-. injection Hc as <-.
      split; [done|]. intros s Hs. cbn [ticksAfter].
      replace (0 * k + s) with (S (s - 1)) by lia. rewrite lookup_cons.
      rewrite lookup_app_l by (rewrite subTicks_length; lia).
      by apply subTicks_lookup.
    + simpl in Hp, Hc. destruct (IH c i Hp Hc) as [H1 H2].
      assert (Hshift : ∀ j, (c :: subTicks m0 c k ++ ticksAfter c tl k)
                            !! (S i * k + j) = ticksAfter c tl k !! (i * k + j)).
      { intros j. replace (S i * k + j) with (S ((k - 1) + (i * k + j))) by lia.
        rewrite lookup_cons.
        rewrite lookup_app_r by (rewrite subTicks_length; lia).
        rewrite subTicks_length. f_equal. lia. }
      cbn [ticksAfter]. split.
      * specialize (Hshift 0). rewrite !Nat.add_0_r in Hshift.
        by rewrite Hshift.
      * intros s Hs. rewrite Hshift. by apply H2.
Qed.

(** Without subdivisions the loop pushes the major values only. *)
Lemma ticksAfter_k0 prev rest : ticksAfter prev rest 0 = rest.
Proof.
  revert prev. induction rest as [|curr tl IH]; intros prev; [done|].
  cbn [ticksAfter]. by rewrite IH.
Qed.

Lemma fullTickValuesOf_k0 M : fullTickValuesOf M 0 = M.
Proof.
  destruct M as [|m0 tl]; [done|].
  by rewrite fullTickValuesOf_cons, ticksAfter_k0.
Qed.

(** C2, as amended.  For every list [M] of major values and every count
    [k >= 1]: the sequence generated from an empty [M] is empty, and that
    generated from a non-empty [M] has [|M| + (|M|-1)(k-1)] elements; it
    starts with [M[0]]; each further major value [M[i+1]] stands at index
    [1 + i*k] and is FOLLOWED by the [k-1] values interpolated between
    [M[i]] and [M[i+1]] (each rounded to two decimals); and for [k = 1]
    the sequence is [M] itself, so strictly increasing when [M] is. *)
Theorem fullTickValues_layout (M : list float) (k : nat) :
  1 ≤ k →
  (M = [] → fullTickValuesOf M k = [])
  ∧ (M ≠ [] →
     (Z.of_nat (length (fullTickValuesOf M k))
      = Z.of_nat (length M) + (Z.of_nat (length M) - 1) * (Z.of_nat k - 1))%Z)
  ∧ fullTickValuesOf M k !! 0 = M !! 0
  ∧ (∀ i prev curr,
       M !! i = Some prev → M !! S i = Some curr →
       fullTickValuesOf M k !! (1 + i * k) = Some curr
       ∧ ∀ s, 1 ≤ s < k →
           fullTickValuesOf M k !! (1 + i * k + s)
           = Some (subTick prev curr s k))
  ∧ (k = 1 → fullTickValuesOf M k = M
             ∧ strictlyIncreasing (fullTickValuesOf M k) = strictlyIncreasing M).
Proof.
  intros Hk. destruct M as [|m0 tl].
  - rewrite fullTickValuesOf_nil. split; [done|]. split; [done|]. split; [done|].
    split; [|by intros ->]. intros i prev curr H. by rewrite lookup_nil in H.
  - rewrite fullTickValuesOf_cons. split; [done|]. split; [|split; [done|split]].
    + intros _. cbn [length]. rewrite ticksAfter_length.
      destruct k as [|k']; [lia|].
      replace (S k' - 1) with k' by lia. nia.
    + intros i prev curr Hp Hc. simpl in Hc.
      destruct (ticksAfter_lookup m0 tl k i prev curr Hk Hp Hc) as [H1 H2].
      split; [exact H1|]. intros s Hs. simpl. by apply H2.
    + intros ->. by rewrite ticksAfter_k1.
Qed.

(** The layout at the gauge's own list: it has 41 values; the second
    major value, 1.2, stands at index 1 and the tick 1.05 after it. *)
Lemma fullTickValues_layout_witness :
  Z.of_nat (length fullTickValues) = 41%Z
  ∧ fullTickValues !! 1 = Some 1.2%float
  ∧ fullTickValues !! 2 = Some (subTick 1 1.2 1 4).
Proof.
  destruct (fullTickValues_layout majorTickValues subStepCount)
    as (_ & Hlen & _ & Hpos & _); [unfold subStepCount; lia|].
  split; [by apply Hlen|].
  destruct (Hpos 0 1%float 1.2%float) as [H1 H2]; [reflexivity | reflexivity |].
  split; [exact H1|]. apply (H2 1). unfold subStepCount. lia.
Defined.

(** C2, the claim as stated fails: the gauge's major list is strictly
    increasing, the sequence generated from it with [k = 4] is not; its
    first three values are 1, 1.2, 1.05. *)
Lemma fullTickValues_not_increasing :
  strictlyIncreasing majorTickValues = true
  ∧ strictlyIncreasing (fullTickValuesOf majorTickValues 4) = false
  ∧ take 3 (fullTickValuesOf majorTickValues 4) = [1; 1.2; 1.05]%float.
Proof. vm_compute. done. Qed.

(** ** The overlay *)

(** C10.  [afterDraw] paints nothing, not even [ctx.save()], when the
    first arc element is absent, and also whenever the arc's centre has
    [x] equal to 0 or [y] equal to 0 (the falsy test [!x || !y]). *)
Theorem afterDraw_silent_on_zero_centre
    (Math_cos Math_sin : float -> float) (chart : DrawnChart) (value : float) :
  (meta0_data0 chart = None
   ∨ ∃ a, meta0_data0 chart = Some a
          ∧ (PrimFloat.eqb (arc_x a) 0 = true ∨ PrimFloat.eqb (arc_y a) 0 = true)) →
  afterDraw Math_cos Math_sin chart value = [].
Proof.
  intros [Hnone | (a & Ha & Hzero)]; unfold afterDraw.
  - by rewrite Hnone.
  - rewrite Ha. unfold truthy.
    destruct Hzero as [-> | ->]; cbn [orb negb]; [done|].
    by rewrite orb_true_r.
Qed.

(** A gauge whose centre lies at [x = 0]: nothing is painted. *)
Lemma afterDraw_silent_witness :
  afterDraw (fun a => a) (fun a => a) (drawnGauge 0 150) 1.4 = [].
Proof.
  apply afterDraw_silent_on_zero_centre. right.
  exists {| arc_x := 0; arc_y := 150; innerRadius := 100 |}.
  split; [reflexivity | left; reflexivity].
Defined.

(** The same gauge with its centre off the axes is painted: the routine
    issues 243 context calls. *)
Example afterDraw_paints_off_axes :
  length (afterDraw (fun a => a) (fun a => a) (drawnGauge 150 150) 1.4) = 243.
Proof. vm_compute. reflexivity. Qed.

(** When the routine paints, its calls end with the pointer part. *)
Lemma afterDraw_ends_with_pointer Math_cos Math_sin chart a value :
  meta0_data0 chart = Some a →
  truthy (arc_x a) = true → truthy (arc_y a) = true →
  ∃ ticks,
    afterDraw Math_cos Math_sin chart value
    = ticks ++ drawPointer Math_cos Math_sin (arc_x a) (arc_y a)
                 (innerRadius a) (datasets0 chart) value ++ [restore].
Proof.
  intros Ha Hx Hy. unfold afterDraw. rewrite Ha, Hx, Hy. cbn [negb orb].
  destruct (fold_left _ _ _) as [calls angle]. by exists calls.
Qed.

(** C3, as amended.  The rotation is turned into the start angle by the
    factor [Math.PI / 88.4], the sweep into radians by [Math.PI / 180],
    both once, and whenever the routine paints, the needle is drawn from
    the centre to [innerRadius - 45] along the angle
    [rotation * PI / 88.4 + ((value - 1) / (3 - 1)) * (circumference * PI / 180)];
    for rotation 260, circumference 200 and value 1.4 that angle is the
    Number 9.938110093708886. *)
Theorem pointerAngle_in_code
    (Math_cos Math_sin : float -> float) (chart : DrawnChart)
    (a : ArcElement) (value : float) :
  meta0_data0 chart = Some a →
  truthy (arc_x a) = true → truthy (arc_y a) = true →
  let rot := default 0%float (rotation (datasets0 chart)) in
  let circ := default 360%float (circumference (datasets0 chart)) in
  let angle :=
    ((rot * Math_PI) / 88.4
     + ((value - 1) / (3 - 1)) * ((circ * Math_PI) / 180))%float in
  let x := arc_x a in
  let y := arc_y a in
  let len := (innerRadius a - 45)%float in
  (∃ ticks,
     afterDraw Math_cos Math_sin chart value
     = ticks
       ++ [ set_lineWidth 3; set_strokeStyle "#fff"; beginPath; moveTo x y;
            lineTo (x + len * Math_cos angle) (y + len * Math_sin angle);
            stroke; set_fillStyle "#fff"; beginPath;
            arc x y 5 0 (Math_PI * 2); fill; restore ])
  ∧ pointerAngle gaugeDataset 1.4 = 9.938110093708886%float.
Proof.
  intros Ha Hx Hy. cbv zeta. split; [|vm_compute; reflexivity].
  destruct (afterDraw_ends_with_pointer Math_cos Math_sin chart a value Ha Hx Hy)
    as [ticks ->].
  exists ticks. reflexivity.
Qed.

(** The needle of the gauge drawn with its centre at (150, 150). *)
Lemma pointerAngle_in_code_witness :
  (∃ ticks,
     afterDraw (fun a => a) (fun a => a) (drawnGauge 150 150) 1.4
     = ticks
       ++ [ set_lineWidth 3; set_strokeStyle "#fff"; beginPath;
            moveTo 150 150;
            lineTo (150 + (100 - 45) * pointerAngle gaugeDataset 1.4)
                   (150 + (100 - 45) * pointerAngle gaugeDataset 1.4);
            stroke; set_fillStyle "#fff"; beginPath;
            arc 150 150 5 0 (Math_PI * 2); fill; restore ]%float)
  ∧ pointerAngle gaugeDataset 1.4 = 9.938110093708886%float.
Proof.
  exact (pointerAngle_in_code (fun a => a) (fun a => a) (drawnGauge 150 150)
           {| arc_x := 150; arc_y := 150; innerRadius := 100 |} 1.4%float
           eq_refl eq_refl eq_refl).
Defined.

(** C3, the claim as stated fails: for rotation 260, sweep 200 and value
    1.4 the angle the code computes is not
    [260*PI/180 + ((1.4-1)/(3-1)) * (200*PI/180)]; it exceeds it by more
    than 4.7 radians. *)
Lemma pointerAngle_is_not_degrees_to_radians :
  PrimFloat.eqb (pointerAngle gaugeDataset 1.4) degreesPointerAngle = false
  ∧ PrimFloat.ltb 4.7 (pointerAngle gaugeDataset 1.4 - degreesPointerAngle) = true.
Proof. vm_compute. done. Qed.

End GaugeFacts.

(* ===================================================================== *)
(** * Properties of the chart instance manager *)
(* ===================================================================== *)

Module ManagerFacts.
Import JsMap JsMapFacts Manager Notions.

(** ** The invariant and the state transformers *)

Lemma consistent_ext st st' :
  chartInstances st' = chartInstances st →
  initializingCharts st' = initializingCharts st →
  charts st' = charts st →
  timers st' = timers st →
  consistent st → consistent st'.
Proof.
  intros H1 H2 H3 H4 [I0 I1 I2 I3 I4].
  split; unfold pendingIds in *; rewrite ?H1, ?H2, ?H3, ?H4; assumption.
Qed.

Lemma consistent_initial : consistent initial.
Proof.
  split; unfold pendingIds; cbn.
  - constructor.
  - intros h c H. by rewrite lookup_nil in H.
  - intros id H. by apply not_elem_of_nil in H.
  - constructor.
  - intros tm id H. by apply not_elem_of_nil in H.
Qed.

Lemma omap_filter_NoDup {A B} (f : A → option B) (P : A → Prop)
    `{!∀ x, Decision (P x)} (l : list A) :
  NoDup (omap f l) → NoDup (omap f (filter P l)).
Proof.
  induction l as [|x l IH]; [done|]. intros Hnd.
  rewrite filter_cons. cbn [omap list_omap] in Hnd.
  destruct (decide (P x)).
  - cbn [omap list_omap]. destruct (f x) as [b|]; [|by apply IH].
    apply NoDup_cons in Hnd as [Hb Hnd]. apply NoDup_cons. split; [|by apply IH].
    intros (y & Hy & Hfy)%list_elem_of_omap. apply Hb, list_elem_of_omap.
    apply list_elem_of_filter in Hy as [_ Hy]. eauto.
  - apply IH. destruct (f x); [by apply NoDup_cons in Hnd as [_ ?]|done].
Qed.

Lemma pendingIds_filter P `{!∀ x, Decision (P x)} st id :
  id ∈ pendingIds (with_timers (filter P) st) → id ∈ pendingIds st.
Proof.
  unfold pendingIds. cbn. intros (tm & Htm & Hid)%list_elem_of_omap.
  apply list_elem_of_filter in Htm as [_ Htm]. apply list_elem_of_omap. eauto.
Qed.

Lemma consistent_clearTimeout t st :
  consistent st → consistent (clearTimeout t st).
Proof.
  intros [I0 I1 I2 I3 I4]. unfold clearTimeout. split.
  - exact I0.
  - exact I1.
  - intros id Hid. apply I2. by eapply pendingIds_filter.
  - unfold pendingIds. cbn. by apply omap_filter_NoDup.
  - intros tm id Htm. cbn in Htm. apply list_elem_of_filter in Htm as [_ Htm].
    by apply I4.
Qed.

Lemma pendingIds_setTimeout cb d st :
  pendingIds (setTimeout cb d st).2
  = pendingIds st ++ match spawnId cb with Some id => [id] | None => [] end.
Proof.
  unfold pendingIds, setTimeout. cbn. rewrite omap_app. cbn.
  by destruct (spawnId cb).
Qed.

Lemma consistent_setTimeout cb d st :
  consistent st →
  (∀ id, spawnId cb = Some id →
         initializingCharts st !! id = Some true ∧ id ∉ pendingIds st) →
  (∀ id, constructId cb = Some id → chartInstances st !! id = None) →
  consistent (setTimeout cb d st).2.
Proof.
  intros [I0 I1 I2 I3 I4] Hs Hc. split.
  - exact I0.
  - exact I1.
  - intros id. rewrite pendingIds_setTimeout. intros [Hid|Hid]%elem_of_app.
    + by apply I2.
    + destruct (spawnId cb) as [id'|] eqn:E; [|by apply not_elem_of_nil in Hid].
      apply list_elem_of_singleton in Hid as ->. by apply Hs.
  - rewrite pendingIds_setTimeout. apply NoDup_app. split; [done|]. split.
    + intros id Hid Hin.
      destruct (spawnId cb) as [id'|] eqn:E; [|by apply not_elem_of_nil in Hin].
      apply list_elem_of_singleton in Hin as ->. destruct (Hs id' eq_refl). done.
    + destruct (spawnId cb); [apply NoDup_singleton | constructor].
  - intros tm id Htm Hid. cbn in Htm. apply elem_of_app in Htm as [Htm|Htm].
    + by eapply I4.
    + apply list_elem_of_singleton in Htm as ->. cbn in Hid. by apply Hc.
Qed.

Lemma consistent_flag_insert id st :
  consistent st → consistent (with_initializingCharts <[id := true]> st).
Proof.
  intros [I0 I1 I2 I3 I4]. split; try done.
  intros id' Hid. cbn. destruct (decide (id = id')) as [->|Hne].
  - by rewrite lookup_insert_eq.
  - rewrite lookup_insert_ne by done. by apply I2.
Qed.

Lemma consistent_flag_delete id st :
  consistent st → id ∉ pendingIds st →
  consistent (with_initializingCharts (delete id) st).
Proof.
  intros [I0 I1 I2 I3 I4] Hid. split; try done.
  intros id' Hid'. cbn. rewrite lookup_delete_ne; [by apply I2|].
  intros ->. by apply Hid.
Qed.

(** Destroying the chart registered for [id] and deregistering it. *)
Lemma consistent_teardown id h st :
  consistent st → chartInstances st !! id = Some h →
  consistent (with_chartInstances (delete id) (destroy h st)).
Proof.
  intros [I0 I1 I2 I3 I4] Hreg. split; try done.
  - cbn. by apply NoDup_keys_delete.
  - intros h' c. cbn. intros Hc Hlive.
    destruct (decide (h = h')) as [->|Hne].
    + rewrite list_lookup_alter_eq in Hc.
      destruct (charts st !! h'); [|done]. injection Hc as <-. done.
    + rewrite list_lookup_alter_ne in Hc by done.
      specialize (I1 h' c Hc Hlive).
      rewrite Map_lookup_delete_ne; [done|]. intros ->.
      rewrite Hreg in I1. by simplify_eq.
  - intros tm id' Htm Hid'. cbn. cbn in Htm.
    destruct (decide (id = id')) as [->|Hne].
    + by rewrite Map_lookup_delete_eq.
    + rewrite Map_lookup_delete_ne by done. by eapply I4.
Qed.

(** Constructing a chart for an identifier that has none registered and
    no creation step waiting, and registering it. *)
Lemma consistent_register w id ctx config st h st' :
  consistent st → chartInstances st !! id = None → id ∉ pendingIds st →
  new_Chart w id ctx config st = (Some h, st') →
  consistent (with_chartInstances <[id := h]> st').
Proof.
  intros [I0 I1 I2 I3 I4] Hreg Hpend. unfold new_Chart.
  destruct (constructorThrows _ _ _ _); [done|]. intros [= <- <-]. split; try done.
  - cbn. by apply NoDup_keys_insert.
  - intros h c. cbn. intros Hc Hlive.
    apply lookup_app_Some in Hc as [Hc|[Hlen Hc]].
    + specialize (I1 h c Hc Hlive).
      rewrite Map_lookup_insert_ne; [done|]. intros ->.
      rewrite Hreg in I1. by simplify_eq.
    + destruct (h - length (charts st)) as [|n] eqn:E; [|done].
      cbn in Hc. injection Hc as <-. cbn.
      rewrite Map_lookup_insert_eq. f_equal. lia.
  - intros tm id' Htm Hid'. cbn. cbn in Htm.
    rewrite Map_lookup_insert_ne; [by eapply I4|]. intros <-.
    apply Hpend. unfold pendingIds. apply list_elem_of_omap. exists tm.
    split; [done|]. destruct (timer_callback tm); by try done.
Qed.

Lemma consistent_alter_options f h st :
  (∀ c, chart_canvas_id (f c) = chart_canvas_id c
        ∧ chart_destroyed (f c) = chart_destroyed c) →
  consistent st → consistent (with_charts (alter f h) st).
Proof.
  intros Hf [I0 I1 I2 I3 I4]. split; try done.
  intros h' c. cbn. intros Hc Hlive.
  destruct (decide (h = h')) as [->|Hne].
  - rewrite list_lookup_alter_eq in Hc.
    destruct (charts st !! h') as [c0|] eqn:E; [|done]. injection Hc as <-.
    destruct (Hf c0) as [-> Hd]. apply I1; [done|]. by rewrite <- Hd.
  - rewrite list_lookup_alter_ne in Hc by done. by apply I1.
Qed.

(** ** The methods keep the invariant *)

Lemma consistent_giveUp msg id p st :
  consistent st → id ∉ pendingIds st → consistent (giveUp msg id p st).
Proof.
  intros Hc Hid. unfold giveUp.
  eapply consistent_ext; [..|apply (consistent_flag_delete id st Hc Hid)]; done.
Qed.

Lemma consistent_tryCreateChart w id config p n st :
  consistent st → initializingCharts st !! id = Some true →
  id ∉ pendingIds st →
  consistent (tryCreateChart w id config p n st).
Proof.
  intros Hc Hflag Hid. unfold tryCreateChart.
  destruct (getElementById w (now st) id) as [canvas|].
  - destruct (getContext_2d canvas) as [ctx|].
    + destruct (chartInstances st !! id) as [h|] eqn:Hreg.
      * apply consistent_setTimeout.
        -- by apply consistent_teardown.
        -- intros id' [= <-]. done.
        -- intros id' [= <-]. cbn. apply Map_lookup_delete_eq.
      * apply consistent_setTimeout; [done|..].
        -- intros id' [= <-]. done.
        -- intros id' [= <-]. done.
    + destruct (n <? 20).
      * apply consistent_setTimeout; [done|..]; [by intros id' [= <-]|done].
      * by apply consistent_giveUp.
  - destruct (n <? 10).
    + apply consistent_setTimeout; [done|..]; [by intros id' [= <-]|done].
    + by apply consistent_giveUp.
Qed.

Lemma consistent_constructChart w id ctx config p st :
  consistent st → chartInstances st !! id = None → id ∉ pendingIds st →
  consistent (constructChart w id ctx config p st).
Proof.
  intros Hc Hreg Hid. unfold constructChart.
  destruct (new_Chart w id ctx config st) as [[h|] st'] eqn:Hnew.
  - pose proof (consistent_register w id ctx config st h st' Hc Hreg Hid Hnew) as Hc'.
    assert (Htm : timers st' = timers st).
    { unfold new_Chart in Hnew. destruct (constructorThrows _ _ _ _); [done|].
      by injection Hnew as _ <-. }
    eapply consistent_ext;
      [..|apply (consistent_flag_delete id _ Hc')]; try done.
    unfold pendingIds. cbn. by rewrite Htm.
  - assert (st' = st) as ->.
    { unfold new_Chart in Hnew. destruct (constructorThrows _ _ _ _); [|done].
      by injection Hnew. }
    eapply consistent_ext;
      [..|apply (consistent_flag_delete id _ Hc Hid)]; done.
Qed.

Lemma consistent_spawnChart w id config st :
  consistent st → consistent (spawnChart w id config st).1.
Proof.
  intros Hc. unfold spawnChart.
  assert (Hgo : initializingCharts st !! id ≠ Some true →
    consistent (tryCreateChart w id config (fresh st) 0
      (with_fresh (S (fresh st)) (with_initializingCharts <[id:=true]> st)))).
  { intros Hflag. apply consistent_tryCreateChart.
    - eapply consistent_ext; [..|apply (consistent_flag_insert id st Hc)]; done.
    - cbn. apply lookup_insert_eq.
    - intros Hin. apply Hflag. by apply (pending_in_flight st Hc). }
  destruct (initializingCharts st !! id) as [[|]|] eqn:Hflag; cbn; [done|..];
    by apply Hgo.
Qed.

Lemma spawnCharts_fst w configs st prs :
  (foldl (fun acc '(id, config) =>
            let '(st', pr) := spawnChart w id config acc.1 in
            (st', acc.2 ++ [pr])) (st, prs) configs).1
  = foldl (fun st '(id, config) => (spawnChart w id config st).1) st configs.
Proof.
  revert st prs. induction configs as [|[id config] tl IH]; intros st prs; [done|].
  cbn [foldl]. cbn [fst snd]. destruct (spawnChart w id config st) as [st' pr].
  apply IH.
Qed.

Lemma consistent_spawnCharts w configs st :
  consistent st → consistent (spawnCharts w configs st).1.
Proof.
  unfold spawnCharts. rewrite spawnCharts_fst. revert st.
  induction configs as [|[id config] tl IH]; intros st Hc; [done|].
  cbn [foldl]. apply IH. by apply consistent_spawnChart.
Qed.

Lemma merge_options_keeps config c :
  chart_canvas_id (merge_options config c) = chart_canvas_id c
  ∧ chart_destroyed (merge_options config c) = chart_destroyed c.
Proof. done. Qed.

(** The state [updateChartConfig] leaves, whether [update()] threw or
    not. *)
Lemma updateChartConfig_fst w id config st :
  (updateChartConfig w id config st).1
  = match chartInstances st !! id with
    | Some h => emit (chart_update h None)
                  (with_charts (alter (merge_options config) h) st)
    | None => st
    end.
Proof.
  unfold updateChartConfig, update.
  destruct (chartInstances st !! id) as [h|]; [|done].
  by destruct (updateThrows w _ h _ None).
Qed.

Lemma consistent_updateChartConfig w id config st :
  consistent st → consistent (updateChartConfig w id config st).1.
Proof.
  intros Hc. rewrite updateChartConfig_fst.
  destruct (chartInstances st !! id) as [h|]; [|done].
  eapply consistent_ext;
    [..|apply (consistent_alter_options (merge_options config) h st
                 (merge_options_keeps config) Hc)]; done.
Qed.

Lemma updateAllCharts_fst w configs st prs :
  (foldl (fun acc '(id, config) =>
            let '(st', pr) := updateChartConfig w id config acc.1 in
            (st', acc.2 ++ [pr])) (st, prs) configs).1
  = foldl (fun st '(id, config) => (updateChartConfig w id config st).1) st configs.
Proof.
  revert st prs. induction configs as [|[id config] tl IH]; intros st prs; [done|].
  cbn [foldl]. cbn [fst snd]. destruct (updateChartConfig w id config st) as [st' pr].
  apply IH.
Qed.

Lemma consistent_updateAllCharts w configs st :
  consistent st → consistent (updateAllCharts w configs st).1.
Proof.
  unfold updateAllCharts. rewrite updateAllCharts_fst. revert st.
  induction configs as [|[id config] tl IH]; intros st Hc; [done|].
  cbn [foldl]. apply IH. by apply consistent_updateChartConfig.
Qed.

(** One step of the walk of [forEach]. *)
Lemma updateEach_cons w mode k h tl s :
  updateEach w mode ((k, h) :: tl) s
  = if updateThrows w (now s) h (charts s !! h) mode
    then (emit (chart_update h mode) s, throws)
    else updateEach w mode tl (emit (chart_update h mode) s).
Proof.
  cbn [updateEach]. unfold update. by destruct (updateThrows w _ h _ mode).
Qed.

(** Redraw requests change nothing but the log, whether one throws or
    not. *)
Lemma update_all_frame w mode (l : list (string * nat)) s :
  let s' := (updateEach w mode l s).1 in
  chartInstances s' = chartInstances s
  ∧ initializingCharts s' = initializingCharts s
  ∧ charts s' = charts s
  ∧ timers s' = timers s
  ∧ cells s' = cells s
  ∧ fresh s' = fresh s
  ∧ now s' = now s.
Proof.
  revert s. induction l as [|[k h] tl IH]; intros s; [done|].
  cbv zeta in IH |- *. rewrite updateEach_cons.
  destruct (updateThrows w _ h _ mode); [done|].
  destruct (IH (emit (chart_update h mode) s)) as (->&->&->&->&->&->&->). done.
Qed.

Lemma resizeCharts_frame w st :
  chartInstances (resizeCharts w st).1 = chartInstances st
  ∧ initializingCharts (resizeCharts w st).1 = initializingCharts st
  ∧ charts (resizeCharts w st).1 = charts st
  ∧ timers (resizeCharts w st).1 = timers st
  ∧ cells (resizeCharts w st).1 = cells st
  ∧ fresh (resizeCharts w st).1 = fresh st
  ∧ now (resizeCharts w st).1 = now st.
Proof.
  unfold resizeCharts.
  apply (update_all_frame w (Some "resize") (entries (chartInstances st))
           (emit resizeCharts_called st)).
Qed.

Lemma consistent_resizeCharts w st :
  consistent st → consistent (resizeCharts w st).1.
Proof.
  intros Hc. destruct (resizeCharts_frame w st) as (?&?&?&?&_).
  by eapply consistent_ext.
Qed.

(** The loop of [dispose]: each registered chart is destroyed and its
    entry deleted. *)
Local Abbreviation disposeLoop :=
  (foldl (fun st '(id, chart) =>
            with_chartInstances (delete id) (destroy chart st))).

Lemma disposeLoop_frame (l : list (string * nat)) st :
  initializingCharts (disposeLoop st l) = initializingCharts st
  ∧ timers (disposeLoop st l) = timers st
  ∧ listeners (disposeLoop st l) = listeners st
  ∧ resizeHandler (disposeLoop st l) = resizeHandler st
  ∧ fresh (disposeLoop st l) = fresh st
  ∧ now (disposeLoop st l) = now st
  ∧ length (charts (disposeLoop st l)) = length (charts st).
Proof.
  revert st. induction l as [|[id h] tl IH]; intros st; [done|]. cbn [foldl].
  destruct (IH (with_chartInstances (delete id) (destroy h st)))
    as (->&->&->&->&->&->&->).
  cbn. by rewrite length_alter.
Qed.

Lemma disposeLoop_registry (l : list (string * nat)) st k :
  chartInstances (disposeLoop st l) !! k
  = if decide (k ∈ l.*1) then None else chartInstances st !! k.
Proof.
  revert st. induction l as [|[id h] tl IH]; intros st.
  - cbn. destruct (decide _) as [H|]; [by apply not_elem_of_nil in H|done].
  - cbn [foldl]. rewrite IH. cbn [fmap list_fmap fst].
    destruct (decide (k ∈ tl.*1)) as [Hin|Hnin].
    + rewrite decide_True; [done|]. by apply elem_of_cons; right.
    + cbn. destruct (decide (k = id)) as [->|Hne].
      * rewrite Map_lookup_delete_eq. rewrite decide_True; [done|]. apply elem_of_cons; by left.
      * rewrite Map_lookup_delete_ne by done. rewrite decide_False; [done|].
        intros [?|?]%elem_of_cons; done.
Qed.

Lemma disposeLoop_consistent (l : list (string * nat)) st :
  NoDup l.*1 →
  (∀ id h, (id, h) ∈ l → chartInstances st !! id = Some h) →
  consistent st → consistent (disposeLoop st l).
Proof.
  revert st. induction l as [|[id h] tl IH]; intros st Hnd Hreg Hc; [done|].
  cbn [foldl]. cbn [fmap list_fmap fst] in Hnd.
  apply NoDup_cons in Hnd as [Hid Hnd]. apply IH; [done|..].
  - intros id' h' Hin. cbn.
    rewrite Map_lookup_delete_ne; [apply Hreg; by apply elem_of_cons; right|].
    intros <-. apply Hid. apply list_elem_of_fmap. by exists (id, h').
  - apply consistent_teardown; [done|]. apply Hreg. apply elem_of_cons; by left.
Qed.

(** [dispose] empties the registry and leaves the timers and the
    in-flight flags as they are. *)
Lemma dispose_frame st :
  chartInstances (dispose st) = ∅
  ∧ initializingCharts (dispose st) = initializingCharts st
  ∧ timers (dispose st) = timers st
  ∧ fresh (dispose st) = fresh st
  ∧ now (dispose st) = now st.
Proof.
  unfold dispose.
  set (st0 := match resizeHandler st with
              | Some l => removeEventListener l st
              | None => st
              end).
  assert (H0 : chartInstances st0 = chartInstances st
               ∧ initializingCharts st0 = initializingCharts st
               ∧ timers st0 = timers st ∧ fresh st0 = fresh st ∧ now st0 = now st)
    by (subst st0; destruct (resizeHandler st); done).
  destruct H0 as (E1 & E2 & E3 & E4 & E5).
  destruct (disposeLoop_frame (entries (chartInstances st0)) st0)
    as (->&->&_&_&->&->&_).
  split; [|done]. apply Map_empty_lookup. intros k. rewrite disposeLoop_registry.
  destruct (decide _) as [Hin|Hnin]; [done|].
  destruct (chartInstances st0 !! k) as [h|] eqn:E; [|done].
  exfalso. apply Hnin. apply list_elem_of_fmap. exists (k, h). split; [done|].
  by apply Map_lookup_entry.
Qed.

Lemma consistent_dispose st : consistent st → consistent (dispose st).
Proof.
  intros Hc. unfold dispose.
  set (st0 := match resizeHandler st with
              | Some l => removeEventListener l st
              | None => st
              end).
  assert (Hc0 : consistent st0).
  { subst st0. destruct (resizeHandler st); [|done].
    eapply consistent_ext; [..|exact Hc]; done. }
  apply disposeLoop_consistent; [apply (registry_keys_distinct _ Hc0)| |done].
  intros id h Hin. apply Map_entry_lookup; [apply (registry_keys_distinct _ Hc0)|done].
Qed.

Lemma consistent_disposeChart id st :
  consistent st → consistent (disposeChart id st).
Proof.
  intros Hc. unfold disposeChart.
  destruct (chartInstances st !! id) as [h|] eqn:E; [|done].
  by apply consistent_teardown.
Qed.

Lemma consistent_setupResizeListener delay st :
  consistent st → consistent (setupResizeListener delay st).
Proof.
  intros Hc. unfold setupResizeListener, addEventListener.
  destruct (bool_decide _); eapply consistent_ext; [..|exact Hc| | | | |exact Hc]; done.
Qed.

(** The handler stored by [setupResizeListener] builds a new debounce
    closure at each call: it schedules one timer and cancels none. *)
Lemma resizeHandlerBody_timers delay st :
  timers (resizeHandlerBody delay st)
  = timers st
    ++ [ {| timer_id := S (fresh st); timer_due := now st + delay;
            timer_callback := debounce_cb call_resizeCharts (fresh st) |} ].
Proof.
  unfold resizeHandlerBody, debounce, callDebounced. cbn.
  rewrite lookup_insert_eq. reflexivity.
Qed.

Lemma consistent_resizeHandlerBody delay st :
  consistent st → consistent (resizeHandlerBody delay st).
Proof.
  intros Hc. unfold resizeHandlerBody, debounce, callDebounced. cbn.
  rewrite lookup_insert_eq.
  set (st1 := with_fresh (S (fresh st)) (with_cells <[fresh st:=None]> st)).
  assert (Hc1 : consistent st1) by (eapply consistent_ext; [..|exact Hc]; done).
  pose proof (consistent_setTimeout (debounce_cb call_resizeCharts (fresh st))
                delay st1 Hc1) as H.
  eapply consistent_ext; [..|apply H]; done.
Qed.

Lemma consistent_callListener w l st :
  consistent st → consistent (callListener w l st).
Proof.
  destruct l; cbn [callListener];
    [apply consistent_resizeHandlerBody|apply consistent_resizeCharts].
Qed.

Lemma consistent_dispatchResize w st :
  consistent st → consistent (dispatchResize w st).
Proof.
  unfold dispatchResize. generalize (listeners st). intros ls. revert st.
  induction ls as [|l tl IH]; intros st Hc; [done|].
  cbn [foldl]. apply IH. by apply consistent_callListener.
Qed.

(** The state the timer body of [debounce] leaves: that of [func], with
    the closure's [timeoutId] reset when [func] returned. *)
Lemma debounceFire_unfold w cell st :
  debounceFire w call_resizeCharts cell st
  = match (resizeCharts w st).2 with
    | returns => with_cells <[cell := None]> (resizeCharts w st).1
    | throws => (resizeCharts w st).1
    end.
Proof.
  unfold debounceFire. cbn [runThunk].
  by destruct (resizeCharts w st) as [s []].
Qed.

Lemma consistent_debounceFire w func cell st :
  consistent st → consistent (debounceFire w func cell st).
Proof.
  intros Hc. destruct func. rewrite debounceFire_unfold.
  destruct ((resizeCharts w st).2);
    [eapply consistent_ext; [..|apply (consistent_resizeCharts w st Hc)]; done
    |by apply consistent_resizeCharts].
Qed.

Lemma nextTimer_elem l tm : nextTimer l = Some tm → tm ∈ l.
Proof.
  revert tm. induction l as [|x l IH]; intros tm; [done|]. cbn [nextTimer].
  destruct (nextTimer l) as [tm'|].
  - destruct (timer_due tm' <? timer_due x); intros [= <-].
    + apply elem_of_cons; right. by apply IH.
    + apply elem_of_cons; by left.
  - intros [= <-]. apply elem_of_cons; by left.
Qed.

Lemma NoDup_omap_same {A B} (f : A → option B) (l : list A) x y b :
  NoDup (omap f l) → x ∈ l → y ∈ l → f x = Some b → f y = Some b → x = y.
Proof.
  induction l as [|z l IH]; intros Hnd Hx Hy Hfx Hfy.
  - by apply not_elem_of_nil in Hx.
  - cbn [omap list_omap] in Hnd.
    apply elem_of_cons in Hx as [->|Hx]; apply elem_of_cons in Hy as [->|Hy].
    + done.
    + rewrite Hfx in Hnd. apply NoDup_cons in Hnd as [Hb _].
      exfalso. apply Hb. apply list_elem_of_omap. eauto.
    + rewrite Hfy in Hnd. apply NoDup_cons in Hnd as [Hb _].
      exfalso. apply Hb. apply list_elem_of_omap. eauto.
    + apply IH; try done.
      destruct (f z); [by apply NoDup_cons in Hnd as [_ ?]|done].
Qed.

(** When a creation step leaves the timer list to run, no other step for
    its identifier is waiting. *)
Lemma fired_not_pending st tm id :
  consistent st → tm ∈ timers st →
  spawnId (timer_callback tm) = Some id →
  id ∉ pendingIds (clearTimeout (timer_id tm) st).
Proof.
  intros Hc Htm Hid. unfold pendingIds, clearTimeout. cbn.
  intros (tm' & Htm' & Hid')%list_elem_of_omap.
  apply list_elem_of_filter in Htm' as [Hne Htm'].
  apply Hne. f_equal.
  eapply (NoDup_omap_same (fun tm => spawnId (timer_callback tm)));
    [apply (pending_once st Hc)|done..].
Qed.

Lemma consistent_fireTimer w st : consistent st → consistent (fireTimer w st).
Proof.
  intros Hc. unfold fireTimer.
  destruct (nextTimer (timers st)) as [tm|] eqn:Hnext; [|done].
  apply nextTimer_elem in Hnext.
  set (st1 := with_now (now st `max` timer_due tm) (clearTimeout (timer_id tm) st)).
  assert (Hc1 : consistent st1).
  { eapply consistent_ext; [..|apply (consistent_clearTimeout (timer_id tm) st Hc)]; done. }
  destruct (timer_callback tm) as [id config p n|id ctx config p|func cell] eqn:Hcb;
    cbn [runCallback].
  - apply consistent_tryCreateChart; [done|..].
    + apply (pending_in_flight st Hc). unfold pendingIds.
      apply list_elem_of_omap. exists tm. by rewrite Hcb.
    + apply (fired_not_pending st tm id Hc Hnext). by rewrite Hcb.
  - apply consistent_constructChart; [done|..].
    + apply (construct_unregistered st Hc tm id Hnext). by rewrite Hcb.
    + apply (fired_not_pending st tm id Hc Hnext). by rewrite Hcb.
  - by apply consistent_debounceFire.
Qed.

Lemma consistent_idle ms st : consistent st → consistent (idle ms st).
Proof.
  intros Hc. unfold idle. destruct (nextTimer (timers st));
    eapply consistent_ext; [..|exact Hc| | | | |exact Hc]; done.
Qed.

Lemma consistent_step w st o : consistent st → consistent (step w st o).
Proof.
  intros Hc. destruct o; cbn [step].
  - by apply consistent_spawnCharts.
  - by apply consistent_updateChartConfig.
  - by apply consistent_updateAllCharts.
  - by apply consistent_resizeCharts.
  - by apply consistent_setupResizeListener.
  - by apply consistent_dispose.
  - by apply consistent_disposeChart.
  - by apply consistent_dispatchResize.
  - by apply consistent_fireTimer.
  - by apply consistent_idle.
Qed.

(** Every state a manager can reach is consistent. *)
Lemma consistent_exec w ops st : consistent st → consistent (exec w ops st).
Proof.
  unfold exec. revert st. induction ops as [|o ops IH]; intros st Hc; [done|].
  cbn [foldl]. apply IH. by apply consistent_step.
Qed.

(** ** One creation, run to its end *)

Lemma run_idle w fuel st : timers st = [] → run w fuel st = st.
Proof. intros H. destruct fuel; [done|]. cbn [run]. by rewrite H. Qed.

(** With a single timer pending, the loop runs its callback at the due
    time, on a state with no timer pending. *)
Lemma run_single w fuel st tm :
  timers st = [tm] →
  run w (S fuel) st
  = run w fuel
      (runCallback w (timer_callback tm)
         (with_now (now st `max` timer_due tm) (with_timers (fun _ => []) st))).
Proof.
  intros H. cbn [run]. rewrite H. unfold fireTimer. rewrite H. cbn [nextTimer].
  do 2 f_equal. unfold clearTimeout, with_timers. rewrite H.
  rewrite filter_cons, decide_False by (intros Hne; by apply Hne). done.
Qed.

Lemma SpawnOutcome_ext id st st' final :
  log st' = log st → chartInstances st' = chartInstances st →
  SpawnOutcome id st' final → SpawnOutcome id st final.
Proof.
  intros Hl Hr [t h H1 H2|t H1 H2|t H1 H2|t H1 H2];
    unfold teardownOf in *; rewrite ?Hl, ?Hr in *.
  - by eapply spawn_constructed.
  - by eapply spawn_construction_failed.
  - by eapply spawn_canvas_not_found.
  - by eapply spawn_context_unavailable.
Qed.

Lemma teardown_frame id st :
  let st1 := match chartInstances st !! id with
             | Some h => with_chartInstances (delete id) (destroy h st)
             | None => st
             end in
  now st1 = now st ∧ timers st1 = timers st ∧ fresh st1 = fresh st
  ∧ initializingCharts st1 = initializingCharts st
  ∧ chartInstances st1 = delete id (chartInstances st)
  ∧ log st1 = log st ++ ((fun e => (now st, e)) <$> teardownOf st id)
  ∧ length (charts st1) = length (charts st).
Proof.
  cbv zeta. unfold teardownOf.
  destruct (chartInstances st !! id) eqn:E; cbn.
  - by rewrite length_alter.
  - rewrite app_nil_r. repeat split; try done. symmetry. by apply Map_delete_id.
Qed.

(** The deferred construction, run at time [t] after a teardown in [st]. *)
Lemma constructChart_outcome w id ctx config p st t s :
  s = with_now t
        (with_timers (fun _ => [])
           (setTimeout (construct_cb id ctx config p) 0
              match chartInstances st !! id with
              | Some h => with_chartInstances (delete id) (destroy h st)
              | None => st
              end).2) →
  t = now st →
  let final := constructChart w id ctx config p s in
  timers final = []
  ∧ initializingCharts final !! id = None
  ∧ p ∈ resolved final
  ∧ SpawnOutcome id st final.
Proof.
  intros -> ->. cbv zeta.
  destruct (teardown_frame id st) as (Hnow & _ & _ & _ & Hreg & Hlog & _).
  cbv zeta in *. unfold constructChart, new_Chart. cbn.
  destruct (constructorThrows w (now st) id config); cbn.
  - split; [done|]. split; [apply lookup_delete_eq|]. split; [set_solver|].
    eapply (spawn_construction_failed _ _ _ (now st)); cbn.
    + rewrite Hlog. by rewrite <- app_assoc.
    + done.
  - split; [done|]. split; [apply lookup_delete_eq|]. split; [set_solver|].
    eapply (spawn_constructed _ _ _ (now st)); cbn.
    + rewrite Hlog. by rewrite <- app_assoc.
    + by rewrite Hreg.
Qed.

(** Once the surface is found, the next timer is the construction. *)
Lemma tryCreateChart_found_run w id config p n st canvas ctx fuel :
  timers st = [] →
  getElementById w (now st) id = Some canvas →
  getContext_2d canvas = Some ctx →
  let final := run w (S fuel) (tryCreateChart w id config p n st) in
  timers final = []
  ∧ initializingCharts final !! id = None
  ∧ p ∈ resolved final
  ∧ SpawnOutcome id st final.
Proof.
  intros Htm Hcanvas Hctx. cbv zeta. unfold tryCreateChart.
  rewrite Hcanvas, Hctx.
  destruct (teardown_frame id st) as (Hnow & Htm1 & Hfresh & _).
  cbv zeta in *.
  erewrite run_single; [|cbn; rewrite Htm1, Htm; reflexivity].
  cbn [timer_callback timer_due runCallback].
  match goal with |- context [constructChart w id ctx config p ?s] =>
    destruct (constructChart_outcome w id ctx config p st _ s eq_refl)
      as (H1 & H2 & H3 & H4)
  end.
  { cbn. rewrite Hnow. lia. }
  rewrite run_idle by exact H1. done.
Qed.

Lemma giveUp_outcome msg id p st :
  timers st = [] →
  let final := giveUp msg id p st in
  timers final = [] ∧ initializingCharts final !! id = None
  ∧ p ∈ resolved final
  ∧ log final = log st ++ [(now st, console_warn msg)]
  ∧ chartInstances final = chartInstances st.
Proof.
  intros H. cbn. split; [done|]. split; [apply lookup_delete_eq|].
  split; [set_solver|done].
Qed.

(** From any retry count up to 20, on an otherwise idle loop, the
    creation ends within [22 - n] timers, with the flag cleared and the
    promise resolved, in one of the four outcomes. *)
Lemma tryCreateChart_run w id config p k :
  ∀ n st, n + k = 20 → timers st = [] →
    let final := run w (S (S k)) (tryCreateChart w id config p n st) in
    timers final = []
    ∧ initializingCharts final !! id = None
    ∧ p ∈ resolved final
    ∧ SpawnOutcome id st final.
Proof.
  induction k as [|k IH]; intros n st Hn Htm; cbv zeta.
  - (* n = 20: both budgets are spent *)
    assert (n = 20) as -> by lia.
    destruct (getElementById w (now st) id) as [canvas|] eqn:Hcanvas.
    + destruct (getContext_2d canvas) as [ctx|] eqn:Hctx.
      * apply (tryCreateChart_found_run w id config p _ st canvas ctx); done.
      * unfold tryCreateChart. rewrite Hcanvas, Hctx. cbn [Nat.ltb Nat.leb].
        destruct (giveUp_outcome ("[ChartManager] Cannot acquire context: " +:+ id)
                    id p st Htm) as (H1 & H2 & H3 & H4 & H5).
        rewrite run_idle by exact H1. repeat split; try done.
        by eapply spawn_context_unavailable.
    + unfold tryCreateChart. rewrite Hcanvas. cbn [Nat.ltb Nat.leb].
      destruct (giveUp_outcome ("[ChartManager] Canvas not found after retries: " +:+ id)
                  id p st Htm) as (H1 & H2 & H3 & H4 & H5).
      rewrite run_idle by exact H1. repeat split; try done.
      by eapply spawn_canvas_not_found.
  - destruct (getElementById w (now st) id) as [canvas|] eqn:Hcanvas.
    + destruct (getContext_2d canvas) as [ctx|] eqn:Hctx.
      * apply (tryCreateChart_found_run w id config p _ st canvas ctx); done.
      * unfold tryCreateChart. rewrite Hcanvas, Hctx.
        assert ((n <? 20) = true) as -> by (apply Nat.ltb_lt; lia).
        erewrite run_single; [|cbn; by rewrite Htm].
        cbn [timer_callback timer_due runCallback].
        assert (Hnk : n + 1 + k = 20) by lia.
        match goal with |- context [tryCreateChart w id config p (n + 1) ?s] =>
          destruct (IH (n + 1) s Hnk eq_refl) as (H1 & H2 & H3 & H4)
        end.
        repeat split; try done. eapply SpawnOutcome_ext; [..|exact H4]; done.
    + unfold tryCreateChart. rewrite Hcanvas. destruct (n <? 10) eqn:Hlt.
      * erewrite run_single; [|cbn; by rewrite Htm].
        cbn [timer_callback timer_due runCallback].
        assert (Hnk : n + 1 + k = 20) by lia.
        match goal with |- context [tryCreateChart w id config p (n + 1) ?s] =>
          destruct (IH (n + 1) s Hnk eq_refl) as (H1 & H2 & H3 & H4)
        end.
        repeat split; try done. eapply SpawnOutcome_ext; [..|exact H4]; done.
      * destruct (giveUp_outcome ("[ChartManager] Canvas not found after retries: " +:+ id)
                    id p st Htm) as (H1 & H2 & H3 & H4 & H5).
        rewrite run_idle by exact H1. repeat split; try done.
        by eapply spawn_canvas_not_found.
Qed.

(** ** The claims about [spawnChart] *)





(** The surface is there and the engine constructs: the creation ends
    with the new chart registered, live, and last in the log. *)
Lemma tryCreateChart_found_success w id config p n st canvas ctx fuel :
  timers st = [] →
  getElementById w (now st) id = Some canvas →
  getContext_2d canvas = Some ctx →
  constructorThrows w (now st) id config = false →
  let final := run w (S fuel) (tryCreateChart w id config p n st) in
  let h := length (charts st) in
  timers final = []
  ∧ initializingCharts final !! id = None
  ∧ log final = log st ++ ((fun e => (now st, e)) <$> teardownOf st id)
                       ++ [(now st, chart_constructed id h)]
  ∧ chartInstances final = <[id := h]> (delete id (chartInstances st))
  ∧ liveFor final id h.
Proof.
  intros Htm Hcanvas Hctx Hok. cbv zeta. unfold tryCreateChart.
  rewrite Hcanvas, Hctx.
  destruct (teardown_frame id st) as (Hnow & Htm1 & Hfresh & _ & Hreg & Hlog & Hlen).
  cbv zeta in *.
  erewrite run_single; [|cbn; rewrite Htm1, Htm; reflexivity].
  cbn [timer_callback timer_due runCallback].
  match goal with |- context [constructChart w id ctx config p ?s] =>
    destruct (constructChart_outcome w id ctx config p st _ s eq_refl)
      as (H1 & _)
  end.
  { cbn. rewrite Hnow. lia. }
  rewrite run_idle by exact H1. clear H1.
  unfold constructChart, new_Chart. cbn. rewrite Hnow.
  replace (now st `max` (now st + 0)) with (now st) by lia.
  rewrite Hok. cbn. rewrite Hlen, Hlog, Hreg.
  split; [done|]. split; [apply lookup_delete_eq|].
  split; [by rewrite <- app_assoc|]. split; [done|].
  eexists. split.
  { cbn. rewrite <- Hlen. by apply list_lookup_middle. }
  done.
Qed.



(** One run of [tryCreateChart], in any state: either it hands the
    creation on to exactly one timer (a retry with the next count, below
    the budget of 20, or the deferred construction) and leaves the flag
    and the promise alone, or it ends the creation, clearing the flag and
    resolving the promise. *)
Lemma tryCreateChart_step w id config p n st :
  let st' := tryCreateChart w id config p n st in
  (∃ tm, timers st' = timers st ++ [tm]
         ∧ initializingCharts st' = initializingCharts st
         ∧ resolved st' = resolved st
         ∧ ((timer_callback tm = tryCreateChart_cb id config p (n + 1) ∧ n < 20)
            ∨ ∃ ctx, timer_callback tm = construct_cb id ctx config p))
  ∨ (timers st' = timers st
     ∧ initializingCharts st' = delete id (initializingCharts st)
     ∧ resolved st' = {[p]} ∪ resolved st).
Proof.
  cbv zeta. unfold tryCreateChart.
  destruct (getElementById w (now st) id) as [canvas|].
  - destruct (getContext_2d canvas) as [ctx|].
    + left. destruct (teardown_frame id st) as (_ & Htm & _ & Hflag & _).
      cbv zeta in *. eexists. cbn. rewrite Htm, Hflag.
      split; [done|]. split; [done|]. split; [|right; by exists ctx].
      by destruct (chartInstances st !! id).
    + destruct (n <? 20) eqn:Hlt.
      * left. eexists. cbn. do 3 (split; [done|]). left.
        split; [done|]. by apply Nat.ltb_lt.
      * by right.
  - destruct (n <? 10) eqn:Hlt.
    + left. eexists. cbn. do 3 (split; [done|]). left.
      split; [done|]. apply Nat.ltb_lt in Hlt. lia.
    + by right.
Qed.

(** The deferred block ends the creation whether or not the constructor
    throws. *)
Lemma constructChart_finishes w id ctx config p st :
  let st' := constructChart w id ctx config p st in
  timers st' = timers st
  ∧ initializingCharts st' = delete id (initializingCharts st)
  ∧ resolved st' = {[p]} ∪ resolved st.
Proof.
  cbv zeta. unfold constructChart, new_Chart.
  by destruct (constructorThrows w (now st) id config).
Qed.

(** C7.  In any state, a run of [tryCreateChart] either hands the
    creation on to exactly one timer (a retry below the budget of 20, or
    the deferred construction) or ends it with the in-flight flag deleted
    and the promise resolved, and the deferred construction always ends it
    so, whether the constructor throws or not.  On an otherwise idle loop,
    a call of [spawnChart] run to the end (at most 22 timers) leaves no
    timer pending and its promise resolved; when the call was not
    skipped, the flag of the identifier is cleared and the creation has
    ended in one of four ways: constructed, construction failed (logged),
    canvas not found, context unavailable.  No path of the creation
    throws in the model. *)
Theorem spawnChart_always_settles
    (w : World) (id : string) (config : ChartConfiguration) (st : State) :
  (∀ p n s,
     let s' := tryCreateChart w id config p n s in
     (∃ tm, timers s' = timers s ++ [tm]
            ∧ initializingCharts s' = initializingCharts s
            ∧ resolved s' = resolved s
            ∧ ((timer_callback tm = tryCreateChart_cb id config p (n + 1) ∧ n < 20)
               ∨ ∃ ctx, timer_callback tm = construct_cb id ctx config p))
     ∨ (timers s' = timers s
        ∧ initializingCharts s' !! id = None
        ∧ p ∈ resolved s'))
  ∧ (∀ p ctx s,
       let s' := constructChart w id ctx config p s in
       timers s' = timers s ∧ initializingCharts s' !! id = None ∧ p ∈ resolved s')
  ∧ (timers st = [] →
     let final := run w 22 (spawnChart w id config st).1 in
     timers final = []
     ∧ isResolved final (spawnChart w id config st).2 = true
     ∧ (initializingCharts st !! id ≠ Some true →
        initializingCharts final !! id = None ∧ SpawnOutcome id st final)).
Proof.
  split; [|split].
  - intros p n s. cbv zeta.
    destruct (tryCreateChart_step w id config p n s) as [H|(H1 & H2 & H3)];
      [by left|right].
    rewrite H2, H3. split; [done|]. split; [apply lookup_delete_eq|].
    apply elem_of_union; left. by apply elem_of_singleton.
  - intros p ctx s. cbv zeta.
    destruct (constructChart_finishes w id ctx config p s) as (H1 & H2 & H3).
    rewrite H2, H3. split; [done|]. split; [apply lookup_delete_eq|].
    apply elem_of_union; left. by apply elem_of_singleton.
  - intros Htm. cbv zeta. unfold spawnChart.
    set (st0 := with_fresh (S (fresh st)) (with_initializingCharts <[id:=true]> st)).
    destruct (tryCreateChart_run w id config (fresh st) 20 0 st0 eq_refl Htm)
      as (H1 & H2 & H3 & H4).
    apply (SpawnOutcome_ext id st st0) in H4; [|done..].
    destruct (initializingCharts st !! id) as [[|]|] eqn:Hflag; cbn [fst snd].
    + rewrite run_idle by done. done.
    + split; [done|]. split; [|done]. cbn. by apply bool_decide_eq_true_2.
    + split; [done|]. split; [|done]. cbn. by apply bool_decide_eq_true_2.
Qed.

(** The creation of the gauge on the page settles. *)
Lemma spawnChart_always_settles_witness :
  timers (run pageWorld 22 (spawnChart pageWorld "powerGauge" someConfig initial).1) = []
  ∧ isResolved
      (run pageWorld 22 (spawnChart pageWorld "powerGauge" someConfig initial).1)
      (spawnChart pageWorld "powerGauge" someConfig initial).2 = true
  ∧ initializingCharts
      (run pageWorld 22 (spawnChart pageWorld "powerGauge" someConfig initial).1)
      !! "powerGauge" = None
  ∧ SpawnOutcome "powerGauge" initial
      (run pageWorld 22 (spawnChart pageWorld "powerGauge" someConfig initial).1).
Proof.
  destruct (spawnChart_always_settles pageWorld "powerGauge" someConfig initial)
    as (_ & _ & H).
  destruct (H eq_refl) as (H1 & H2 & H3).
  destruct H3 as [H3 H4]; [done|]. done.
Defined.

(** At most one live chart per identifier, in a consistent state. *)
Lemma consistent_one_live st id h1 h2 :
  consistent st → liveFor st id h1 → liveFor st id h2 → h1 = h2.
Proof.
  intros Hc (c1 & Hc1 & Hid1 & Hl1) (c2 & Hc2 & Hid2 & Hl2).
  pose proof (live_registered st Hc h1 c1 Hc1 Hl1) as H1.
  pose proof (live_registered st Hc h2 c2 Hc2 Hl2) as H2.
  rewrite Hid1 in H1. rewrite Hid2 in H2. rewrite H1 in H2. by injection H2.
Qed.

(** C6.  When [tryCreateChart] finds the surface and a chart [h] is
    registered for the identifier, that run calls [h.destroy()],
    deregisters it, constructs nothing and leaves the construction to a
    timer of delay 0; on an otherwise idle loop the next timer then
    constructs the new chart, so the log shows the destroy before the
    construction; and in every state the manager reaches from its initial
    state, at most one live chart exists per identifier. *)
Theorem teardown_precedes_construction (w : World) :
  (∀ id config p n st canvas ctx h,
     getElementById w (now st) id = Some canvas →
     getContext_2d canvas = Some ctx →
     chartInstances st !! id = Some h →
     let st' := tryCreateChart w id config p n st in
     log st' = log st ++ [(now st, chart_destroy h)]
     ∧ chartInstances st' !! id = None
     ∧ charts st' = alter mark_destroyed h (charts st)
     ∧ timers st'
       = timers st ++ [ {| timer_id := fresh st; timer_due := now st + 0;
                           timer_callback := construct_cb id ctx config p |} ]
     ∧ (timers st = [] → constructorThrows w (now st) id config = false →
        log (run w 1 st')
        = log st ++ [ (now st, chart_destroy h);
                      (now st, chart_constructed id (length (charts st))) ]))
  ∧ (∀ ops id h1 h2,
       liveFor (exec w ops initial) id h1 →
       liveFor (exec w ops initial) id h2 → h1 = h2).
Proof.
  split.
  - intros id config p n st canvas ctx h Hcanvas Hctx Hreg. cbv zeta.
    split; [|split; [|split; [|split]]].
    + unfold tryCreateChart. rewrite Hcanvas, Hctx, Hreg. done.
    + unfold tryCreateChart. rewrite Hcanvas, Hctx, Hreg. cbn.
      apply Map_lookup_delete_eq.
    + unfold tryCreateChart. rewrite Hcanvas, Hctx, Hreg. done.
    + unfold tryCreateChart. rewrite Hcanvas, Hctx, Hreg. done.
    + intros Htm Hok.
      destruct (tryCreateChart_found_success w id config p n st canvas ctx 0
                  Htm Hcanvas Hctx Hok) as (_ & _ & Hlog & _).
      cbv zeta in Hlog. rewrite Hlog. unfold teardownOf. by rewrite Hreg.
  - intros ops id h1 h2. apply consistent_one_live.
    apply consistent_exec, consistent_initial.
Qed.

(** The gauge is respawned on the page while its first chart is
    registered: chart 0 is destroyed, then chart 1 constructed; and after
    a creation run through the manager's operations, chart 0 is the one
    live chart of the canvas. *)
Lemma teardown_precedes_construction_witness :
  chartInstances
    (run pageWorld 22 (spawnChart pageWorld "powerGauge" someConfig initial).1)
    !! "powerGauge" = Some 0
  ∧ log (run pageWorld 1
           (tryCreateChart pageWorld "powerGauge" someConfig 7 0
              (run pageWorld 22
                 (spawnChart pageWorld "powerGauge" someConfig initial).1)))
    = [ (0, chart_constructed "powerGauge" 0); (0, chart_destroy 0);
        (0, chart_constructed "powerGauge" 1) ]
  ∧ liveFor (exec pageWorld [op_spawnCharts [("powerGauge", someConfig)]; op_timer]
               initial) "powerGauge" 0
  ∧ ∀ h, liveFor (exec pageWorld
                    [op_spawnCharts [("powerGauge", someConfig)]; op_timer] initial)
           "powerGauge" h → h = 0.
Proof.
  set (st := run pageWorld 22
               (spawnChart pageWorld "powerGauge" someConfig initial).1).
  assert (Hreg : chartInstances st !! "powerGauge" = Some 0) by (vm_compute; done).
  destruct (teardown_precedes_construction pageWorld) as [Hstep Hone].
  split; [exact Hreg|]. split.
  - destruct (Hstep "powerGauge" someConfig 7 0 st {| getContext_2d := Some 1 |} 1 0
                eq_refl eq_refl Hreg) as (_ & _ & _ & _ & Hlog).
    rewrite Hlog by (vm_compute; done). vm_compute. done.
  - assert (Hlive : liveFor (exec pageWorld
                      [op_spawnCharts [("powerGauge", someConfig)]; op_timer] initial)
                      "powerGauge" 0).
    { eexists. split; [vm_compute; reflexivity|done]. }
    split; [exact Hlive|]. intros h Hh.
    exact (Hone _ "powerGauge" h 0 Hh Hlive).
Defined.

(** C8.  [updateChartConfig] for an identifier with no registered chart
    changes nothing at all (no chart is created, none is touched) and
    returns a resolved promise: it does not throw; for a registered chart
    [h], the supplied options are merged into the chart's options with the
    supplied keys winning, the data is replaced when supplied and kept
    otherwise, one redraw is requested on [h], and the registry and the
    other charts stay as they are; the promise returned is resolved when
    that [update()] returns and rejected when it throws. *)
Theorem updateChartConfig_spec
    (w : World) (id : string) (config : ChartConfiguration) (st : State) :
  (chartInstances st !! id = None →
   updateChartConfig w id config st = (st, resolved_promise))
  ∧ (∀ h c,
       chartInstances st !! id = Some h → charts st !! h = Some c →
       let st' := (updateChartConfig w id config st).1 in
       let supplied := default ∅ (config_options config) in
       (∃ c', charts st' !! h = Some c'
                ∧ chart_options c' = supplied ∪ chart_options c
                ∧ (∀ k v, supplied !! k = Some v → chart_options c' !! k = Some v)
                ∧ (∀ k, supplied !! k = None →
                        chart_options c' !! k = chart_options c !! k)
                ∧ chart_data c' = match config_data config with
                                  | Some d => Some d
                                  | None => chart_data c
                                  end
                ∧ chart_destroyed c' = chart_destroyed c
                ∧ (updateChartConfig w id config st).2
                  = if updateThrows w (now st) h (Some c') None
                    then rejected_promise else resolved_promise)
       ∧ log st' = log st ++ [(now st, chart_update h None)]
       ∧ chartInstances st' = chartInstances st
       ∧ length (charts st') = length (charts st)
       ∧ ∀ h', h' ≠ h → charts st' !! h' = charts st !! h').
Proof.
  split.
  - intros Hreg. unfold updateChartConfig. by rewrite Hreg.
  - intros h c Hreg Hc. cbv zeta. rewrite updateChartConfig_fst, Hreg.
    split; [|split; [done|split; [done|split]]].
    + exists (merge_options config c). cbn. rewrite list_lookup_alter_eq, Hc.
      split; [done|]. split; [done|]. split; [|split; [|split; [done|split; [done|]]]].
      * intros k v Hk. cbn. by apply lookup_union_Some_l.
      * intros k Hk. cbn. by apply lookup_union_r.
      * unfold updateChartConfig, update. rewrite Hreg. cbn.
        rewrite list_lookup_alter_eq, Hc. cbn.
        by destruct (updateThrows w (now st) h _ None).
    + cbn. apply length_alter.
    + intros h' Hne. cbn. by apply list_lookup_alter_ne.
Qed.

(** On the page, after the gauge was created: an update with a new
    option and no data; the promise is resolved, and rejected with an
    engine whose [update()] throws. *)
Lemma updateChartConfig_spec_witness :
  let st := run pageWorld 22
              (spawnChart pageWorld "powerGauge" someConfig initial).1 in
  let config := {| config_type := "doughnut"; config_data := None;
                   config_options := Some (<["responsive" := "false"]> ∅) |} in
  updateChartConfig pageWorld "nowhere" config st = (st, resolved_promise)
  ∧ log (updateChartConfig pageWorld "powerGauge" config st).1
    = log st ++ [(0, chart_update 0 None)]
  ∧ (updateChartConfig pageWorld "powerGauge" config st).2 = resolved_promise
  ∧ (updateChartConfig failingUpdateWorld "powerGauge" config st).2
    = rejected_promise.
Proof.
  cbv zeta.
  set (st := run pageWorld 22
               (spawnChart pageWorld "powerGauge" someConfig initial).1).
  set (config := {| config_type := "doughnut"; config_data := None;
                    config_options := Some (<["responsive" := "false"]> ∅) |}).
  assert (Hreg : chartInstances st !! "powerGauge" = Some 0) by (by vm_compute).
  assert (Hc : ∃ c, charts st !! 0 = Some c) by (vm_compute; eauto).
  destruct Hc as [c Hc].
  split; [|split; [|split]].
  - apply (updateChartConfig_spec pageWorld "nowhere" config st). vm_compute. done.
  - destruct (updateChartConfig_spec pageWorld "powerGauge" config st) as [_ H].
    destruct (H 0 c Hreg Hc) as (_ & Hlog & _). exact Hlog.
  - destruct (updateChartConfig_spec pageWorld "powerGauge" config st) as [_ H].
    destruct (H 0 c Hreg Hc) as ((c' & _ & _ & _ & _ & _ & _ & Hpr) & _).
    exact Hpr.
  - destruct (updateChartConfig_spec failingUpdateWorld "powerGauge" config st)
      as [_ H].
    destruct (H 0 c Hreg Hc) as ((c' & _ & _ & _ & _ & _ & _ & Hpr) & _).
    exact Hpr.
Defined.

(** C9, as amended.  [dispose] empties the registry but neither cancels a
    pending creation retry nor clears the in-flight flag; when the
    orphaned retry then fires with the surface available and the engine
    constructing, it schedules the construction, which constructs a chart,
    registers it in the disposed manager and clears the flag. *)
Theorem orphaned_retry_still_creates
    (w : World) (st : State) (tm : Timer) (id : string)
    (config : ChartConfiguration) (p n : nat) (canvas : Canvas) (ctx : nat) :
  timers st = [tm] →
  timer_callback tm = tryCreateChart_cb id config p n →
  let t := now st `max` timer_due tm in
  getElementById w t id = Some canvas →
  getContext_2d canvas = Some ctx →
  constructorThrows w t id config = false →
  let disposed := dispose st in
  let final := run w 2 disposed in
  let h := length (charts st) in
  chartInstances disposed = ∅
  ∧ timers disposed = [tm]
  ∧ initializingCharts disposed = initializingCharts st
  ∧ timers final = []
  ∧ chartInstances final = <[id := h]> ∅
  ∧ liveFor final id h
  ∧ log final = log disposed ++ [(t, chart_constructed id h)]
  ∧ initializingCharts final !! id = None.
Proof.
  intros Htm Hcb. cbv zeta. intros Hcanvas Hctx Hok.
  destruct (dispose_frame st) as (Hreg & Hflags & Htms & Hfresh & Hnow).
  split; [done|]. split; [by rewrite Htms|]. split; [done|].
  erewrite run_single by (by rewrite Htms).
  rewrite Hcb. cbn [runCallback]. rewrite Hnow.
  set (s := with_now (now st `max` timer_due tm)
              (with_timers (fun _ => []) (dispose st))).
  destruct (tryCreateChart_found_success w id config p n s canvas ctx 0
              eq_refl Hcanvas Hctx Hok) as (H1 & H2 & H3 & H4 & H5).
  cbv zeta in *.
  assert (Hlen : length (charts s) = length (charts st)).
  { subst s. cbn. unfold dispose.
    destruct (resizeHandler st);
      match goal with |- context [foldl ?f ?a ?l] =>
        destruct (disposeLoop_frame l a) as (_&_&_&_&_&_&->) end; done. }
  rewrite Hlen in *. split; [done|]. split; [by rewrite H4; subst s; cbn; rewrite Hreg|].
  split; [done|]. split; [|done].
  rewrite H3. unfold teardownOf. subst s. cbn. rewrite Hreg, Map_lookup_empty. done.
Qed.

(** The canvas enters the document at 50 ms; the manager is disposed
    right after the creation was started; the retry of 50 ms still
    creates chart 0. *)
Lemma orphaned_retry_witness :
  let st := (spawnChart lateCanvasWorld "powerGauge" someConfig initial).1 in
  let final := run lateCanvasWorld 2 (dispose st) in
  chartInstances (dispose st) = ∅
  ∧ chartInstances final = <["powerGauge" := 0]> ∅
  ∧ log final = log (dispose st) ++ [(50, chart_constructed "powerGauge" 0)].
Proof.
  cbv zeta.
  set (st := (spawnChart lateCanvasWorld "powerGauge" someConfig initial).1).
  destruct (orphaned_retry_still_creates lateCanvasWorld st
              {| timer_id := 1; timer_due := 50;
                 timer_callback := tryCreateChart_cb "powerGauge" someConfig 0 1 |}
              "powerGauge" someConfig 0 1 {| getContext_2d := Some 1 |} 1
              eq_refl eq_refl eq_refl eq_refl eq_refl)
    as (H1 & _ & _ & _ & H5 & _ & H7 & _).
  split; [exact H1|]. split; [exact H5|exact H7].
Defined.

(** C9, the claim as stated fails: with the canvas entering the document
    at 50 ms, a creation is started and the manager disposed; the
    registry is empty and one retry is pending; when the retry and the
    timer it schedules have fired, a chart has been constructed and
    registered. *)
Lemma orphaned_retry_is_not_a_noop :
  let st := dispose (spawnChart lateCanvasWorld "powerGauge" someConfig initial).1 in
  chartInstances st = ∅
  ∧ length (timers st) = 1
  ∧ constructedFor "powerGauge" (log st) = []
  ∧ constructedFor "powerGauge" (log (fireTimer lateCanvasWorld (fireTimer lateCanvasWorld st))) = [0]
  ∧ chartInstances (fireTimer lateCanvasWorld (fireTimer lateCanvasWorld st))
      !! "powerGauge" = Some 0.
Proof. vm_compute. done. Qed.

(** C1, evaluated.  The handler installed by [setupResizeListener] builds
    a fresh debounce closure at every event, so each event schedules a
    timer of its own and cancels none; five events 20 ms apart after
    [setupResizeListener(200)] lead to five [resizeCharts] calls, at 200,
    220, 240, 260 and 280 ms, the first of them 120 ms after the last
    event (at 80 ms). *)
Theorem resize_burst_is_not_debounced :
  (∀ delay st,
     timers (resizeHandlerBody delay st)
     = timers st
       ++ [ {| timer_id := S (fresh st); timer_due := now st + delay;
               timer_callback := debounce_cb call_resizeCharts (fresh st) |} ])
  ∧ now (exec pageWorld resizeBurst initial) = 80
  ∧ resizeCalls (log (run pageWorld 10 (exec pageWorld resizeBurst initial)))
    = [200; 220; 240; 260; 280].
Proof.
  split; [apply resizeHandlerBody_timers|]. vm_compute. done.
Qed.

(** The four ways a creation ends, each on a page of its own. *)
Example outcome_constructed :
  log (run pageWorld 22 (spawnChart pageWorld "powerGauge" someConfig initial).1)
  = [(0, chart_constructed "powerGauge" 0)].
Proof. vm_compute. reflexivity. Qed.

Example outcome_canvas_not_found :
  log (run emptyWorld 22 (spawnChart emptyWorld "powerGauge" someConfig initial).1)
  = [(500, console_warn "[ChartManager] Canvas not found after retries: powerGauge")].
Proof. vm_compute. reflexivity. Qed.

Example outcome_context_unavailable :
  log (run noContextWorld 22 (spawnChart noContextWorld "powerGauge" someConfig initial).1)
  = [(2000, console_warn "[ChartManager] Cannot acquire context: powerGauge")].
Proof. vm_compute. reflexivity. Qed.

Example outcome_construction_failed :
  log (run throwingWorld 22 (spawnChart throwingWorld "powerGauge" someConfig initial).1)
  = [(0, console_error "[ChartManager] Failed to create chart (powerGauge):")].
Proof. vm_compute. reflexivity. Qed.

End ManagerFacts.

(* ===================================================================== *)
(** * Properties of the component script *)
(* ===================================================================== *)

Module ComponentFacts.
Import JsMap JsMapFacts Manager Component Notions.

(** The label of the gauge at value 1.4. *)
Example gaugeText_two_decimals : gaugeText (setup 1.4) = Some "PUE = 1.40".
Proof. vm_compute. reflexivity. Qed.

(** A creation started on an empty registry registers nothing before a
    timer has fired. *)
Lemma spawnChart_registers_later w id config st :
  chartInstances st = ∅ → chartInstances (spawnChart w id config st).1 = ∅.
Proof.
  intros Hreg. unfold spawnChart.
  destruct (initializingCharts st !! id) as [[|]|]; cbn [fst]; [done|..];
    unfold tryCreateChart; cbn; rewrite Hreg, Map_lookup_empty;
    (destruct (getElementById w (now st) id) as [canvas|];
     [destruct (getContext_2d canvas)|]); cbn; try done;
    by repeat (destruct (_ <? _); cbn).
Qed.

(** [initChart] reads the registry right after starting the creation:
    it always finds no chart. *)
Lemma initChart_finds_no_chart w c : chartInstance (initChart w c) = None.
Proof.
  unfold initChart, getChart. cbn [chartInstance].
  unfold spawnCharts. rewrite ManagerFacts.spawnCharts_fst. cbn [foldl].
  rewrite spawnChart_registers_later; [apply Map_lookup_empty|].
  by destruct (ManagerFacts.dispose_frame (chartManager c)) as [-> _].
Qed.

(** C4, evaluated.  [initChart] stores [getChart("powerGauge")] while the
    creation it just started has not constructed anything yet, so
    [chartInstance] is [null] after mounting, on any page; it is never
    assigned again.  On the page with its canvas, after the loop has run,
    the chart exists and is registered, and a change of [value] from 1.4
    to 1.6 still requests no redraw: the watcher returns at
    [if (!chartInstance) return]. *)
Theorem value_change_requests_no_redraw :
  (∀ w c, chartInstance (onMounted w c) = None)
  ∧ (∀ w fuel c, chartInstance (runLoop w fuel c) = chartInstance c)
  ∧ getChart canvasId
      (chartManager (runLoop pageWorld 10 (onMounted pageWorld (setup 1.4))))
    = Some 0
  ∧ chartInstance (runLoop pageWorld 10 (onMounted pageWorld (setup 1.4))) = None
  ∧ log (chartManager
           (setValue pageWorld 1.6 (runLoop pageWorld 10 (onMounted pageWorld (setup 1.4)))))
    = [(0, chart_constructed "powerGauge" 0)]
  ∧ updateRequests
      (log (chartManager
              (setValue pageWorld 1.6 (runLoop pageWorld 10 (onMounted pageWorld (setup 1.4))))))
    = [].
Proof.
  split; [|split; [done|]].
  - intros w c. unfold onMounted. cbn [chartInstance with_chartManager].
    apply initChart_finds_no_chart.
  - vm_compute. done.
Qed.

End ComponentFacts.

(* ===================================================================== *)
(** * Further properties of the manager's lifecycle *)
(* ===================================================================== *)

Module LifecycleFacts.
Import JsMap JsMapFacts Manager Component Notions Lifecycle.

(** ** The registry holds live charts only *)

Lemma registryLive_ext st st' :
  chartInstances st' = chartInstances st → charts st' = charts st →
  registryLive st → registryLive st'.
Proof.
  intros H1 H2 Hr id h. rewrite H1. intros Hreg.
  destruct (Hr id h Hreg) as (c & Hc & Hid & Hl). exists c. by rewrite H2.
Qed.

Lemma registryLive_initial : registryLive initial.
Proof. intros id h H. cbn in H. by rewrite Map_lookup_empty in H. Qed.

Lemma registryLive_teardown id h st :
  registryLive st → chartInstances st !! id = Some h →
  registryLive (with_chartInstances (delete id) (destroy h st)).
Proof.
  intros Hr Hreg id' h'. cbn. intros Hreg'.
  apply Map_lookup_delete_Some in Hreg' as [Hne Hreg'].
  destruct (Hr id h Hreg) as (c & Hc & Hid & Hl).
  destruct (Hr id' h' Hreg') as (c' & Hc' & Hid' & Hl').
  exists c'. cbn. split; [|done].
  rewrite list_lookup_alter_ne; [done|]. intros ->.
  rewrite Hc in Hc'. injection Hc' as ->. congruence.
Qed.

Lemma registryLive_register w id ctx config st h st' :
  registryLive st → new_Chart w id ctx config st = (Some h, st') →
  registryLive (with_chartInstances <[id := h]> st').
Proof.
  intros Hr. unfold new_Chart.
  destruct (constructorThrows _ _ _ _); [done|]. intros [= <- <-].
  intros id' h'. cbn. intros Hreg'.
  apply Map_lookup_insert_Some in Hreg' as [[<- <-]|[Hne Hreg']].
  - eexists. cbn. split; [by apply list_lookup_middle|done].
  - destruct (Hr id' h' Hreg') as (c' & Hc' & Hid' & Hl').
    exists c'. cbn. split; [by apply lookup_app_l_Some|done].
Qed.

Lemma registryLive_alter_options f h st :
  (∀ c, chart_canvas_id (f c) = chart_canvas_id c
        ∧ chart_destroyed (f c) = chart_destroyed c) →
  registryLive st → registryLive (with_charts (alter f h) st).
Proof.
  intros Hf Hr id' h'. cbn. intros Hreg'.
  destruct (Hr id' h' Hreg') as (c' & Hc' & Hid' & Hl').
  destruct (decide (h = h')) as [->|Hne].
  - exists (f c'). cbn. rewrite list_lookup_alter_eq, Hc'.
    destruct (Hf c') as [-> ->]. done.
  - exists c'. cbn. by rewrite list_lookup_alter_ne.
Qed.

Lemma registryLive_tryCreateChart w id config p n st :
  registryLive st → registryLive (tryCreateChart w id config p n st).
Proof.
  intros Hr. unfold tryCreateChart, giveUp.
  destruct (getElementById w (now st) id) as [canvas|].
  - destruct (getContext_2d canvas) as [ctx|].
    + destruct (chartInstances st !! id) as [h|] eqn:Hreg.
      * eapply registryLive_ext;
          [..|apply (registryLive_teardown id h st Hr Hreg)]; done.
      * eapply registryLive_ext; [..|exact Hr]; done.
    + destruct (n <? 20); eapply registryLive_ext; [..|exact Hr| | |exact Hr]; done.
  - destruct (n <? 10); eapply registryLive_ext; [..|exact Hr| | |exact Hr]; done.
Qed.

Lemma registryLive_constructChart w id ctx config p st :
  registryLive st → registryLive (constructChart w id ctx config p st).
Proof.
  intros Hr. unfold constructChart.
  destruct (new_Chart w id ctx config st) as [[h|] st'] eqn:Hnew.
  - eapply registryLive_ext;
      [..|apply (registryLive_register w id ctx config st h st' Hr Hnew)]; done.
  - assert (st' = st) as ->.
    { unfold new_Chart in Hnew. destruct (constructorThrows _ _ _ _); [|done].
      by injection Hnew. }
    eapply registryLive_ext; [..|exact Hr]; done.
Qed.

Lemma registryLive_spawnChart w id config st :
  registryLive st → registryLive (spawnChart w id config st).1.
Proof.
  intros Hr. unfold spawnChart.
  destruct (initializingCharts st !! id) as [[|]|]; cbn [fst]; [done|..];
    apply registryLive_tryCreateChart; eapply registryLive_ext; [..|exact Hr| | |exact Hr]; done.
Qed.

Lemma registryLive_spawnCharts w configs st :
  registryLive st → registryLive (spawnCharts w configs st).1.
Proof.
  unfold spawnCharts. rewrite ManagerFacts.spawnCharts_fst. revert st.
  induction configs as [|[id config] tl IH]; intros st Hr; [done|].
  cbn [foldl]. apply IH. by apply registryLive_spawnChart.
Qed.

Lemma registryLive_updateChartConfig w id config st :
  registryLive st → registryLive (updateChartConfig w id config st).1.
Proof.
  intros Hr. rewrite ManagerFacts.updateChartConfig_fst.
  destruct (chartInstances st !! id) as [h|]; [|done].
  eapply registryLive_ext;
    [..|apply (registryLive_alter_options (merge_options config) h st
                 (ManagerFacts.merge_options_keeps config) Hr)]; done.
Qed.

Lemma registryLive_updateAllCharts w configs st :
  registryLive st → registryLive (updateAllCharts w configs st).1.
Proof.
  unfold updateAllCharts. rewrite ManagerFacts.updateAllCharts_fst. revert st.
  induction configs as [|[id config] tl IH]; intros st Hr; [done|].
  cbn [foldl]. apply IH. by apply registryLive_updateChartConfig.
Qed.

Lemma registryLive_resizeCharts w st :
  registryLive st → registryLive (resizeCharts w st).1.
Proof.
  intros Hr. destruct (ManagerFacts.resizeCharts_frame w st) as (?&_&?&_).
  by eapply registryLive_ext.
Qed.

Lemma registryLive_dispose st : registryLive st → registryLive (dispose st).
Proof.
  intros _ id h. destruct (ManagerFacts.dispose_frame st) as [-> _].
  by rewrite Map_lookup_empty.
Qed.

Lemma registryLive_disposeChart id st :
  registryLive st → registryLive (disposeChart id st).
Proof.
  intros Hr. unfold disposeChart.
  destruct (chartInstances st !! id) as [h|] eqn:E; [|done].
  by apply registryLive_teardown.
Qed.

Lemma registryLive_callListener w l st :
  registryLive st → registryLive (callListener w l st).
Proof.
  intros Hr. destruct l; cbn [callListener]; [|by apply registryLive_resizeCharts].
  unfold resizeHandlerBody, debounce, callDebounced. cbn.
  rewrite lookup_insert_eq. eapply registryLive_ext; [..|exact Hr]; done.
Qed.

Lemma registryLive_dispatchResize w st :
  registryLive st → registryLive (dispatchResize w st).
Proof.
  unfold dispatchResize. generalize (listeners st). intros ls. revert st.
  induction ls as [|l tl IH]; intros st Hr; [done|].
  cbn [foldl]. apply IH. by apply registryLive_callListener.
Qed.

Lemma registryLive_fireTimer w st : registryLive st → registryLive (fireTimer w st).
Proof.
  intros Hr. unfold fireTimer.
  destruct (nextTimer (timers st)) as [tm|]; [|done].
  set (st1 := with_now _ _).
  assert (Hr1 : registryLive st1) by (eapply registryLive_ext; [..|exact Hr]; done).
  destruct (timer_callback tm) as [id config p n|id ctx config p|func cell];
    cbn [runCallback].
  - by apply registryLive_tryCreateChart.
  - by apply registryLive_constructChart.
  - destruct func. rewrite ManagerFacts.debounceFire_unfold.
    destruct ((resizeCharts w st1).2);
      [eapply registryLive_ext; [..|apply (registryLive_resizeCharts w st1 Hr1)]; done
      |by apply registryLive_resizeCharts].
Qed.

Lemma registryLive_step w st o : registryLive st → registryLive (step w st o).
Proof.
  intros Hr. destruct o; cbn [step].
  - by apply registryLive_spawnCharts.
  - by apply registryLive_updateChartConfig.
  - by apply registryLive_updateAllCharts.
  - by apply registryLive_resizeCharts.
  - unfold setupResizeListener, addEventListener.
    destruct (bool_decide _); eapply registryLive_ext; [..|exact Hr| | |exact Hr]; done.
  - by apply registryLive_dispose.
  - by apply registryLive_disposeChart.
  - by apply registryLive_dispatchResize.
  - by apply registryLive_fireTimer.
  - unfold idle. destruct (nextTimer (timers st));
      eapply registryLive_ext; [..|exact Hr| | |exact Hr]; done.
Qed.

Lemma registryLive_exec w ops st : registryLive st → registryLive (exec w ops st).
Proof.
  unfold exec. revert st. induction ops as [|o ops IH]; intros st Hr; [done|].
  cbn [foldl]. apply IH. by apply registryLive_step.
Qed.

(** In a consistent state a live chart is the registered one. *)
Lemma live_is_registered st id h :
  consistent st → liveFor st id h → chartInstances st !! id = Some h.
Proof.
  intros Hc (c & Hch & Hid & Hl). rewrite <- Hid.
  by apply (live_registered st Hc).
Qed.

(** X1.  In every state the manager reaches from its initial state,
    [getChart(id)] returns a chart exactly when that chart is live for
    [id]: the registry never hands out a destroyed chart, and no live
    chart is out of the registry's reach. *)
Theorem getChart_iff_live (w : World) (ops : list Op) (id : string) (h : nat) :
  getChart id (exec w ops initial) = Some h ↔ liveFor (exec w ops initial) id h.
Proof.
  unfold getChart. split.
  - apply (registryLive_exec w ops initial registryLive_initial).
  - apply live_is_registered.
    apply ManagerFacts.consistent_exec, ManagerFacts.consistent_initial.
Qed.

(** After one creation on the page the registry's chart is the live one. *)
Lemma getChart_iff_live_witness :
  liveFor (exec pageWorld [op_spawnCharts [("powerGauge", someConfig)]; op_timer]
             initial) "powerGauge" 0.
Proof. apply getChart_iff_live. vm_compute. reflexivity. Defined.

Lemma live_iff_registered st id h :
  consistent st → registryLive st →
  liveFor st id h ↔ chartInstances st !! id = Some h.
Proof. intros Hc Hr. split; [by apply live_is_registered|apply Hr]. Qed.

Lemma reachable_consistent w ops : consistent (exec w ops initial).
Proof. apply ManagerFacts.consistent_exec, ManagerFacts.consistent_initial. Qed.

Lemma reachable_registryLive w ops : registryLive (exec w ops initial).
Proof. apply registryLive_exec, registryLive_initial. Qed.

(** ** [dispose] *)

Local Abbreviation disposeEach :=
  (foldl (fun st '(id, chart) =>
            with_chartInstances (delete id) (destroy chart st))).

Lemma disposeLoop_log (l : list (string * nat)) st :
  log (disposeEach st l)
  = log st ++ ((fun e => (now st, chart_destroy e.2)) <$> l).
Proof.
  revert st. induction l as [|[id h] tl IH]; intros st.
  - cbn. by rewrite app_nil_r.
  - cbn [foldl]. rewrite IH. cbn. by rewrite <- app_assoc.
Qed.

Lemma with_listeners_id f st :
  f (listeners st) = listeners st → with_listeners f st = st.
Proof. intros H. destruct st. unfold with_listeners. cbn in *. by rewrite H. Qed.

Lemma filter_twice {A} (P : A → Prop) `{!∀ x, Decision (P x)} (l : list A) :
  filter P (filter P l) = filter P l.
Proof.
  induction l as [|x l IH]; [done|]. rewrite filter_cons.
  destruct (decide (P x)); [|done]. rewrite filter_cons, decide_True by done.
  by rewrite IH.
Qed.

Lemma disposeLoop_listeners (l : list (string * nat)) st :
  listeners (disposeEach st l) = listeners st
  ∧ resizeHandler (disposeEach st l) = resizeHandler st.
Proof.
  by destruct (ManagerFacts.disposeLoop_frame l st) as (_&_&->&->&_).
Qed.

Lemma dispose_empty s :
  chartInstances s = ∅ →
  dispose s = match resizeHandler s with
              | Some l => removeEventListener l s
              | None => s
              end.
Proof.
  intros H. unfold dispose.
  destruct (resizeHandler s); cbn; by rewrite H.
Qed.

Lemma dispose_twice st : dispose (dispose st) = dispose st.
Proof.
  destruct (ManagerFacts.dispose_frame st) as (Hreg & _).
  rewrite (dispose_empty (dispose st) Hreg).
  assert (Hrh : resizeHandler (dispose st) = resizeHandler st
                ∧ listeners (dispose st)
                  = match resizeHandler st with
                    | Some l => filter (fun l' => listener_uid l' ≠ listener_uid l)
                                  (listeners st)
                    | None => listeners st
                    end).
  { unfold dispose.
    match goal with |- context [foldl ?f ?a ?l] =>
      destruct (disposeLoop_listeners l a) as [-> ->] end.
    destruct (resizeHandler st) eqn:E; cbn; rewrite ?E; done. }
  destruct Hrh as [-> Hls]. destruct (resizeHandler st) as [l|]; [|done].
  unfold removeEventListener. apply with_listeners_id.
  rewrite Hls. apply filter_twice.
Qed.

(** The registered charts are the live ones. *)
Lemma registered_iff_live st h :
  consistent st → registryLive st →
  h ∈ values (chartInstances st) ↔ ∃ id, liveFor st id h.
Proof.
  intros Hc Hr. unfold values. split.
  - intros ([id h'] & -> & Hin)%list_elem_of_fmap. exists id. apply Hr.
    apply Map_entry_lookup; [apply (registry_keys_distinct _ Hc)|done].
  - intros (id & Hl). apply (live_is_registered st id h Hc) in Hl.
    apply list_elem_of_fmap. exists (id, h). split; [done|].
    by apply Map_lookup_entry.
Qed.

(** X2.  In every state the manager reaches, [dispose] destroys every
    chart still alive and empties the registry: the log gains one
    [destroy()] per registered chart, in the order in which the charts
    were registered, and nothing else; the registered charts are exactly
    the live ones; afterwards no chart in the store is live; the pending
    timers and in-flight flags are as before, and a second [dispose]
    changes nothing. *)
Theorem dispose_leaves_nothing_alive (w : World) (ops : list Op) :
  let st := exec w ops initial in
  chartInstances (dispose st) = ∅
  ∧ Forall (fun c => chart_destroyed c = true) (charts (dispose st))
  ∧ length (charts (dispose st)) = length (charts st)
  ∧ log (dispose st)
    = log st ++ ((fun h => (now st, chart_destroy h))
                   <$> values (chartInstances st))
  ∧ (∀ h, h ∈ values (chartInstances st) ↔ ∃ id, liveFor st id h)
  ∧ timers (dispose st) = timers st
  ∧ initializingCharts (dispose st) = initializingCharts st
  ∧ dispose (dispose st) = dispose st.
Proof.
  cbv zeta. set (st := exec w ops initial).
  pose proof (reachable_consistent w ops) as Hc.
  pose proof (reachable_registryLive w ops) as Hr. fold st in Hc, Hr.
  destruct (ManagerFacts.dispose_frame st) as (Hreg & Hflags & Htm & _ & _).
  split; [done|].
  split; [|split; [|split; [|split; [|split; [done|split; [done|]]]]]].
  - apply Forall_lookup. intros h c Hch.
    destruct (chart_destroyed c) eqn:Hd; [done|].
    pose proof (ManagerFacts.consistent_dispose st Hc) as Hcons.
    pose proof (live_registered _ Hcons h c Hch Hd) as H.
    by rewrite Hreg, Map_lookup_empty in H.
  - unfold dispose.
    match goal with |- context [foldl ?f ?a ?l] =>
      destruct (ManagerFacts.disposeLoop_frame l a) as (_&_&_&_&_&_&->) end.
    by destruct (resizeHandler st).
  - unfold dispose. rewrite disposeLoop_log. unfold values.
    rewrite <- list_fmap_compose. by destruct (resizeHandler st).
  - intros h. by apply registered_iff_live.
  - apply dispose_twice.
Qed.

(** ** [disposeChart] *)

Lemma disposeChart_registry id st :
  chartInstances (disposeChart id st) = delete id (chartInstances st).
Proof.
  unfold disposeChart. destruct (chartInstances st !! id) eqn:E; [done|].
  symmetry. by apply Map_delete_id.
Qed.

(** X3.  In every state the manager reaches, [disposeChart(id)] ends the
    life of the chart of [id] and of no other: afterwards [getChart(id)]
    is absent, the live charts are exactly those that were live for the
    other identifiers, and a second [disposeChart(id)] changes nothing. *)
Theorem disposeChart_ends_one_life
    (w : World) (ops : list Op) (id : string) :
  let st := exec w ops initial in
  getChart id (disposeChart id st) = None
  ∧ (∀ id' h, liveFor (disposeChart id st) id' h ↔ id' ≠ id ∧ liveFor st id' h)
  ∧ disposeChart id (disposeChart id st) = disposeChart id st.
Proof.
  cbv zeta. set (st := exec w ops initial).
  pose proof (reachable_consistent w ops) as Hc.
  pose proof (reachable_registryLive w ops) as Hr. fold st in Hc, Hr.
  assert (Hnone : chartInstances (disposeChart id st) !! id = None)
    by (rewrite disposeChart_registry; apply Map_lookup_delete_eq).
  split; [exact Hnone|]. split.
  - intros id' h.
    rewrite (live_iff_registered (disposeChart id st) id' h
               (ManagerFacts.consistent_disposeChart id st Hc)
               (registryLive_disposeChart id st Hr)).
    rewrite (live_iff_registered st id' h Hc Hr), disposeChart_registry.
    rewrite Map_lookup_delete_Some. split; intros [H1 H2]; split; done.
  - unfold disposeChart at 1. by rewrite Hnone.
Qed.

(** On the page, with the gauge created: after [disposeChart] the chart
    is gone and nothing is live for the canvas. *)
Lemma disposeChart_ends_one_life_witness :
  getChart "powerGauge"
    (disposeChart "powerGauge"
       (exec pageWorld [op_spawnCharts [("powerGauge", someConfig)]; op_timer]
          initial)) = None
  ∧ ∀ h, ¬ liveFor
             (disposeChart "powerGauge"
                (exec pageWorld
                   [op_spawnCharts [("powerGauge", someConfig)]; op_timer] initial))
             "powerGauge" h.
Proof.
  destruct (disposeChart_ends_one_life pageWorld
              [op_spawnCharts [("powerGauge", someConfig)]; op_timer] "powerGauge")
    as (H1 & H2 & _).
  split; [exact H1|]. intros h Hl. apply H2 in Hl as [Hne _]. by apply Hne.
Defined.

(** ** [resizeCharts] *)

(** The walk of [forEach]: it asks the charts in order, and stops behind
    the first one whose [update] throws. *)
Lemma updateEach_walk w mode (l : list (string * nat)) s :
  let bad := fun h : nat => updateThrows w (now s) h (charts s !! h) mode in
  let asked := fun hs : list nat => (fun h => (now s, chart_update h mode)) <$> hs in
  ((updateEach w mode l s).2 = returns
   ∧ Forall (fun h => bad h = false) l.*2
   ∧ log (updateEach w mode l s).1 = log s ++ asked l.*2)
  ∨ (∃ before h after,
       (updateEach w mode l s).2 = throws
       ∧ l.*2 = before ++ h :: after
       ∧ Forall (fun h => bad h = false) before
       ∧ bad h = true
       ∧ log (updateEach w mode l s).1 = log s ++ asked (before ++ [h])).
Proof.
  cbv zeta. revert s. induction l as [|[k h] tl IH]; intros s.
  - left. cbn. by rewrite app_nil_r.
  - rewrite ManagerFacts.updateEach_cons.
    destruct (updateThrows w (now s) h (charts s !! h) mode) eqn:Hbad.
    + right. exists [], h, tl.*2. cbn. done.
    + destruct (IH (emit (chart_update h mode) s))
        as [(H1 & H2 & H3)|(before & h' & after & H1 & H2 & H3 & H4 & H5)];
        cbn [now charts emit log] in *.
      * left. split; [done|]. split; [by constructor|].
        rewrite H3. cbn. by rewrite <- app_assoc.
      * right. exists (h :: before), h', after. split; [done|].
        split; [cbn; by rewrite H2|]. split; [by constructor|]. split; [done|].
        rewrite H5. cbn. by rewrite <- app_assoc.
Qed.

Lemma resizeCalls_app l1 l2 :
  resizeCalls (l1 ++ l2) = resizeCalls l1 ++ resizeCalls l2.
Proof. apply omap_app. Qed.

Lemma resizeCalls_updates (hs : list nat) t mode :
  resizeCalls ((fun h => (t, chart_update h mode)) <$> hs) = [].
Proof. induction hs as [|h tl IH]; [done|]. cbn. exact IH. Qed.

Lemma updateRequests_app l1 l2 :
  updateRequests (l1 ++ l2) = updateRequests l1 ++ updateRequests l2.
Proof. apply omap_app. Qed.

Lemma updateRequests_updates (hs : list nat) t mode :
  updateRequests ((fun h => (t, chart_update h mode)) <$> hs) = hs.
Proof. induction hs as [|h tl IH]; [done|]. cbn. f_equal. exact IH. Qed.

(** An entry into [resizeCharts] is one entry, whether or not an
    [update] inside throws. *)
Lemma resizeCharts_calls w st :
  resizeCalls (log (resizeCharts w st).1) = resizeCalls (log st) ++ [now st].
Proof.
  unfold resizeCharts.
  destruct (updateEach_walk w (Some "resize") (entries (chartInstances st))
              (emit resizeCharts_called st))
    as [(_ & _ & ->)|(before & h & after & _ & _ & _ & _ & ->)]; cbn [log emit now];
    rewrite !resizeCalls_app, resizeCalls_updates; cbn; by rewrite app_nil_r.
Qed.

(** X4.  In every state the manager reaches, [resizeCharts] walks the
    registered charts, which are exactly the live ones, in the order in
    which they were registered, and requests a redraw in "resize" mode of
    each: of all of them when no [update] throws, and otherwise of those
    up to and including the first whose [update] throws, which ends the
    walk and leaves [resizeCharts] as an exception.  Apart from the log
    the state is unchanged. *)
Theorem resizeCharts_redraws_the_live (w : World) (ops : list Op) :
  let st := exec w ops initial in
  let st' := (resizeCharts w st).1 in
  let registered := values (chartInstances st) in
  let bad := fun h : Handle =>
    updateThrows w (now st) h (charts st !! h) (Some "resize") in
  (∀ h, h ∈ registered ↔ ∃ id, liveFor st id h)
  ∧ (∃ asked,
       log st'
       = log st ++ (now st, resizeCharts_called)
                :: ((fun h => (now st, chart_update h (Some "resize"))) <$> asked)
       ∧ (((resizeCharts w st).2 = returns
           ∧ asked = registered
           ∧ Forall (fun h => bad h = false) registered)
          ∨ (∃ before h after,
               (resizeCharts w st).2 = throws
               ∧ registered = before ++ h :: after
               ∧ asked = before ++ [h]
               ∧ Forall (fun h => bad h = false) before
               ∧ bad h = true)))
  ∧ chartInstances st' = chartInstances st
  ∧ charts st' = charts st
  ∧ timers st' = timers st.
Proof.
  cbv zeta. set (st := exec w ops initial).
  pose proof (reachable_consistent w ops) as Hc.
  pose proof (reachable_registryLive w ops) as Hr. fold st in Hc, Hr.
  split; [intros h; by apply registered_iff_live|].
  destruct (ManagerFacts.resizeCharts_frame w st) as (H1 & _ & H3 & H4 & _).
  split; [|done].
  unfold resizeCharts, values.
  destruct (updateEach_walk w (Some "resize") (entries (chartInstances st))
              (emit resizeCharts_called st))
    as [(E1 & E2 & E3)|(before & h & after & E1 & E2 & E3 & E4 & E5)];
    cbn [log emit now charts] in *.
  - exists (entries (chartInstances st)).*2. split.
    + rewrite E3. by rewrite <- app_assoc.
    + left. done.
  - exists (before ++ [h]). split.
    + rewrite E5. by rewrite <- app_assoc.
    + right. by exists before, h, after.
Qed.

(** ** [updateAllCharts] *)

Lemma fmap_alter_keeps {A B} (p : A → B) (f : A → A) (i : nat) (l : list A) :
  (∀ x, p (f x) = p x) → p <$> alter f i l = p <$> l.
Proof.
  intros Hf. revert i. induction l as [|x l IH]; intros i; [done|].
  destruct i as [|i]; cbn.
  - by rewrite Hf.
  - f_equal. apply IH.
Qed.

(** One entry of [updateAllCharts]. *)
Lemma updateChartConfig_entry w id config st :
  let st' := (updateChartConfig w id config st).1 in
  let pr := (updateChartConfig w id config st).2 in
  chartInstances st' = chartInstances st
  ∧ now st' = now st
  ∧ chart_destroyed <$> charts st' = chart_destroyed <$> charts st
  ∧ chart_canvas_id <$> charts st' = chart_canvas_id <$> charts st
  ∧ timers st' = timers st
  ∧ initializingCharts st' = initializingCharts st
  ∧ log st' = log st ++ match chartInstances st !! id with
                        | Some h => [(now st, chart_update h None)]
                        | None => []
                        end
  ∧ match chartInstances st !! id with
    | None => pr = resolved_promise
    | Some h =>
        pr = resolved_promise
        ∨ (pr = rejected_promise ∧ ∃ c, updateThrows w (now st) h c None = true)
    end
  ∧ ((∀ t h c m, updateThrows w t h c m = false) → pr = resolved_promise).
Proof.
  cbv zeta. unfold updateChartConfig, update.
  destruct (chartInstances st !! id) as [h|].
  - cbn [now charts with_charts].
    destruct (updateThrows w (now st) h _ None) eqn:Hbad; cbn;
      rewrite !fmap_alter_keeps by done.
    + do 7 (split; [done|]). split; [|intros H; by rewrite H in Hbad].
      right. split; [done|]. by eexists.
    + do 7 (split; [done|]). split; [by left|done].
  - cbn. rewrite app_nil_r. done.
Qed.

Lemma updateAllCharts_fold w configs st prs :
  let r := foldl (fun acc '(id, config) =>
                    let '(st', pr) := updateChartConfig w id config acc.1 in
                    (st', acc.2 ++ [pr])) (st, prs) configs in
  chartInstances r.1 = chartInstances st
  ∧ now r.1 = now st
  ∧ chart_destroyed <$> charts r.1 = chart_destroyed <$> charts st
  ∧ chart_canvas_id <$> charts r.1 = chart_canvas_id <$> charts st
  ∧ timers r.1 = timers st
  ∧ initializingCharts r.1 = initializingCharts st
  ∧ log r.1 = log st ++ ((fun h => (now st, chart_update h None))
                           <$> omap (fun e => chartInstances st !! e.1) configs)
  ∧ ∃ new,
      r.2 = prs ++ new
      ∧ Forall2 (fun e pr =>
                   match chartInstances st !! e.1 with
                   | None => pr = resolved_promise
                   | Some h =>
                       pr = resolved_promise
                       ∨ (pr = rejected_promise
                          ∧ ∃ c, updateThrows w (now st) h c None = true)
                   end) configs new
      ∧ ((∀ t h c m, updateThrows w t h c m = false) →
         new = replicate (length configs) resolved_promise).
Proof.
  cbv zeta. revert st prs.
  induction configs as [|[id config] tl IH]; intros st prs.
  - cbn. rewrite app_nil_r. do 7 (split; [done|]). exists [].
    rewrite app_nil_r. split; [done|]. split; [constructor|done].
  - cbn [foldl fst snd].
    destruct (updateChartConfig_entry w id config st)
      as (E1 & E2 & E3 & E4 & E5 & E6 & E7 & E8 & E9).
    cbv zeta in *.
    destruct (updateChartConfig w id config st) as [st' pr]. cbn [fst snd] in *.
    destruct (IH st' (prs ++ [pr]))
      as (H1 & H2 & H3 & H4 & H5 & H6 & H7 & new & H8 & H9 & H10).
    rewrite H1, H2, H3, H4, H5, H6, H7, E1, E2, E3, E4, E5, E6, E7.
    do 6 (split; [done|]). split.
    + rewrite <- app_assoc. f_equal. cbn.
      by destruct (chartInstances st !! id).
    + exists (pr :: new). split; [by rewrite H8, <- app_assoc|]. split.
      * constructor; [exact E8|]. by rewrite E1, E2 in H9.
      * intros Hok. cbn. by rewrite (E9 Hok), (H10 Hok).
Qed.

(** X5.  [updateAllCharts] walks its entries in order and requests one
    redraw for each entry whose identifier is registered; entries for
    unknown identifiers are skipped, and a redraw that throws does not
    stop the walk.  The log gains these redraw requests and nothing else:
    no chart is constructed or destroyed, and the registry, the timers and
    the in-flight flags are as before.  It gets one promise per entry:
    resolved for an unknown identifier, and for a registered one resolved
    or, only when the chart's [update()] threw, rejected; when the engine
    never throws all of them are resolved. *)
Theorem updateAllCharts_updates_the_registered
    (w : World) (configs : list (string * ChartConfiguration)) (st : State) :
  let st' := (updateAllCharts w configs st).1 in
  let prs := (updateAllCharts w configs st).2 in
  log st' = log st ++ ((fun h => (now st, chart_update h None))
                         <$> omap (fun e => chartInstances st !! e.1) configs)
  ∧ chartInstances st' = chartInstances st
  ∧ chart_destroyed <$> charts st' = chart_destroyed <$> charts st
  ∧ chart_canvas_id <$> charts st' = chart_canvas_id <$> charts st
  ∧ timers st' = timers st
  ∧ initializingCharts st' = initializingCharts st
  ∧ Forall2 (fun e pr =>
               match chartInstances st !! e.1 with
               | None => pr = resolved_promise
               | Some h =>
                   pr = resolved_promise
                   ∨ (pr = rejected_promise
                      ∧ ∃ c, updateThrows w (now st) h c None = true)
               end) configs prs
  ∧ ((∀ t h c m, updateThrows w t h c m = false) →
     prs = replicate (length configs) resolved_promise
     ∧ allResolved st' prs = true).
Proof.
  cbv zeta. unfold updateAllCharts.
  destruct (updateAllCharts_fold w configs st [])
    as (H1 & H2 & H3 & H4 & H5 & H6 & H7 & new & H8 & H9 & H10).
  cbv zeta in *. rewrite H8. cbn [app].
  do 6 (split; [done|]). split; [done|].
  intros Hok. rewrite (H10 Hok). split; [done|].
  unfold allResolved. apply forallb_forall. intros pr Hin.
  apply list_elem_of_In, elem_of_replicate in Hin as [-> _]. done.
Qed.

(** ** [debounce] *)

(** What a burst on one debounced function keeps true: its one timer is
    the only one pending, due [delay] after the latest call, and known to
    the closure. *)
Lemma debouncedCalls_pending func delay cell gaps :
  ∀ st tm,
    timers st = [tm] →
    timer_callback tm = debounce_cb func cell →
    timer_due tm = now st + delay →
    cells st !! cell = Some (Some (timer_id tm)) →
    Forall (fun g => g < delay) gaps →
    let st' := debouncedCalls func delay cell gaps st in
    (∃ tm', timers st' = [tm']
            ∧ timer_callback tm' = debounce_cb func cell
            ∧ timer_due tm' = now st' + delay
            ∧ cells st' !! cell = Some (Some (timer_id tm')))
    ∧ now st' = now st + sum_list gaps
    ∧ log st' = log st
    ∧ chartInstances st' = chartInstances st.
Proof.
  induction gaps as [|g gs IH]; intros st tm Htm Hcb Hdue Hcell Hgaps; cbv zeta.
  - simpl. split; [by exists tm|]. split; [lia|done].
  - apply Forall_cons in Hgaps as [Hg Hgs]. simpl.
    set (st1 := callDebounced func delay cell (idle g st)).
    assert (Hidle : idle g st = with_now (now st + g) st).
    { unfold idle. rewrite Htm. cbn [nextTimer]. f_equal. lia. }
    assert (H1 : timers st1
                 = [ {| timer_id := fresh st; timer_due := now st + g + delay;
                        timer_callback := debounce_cb func cell |} ]
                 ∧ cells st1 !! cell = Some (Some (fresh st))
                 ∧ now st1 = now st + g ∧ log st1 = log st
                 ∧ chartInstances st1 = chartInstances st).
    { subst st1. rewrite Hidle. unfold callDebounced. cbn. rewrite Hcell. cbn.
      rewrite Htm, filter_cons, decide_False by (intros Hne; by apply Hne).
      rewrite filter_nil. cbn. by rewrite lookup_insert_eq. }
    destruct H1 as (E1 & E2 & E3 & E4 & E5).
    destruct (IH st1 _ E1 eq_refl) as (Hp & Hn & Hl & Hr);
      [cbn [timer_due]; by rewrite E3|done|done|].
    cbv zeta in *. split; [done|]. rewrite Hn, Hl, Hr, E3, E4, E5.
    split; [lia|done].
Qed.

(** X6.  One function returned by [debounce], called in a burst whose
    gaps are all shorter than the delay, on a loop with no other timer:
    every call cancels the timer of the call before, so a single timer is
    pending at the end, due [delay] after the last call, nothing has run
    during the burst, and when that timer fires the wrapped function runs
    exactly once. *)
Theorem debounce_collapses_a_burst
    (w : World) (delay : nat) (gaps : list nat) (st : State) :
  timers st = [] →
  Forall (fun g => g < delay) gaps →
  let cell := (debounce st).1 in
  let st' := debouncedCalls call_resizeCharts delay cell gaps
               (callDebounced call_resizeCharts delay cell (debounce st).2) in
  now st' = now st + sum_list gaps
  ∧ log st' = log st
  ∧ (∃ tm, timers st' = [tm]
           ∧ timer_callback tm = debounce_cb call_resizeCharts cell
           ∧ timer_due tm = now st' + delay)
  ∧ timers (run w 1 st') = []
  ∧ resizeCalls (log (run w 1 st'))
    = resizeCalls (log st) ++ [now st' + delay].
Proof.
  intros Htm Hgaps. cbv zeta.
  set (cell := (debounce st).1).
  set (st0 := callDebounced call_resizeCharts delay cell (debounce st).2).
  assert (H0 : timers st0
               = [ {| timer_id := S (fresh st); timer_due := now st + delay;
                      timer_callback := debounce_cb call_resizeCharts cell |} ]
               ∧ cells st0 !! cell = Some (Some (S (fresh st)))
               ∧ now st0 = now st ∧ log st0 = log st).
  { subst st0 cell. unfold callDebounced, debounce. cbn.
    rewrite lookup_insert_eq. cbn. rewrite Htm. by rewrite lookup_insert_eq. }
  destruct H0 as (E1 & E2 & E3 & E4).
  destruct (debouncedCalls_pending call_resizeCharts delay cell gaps st0 _
              E1 eq_refl) as ((tm & Ht & Hcb & Hdue & _) & Hn & Hl & _);
    [cbn [timer_due]; by rewrite E3|done|done|].
  cbv zeta in *.
  set (st' := debouncedCalls call_resizeCharts delay cell gaps st0) in *.
  split; [by rewrite Hn, E3|]. split; [by rewrite Hl, E4|].
  split; [by exists tm|].
  rewrite (ManagerFacts.run_single w 0 st' tm Ht). rewrite Hcb.
  cbn [run runCallback]. rewrite ManagerFacts.debounceFire_unfold.
  set (s1 := with_now (now st' `max` timer_due tm)
               (with_timers (fun _ => []) st')).
  destruct (ManagerFacts.resizeCharts_frame w s1) as (_ & _ & _ & Htm' & _).
  pose proof (resizeCharts_calls w s1) as Hcalls.
  assert (Hnow1 : now s1 = now st' + delay) by (subst s1; cbn; rewrite Hdue; lia).
  assert (Hlog1 : log s1 = log st) by (subst s1; cbn; by rewrite Hl, E4).
  rewrite Hnow1, Hlog1 in Hcalls.
  destruct ((resizeCharts w s1).2); cbn [timers log with_cells]; split; done.
Qed.

(** Four calls 20 ms apart with a delay of 200 ms: one call of the
    wrapped function, 200 ms after the last one. *)
Lemma debounce_collapses_a_burst_witness :
  resizeCalls
    (log (run pageWorld 1
            (debouncedCalls call_resizeCharts 200 (debounce initial).1 [20; 20; 20]
               (callDebounced call_resizeCharts 200 (debounce initial).1
                  (debounce initial).2))))
  = [260].
Proof.
  destruct (debounce_collapses_a_burst pageWorld 200 [20; 20; 20] initial)
    as (Hn & _ & _ & _ & Hcalls); [done|repeat constructor; lia|].
  rewrite Hcalls, Hn. reflexivity.
Defined.

(** ** The resize listener *)

Lemma dispose_listeners st :
  listeners (dispose st)
  = match resizeHandler st with
    | Some l => filter (fun l' => listener_uid l' ≠ listener_uid l) (listeners st)
    | None => listeners st
    end.
Proof.
  unfold dispose.
  match goal with |- context [foldl ?f ?a ?l] =>
    destruct (disposeLoop_listeners l a) as [-> _] end.
  by destruct (resizeHandler st).
Qed.

Lemma filter_keeps_all {A} (P : A → Prop) `{!∀ x, Decision (P x)} (l : list A) :
  Forall P l → filter P l = l.
Proof.
  induction 1 as [|x l Hx Hl IH]; [done|].
  by rewrite filter_cons, decide_True, IH.
Qed.

Lemma setupResizeListener_fresh delay st :
  Forall (fun l => listener_uid l < fresh st) (listeners st) →
  listeners (setupResizeListener delay st)
  = listeners st ++ [resizeHandler_fn (fresh st) delay]
  ∧ resizeHandler (setupResizeListener delay st)
    = Some (resizeHandler_fn (fresh st) delay)
  ∧ fresh (setupResizeListener delay st) = S (fresh st).
Proof.
  intros Hls. unfold setupResizeListener, addEventListener. cbn.
  rewrite bool_decide_eq_false_2; [done|].
  intros (l & Huid & Hin)%list_elem_of_fmap.
  rewrite Forall_forall in Hls. specialize (Hls l Hin). lia.
Qed.

(** X7.  [dispose] removes the listener that the latest
    [setupResizeListener] installed, and only that one: after one
    [setupResizeListener] and [dispose] the window's listeners are as
    before, but after two [setupResizeListener] calls [dispose] leaves the
    first handler listening, since the field [resizeHandler] only
    remembers the second. *)
Theorem dispose_removes_latest_listener_only (d1 d2 : nat) (st : State) :
  Forall (fun l => listener_uid l < fresh st) (listeners st) →
  listeners (dispose (setupResizeListener d1 st)) = listeners st
  ∧ listeners (dispose (setupResizeListener d2 (setupResizeListener d1 st)))
    = listeners st ++ [resizeHandler_fn (fresh st) d1].
Proof.
  intros Hls.
  destruct (setupResizeListener_fresh d1 st Hls) as (L1 & R1 & F1).
  assert (Hne : Forall (fun l' => listener_uid l' ≠ fresh st) (listeners st)).
  { eapply Forall_impl; [exact Hls|]. cbn. intros l Hl. lia. }
  split.
  - rewrite dispose_listeners, R1, L1. cbn [listener_uid].
    rewrite filter_app, (filter_keeps_all _ _ Hne).
    rewrite filter_cons, decide_False by (cbn; intros H; by apply H).
    by rewrite app_nil_r.
  - assert (Hls1 : Forall (fun l => listener_uid l < fresh (setupResizeListener d1 st))
                     (listeners (setupResizeListener d1 st))).
    { rewrite L1, F1. apply Forall_app. split.
      - eapply Forall_impl; [exact Hls|]. cbn. intros l Hl. lia.
      - repeat constructor. }
    destruct (setupResizeListener_fresh d2 _ Hls1) as (L2 & R2 & _).
    rewrite dispose_listeners, R2, L2, L1, F1. cbn [listener_uid].
    rewrite !filter_app.
    rewrite (filter_keeps_all (fun l' => listener_uid l' ≠ S (fresh st)) (listeners st))
      by (eapply Forall_impl; [exact Hls|]; cbn; intros l Hl; lia).
    rewrite (filter_cons _ (resizeHandler_fn (fresh st) d1)),
      decide_True by (cbn; lia).
    rewrite (filter_cons _ (resizeHandler_fn (S (fresh st)) d2)),
      decide_False by (cbn; intros H; by apply H).
    rewrite !filter_nil. by rewrite app_nil_r.
Qed.

(** On a new manager: set up twice with delays 300 and 200, dispose; the
    first handler is still listening. *)
Lemma dispose_removes_latest_listener_witness :
  listeners (dispose (setupResizeListener 300 initial)) = []
  ∧ listeners (dispose (setupResizeListener 200 (setupResizeListener 300 initial)))
    = [resizeHandler_fn 0 300].
Proof.
  exact (dispose_removes_latest_listener_only 300 200 initial (Forall_nil_2 _)).
Defined.

Lemma tryCreateChart_listeners w id config p n st :
  listeners (tryCreateChart w id config p n st) = listeners st.
Proof.
  unfold tryCreateChart, giveUp.
  destruct (getElementById w (now st) id) as [canvas|].
  - destruct (getContext_2d canvas) as [ctx|].
    + by destruct (chartInstances st !! id).
    + by destruct (n <? 20).
  - by destruct (n <? 10).
Qed.

Lemma spawnChart_listeners w id config st :
  listeners (spawnChart w id config st).1 = listeners st.
Proof.
  unfold spawnChart.
  destruct (initializingCharts st !! id) as [[|]|]; cbn [fst]; [done|..];
    by rewrite tryCreateChart_listeners.
Qed.

Lemma addEventListener_first l st :
  listeners st = [] → listeners (addEventListener l st) = [l].
Proof.
  intros H. unfold addEventListener. rewrite H.
  rewrite bool_decide_eq_false_2 by apply not_elem_of_nil.
  cbn. by rewrite H.
Qed.

(** X8.  Mounting the component leaves exactly one "resize" listener on
    the window, the component's own undebounced one: [initChart] begins
    with [dispose], which removes the debounced listener that
    [useChartManager] had installed just before.  So after mounting, on
    any page, a resize event calls [resizeCharts] at once and schedules
    no timer. *)
Theorem mounted_component_resizes_undebounced (w : World) (v : float) :
  let st := chartManager (onMounted w (setup v)) in
  (∃ k, listeners st = [direct_resize_fn k])
  ∧ timers (dispatchResize w st) = timers st
  ∧ resizeCalls (log (dispatchResize w st)) = resizeCalls (log st) ++ [now st].
Proof.
  cbv zeta.
  assert (Hls : ∃ k, listeners (chartManager (onMounted w (setup v)))
                     = [direct_resize_fn k]).
  { unfold onMounted. cbn [chartManager with_chartManager].
    set (st1 := chartManager (initChart w _)).
    assert (H1 : listeners st1 = []).
    { subst st1. unfold initChart. cbn [chartManager].
      unfold spawnCharts. rewrite ManagerFacts.spawnCharts_fst. cbn [foldl].
      rewrite spawnChart_listeners, dispose_listeners. reflexivity. }
    exists (fresh st1). by apply addEventListener_first. }
  destruct Hls as [k Hls]. split; [by exists k|].
  unfold dispatchResize. rewrite Hls. cbn [foldl callListener].
  split; [|apply resizeCharts_calls].
  by destruct (ManagerFacts.resizeCharts_frame w
                 (chartManager (onMounted w (setup v)))) as (_&_&_&->&_).
Qed.

(** ** The retry budgets *)

(** The canvas never enters the document: from retry count [n], the
    creation gives up after the [10 - n] retries left, 50 ms apart. *)
Lemma canvas_absent_run w id config p k :
  ∀ fuel n st,
    n + k = 10 → timers st = [] →
    (∀ t, getElementById w t id = None) →
    let final := run w (k + fuel) (tryCreateChart w id config p n st) in
    now final = now st + 50 * k
    ∧ log final
      = log st ++ [(now st + 50 * k,
                    console_warn ("[ChartManager] Canvas not found after retries: "
                                  +:+ id))]
    ∧ chartInstances final = chartInstances st
    ∧ charts final = charts st
    ∧ timers final = []
    ∧ initializingCharts final !! id = None
    ∧ p ∈ resolved final.
Proof.
  induction k as [|k IH]; intros fuel n st Hn Htm Hnone; cbv zeta.
  - assert (n = 10) as -> by lia. unfold tryCreateChart. rewrite Hnone.
    cbn [Nat.ltb Nat.leb]. rewrite ManagerFacts.run_idle by done.
    rewrite Nat.mul_0_r, Nat.add_0_r. cbn. repeat split; try done.
    + apply lookup_delete_eq.
    + apply elem_of_union; left. by apply elem_of_singleton.
  - unfold tryCreateChart. rewrite Hnone.
    assert ((n <? 10) = true) as -> by (apply Nat.ltb_lt; lia).
    cbn [Nat.add]. erewrite ManagerFacts.run_single; [|cbn; by rewrite Htm].
    cbn [timer_callback timer_due runCallback].
    assert (Hnk : n + 1 + k = 10) by lia.
    match goal with |- context [tryCreateChart w id config p (n + 1) ?s] =>
      set (s1 := s);
      destruct (IH fuel (n + 1) s1 Hnk eq_refl Hnone)
        as (H1 & H2 & H3 & H4 & H5 & H6 & H7)
    end.
    assert (Hs1 : now s1 = now st + 50 ∧ log s1 = log st
                  ∧ chartInstances s1 = chartInstances st ∧ charts s1 = charts st).
    { subst s1. cbn [now log chartInstances charts with_now with_timers
                     with_fresh setTimeout snd].
      split; [lia|done]. }
    destruct Hs1 as (E1 & E2 & E3 & E4).
    cbv zeta in *. rewrite H1, H2, H3, H4, E1, E2, E3, E4.
    replace (now st + 50 + 50 * k) with (now st + 50 * S k) by lia.
    done.
Qed.

(** The canvas is there but never yields a context: the creation gives up
    after the [20 - n] retries left, 100 ms apart. *)
Lemma context_absent_run w id config p k :
  ∀ fuel n st,
    n + k = 20 → timers st = [] →
    (∀ t, ∃ canvas, getElementById w t id = Some canvas
                    ∧ getContext_2d canvas = None) →
    let final := run w (k + fuel) (tryCreateChart w id config p n st) in
    now final = now st + 100 * k
    ∧ log final
      = log st ++ [(now st + 100 * k,
                    console_warn ("[ChartManager] Cannot acquire context: " +:+ id))]
    ∧ chartInstances final = chartInstances st
    ∧ charts final = charts st
    ∧ timers final = []
    ∧ initializingCharts final !! id = None
    ∧ p ∈ resolved final.
Proof.
  induction k as [|k IH]; intros fuel n st Hn Htm Hnone; cbv zeta.
  - assert (n = 20) as -> by lia. unfold tryCreateChart.
    destruct (Hnone (now st)) as (canvas & -> & ->).
    cbn [Nat.ltb Nat.leb]. rewrite ManagerFacts.run_idle by done.
    rewrite Nat.mul_0_r, Nat.add_0_r. cbn. repeat split; try done.
    + apply lookup_delete_eq.
    + apply elem_of_union; left. by apply elem_of_singleton.
  - unfold tryCreateChart.
    destruct (Hnone (now st)) as (canvas & -> & ->).
    assert ((n <? 20) = true) as -> by (apply Nat.ltb_lt; lia).
    cbn [Nat.add]. erewrite ManagerFacts.run_single; [|cbn; by rewrite Htm].
    cbn [timer_callback timer_due runCallback].
    assert (Hnk : n + 1 + k = 20) by lia.
    match goal with |- context [tryCreateChart w id config p (n + 1) ?s] =>
      set (s1 := s);
      destruct (IH fuel (n + 1) s1 Hnk eq_refl Hnone)
        as (H1 & H2 & H3 & H4 & H5 & H6 & H7)
    end.
    assert (Hs1 : now s1 = now st + 100 ∧ log s1 = log st
                  ∧ chartInstances s1 = chartInstances st ∧ charts s1 = charts st).
    { subst s1. cbn [now log chartInstances charts with_now with_timers
                     with_fresh setTimeout snd].
      split; [lia|done]. }
    destruct Hs1 as (E1 & E2 & E3 & E4).
    cbv zeta in *. rewrite H1, H2, H3, H4, E1, E2, E3, E4.
    replace (now st + 100 + 100 * k) with (now st + 100 * S k) by lia.
    done.
Qed.

(** X9.  The two retry budgets of [spawnChart], on an otherwise idle
    loop: when the canvas never enters the document, the creation gives up
    with the warning "Canvas not found" exactly 500 ms after the call (10
    retries of 50 ms); when the canvas is there but never yields a 2D
    context, it gives up with "Cannot acquire context" exactly 2000 ms
    after the call (20 retries of 100 ms).  In both cases the registry and
    the chart store are untouched and the in-flight flag is cleared. *)
Theorem spawnChart_gives_up_on_time
    (w : World) (id : string) (config : ChartConfiguration) (st : State) :
  timers st = [] →
  initializingCharts st !! id ≠ Some true →
  let final := run w 22 (spawnChart w id config st).1 in
  ((∀ t, getElementById w t id = None) →
   now final = now st + 500
   ∧ log final
     = log st ++ [(now st + 500,
                   console_warn ("[ChartManager] Canvas not found after retries: "
                                 +:+ id))]
   ∧ chartInstances final = chartInstances st
   ∧ charts final = charts st
   ∧ initializingCharts final !! id = None)
  ∧ ((∀ t, ∃ canvas, getElementById w t id = Some canvas
                     ∧ getContext_2d canvas = None) →
     now final = now st + 2000
     ∧ log final
       = log st ++ [(now st + 2000,
                     console_warn ("[ChartManager] Cannot acquire context: " +:+ id))]
     ∧ chartInstances final = chartInstances st
     ∧ charts final = charts st
     ∧ initializingCharts final !! id = None).
Proof.
  intros Htm Hflag. cbv zeta.
  assert (Hcall : (spawnChart w id config st).1
                  = tryCreateChart w id config (fresh st) 0
                      (with_fresh (S (fresh st))
                         (with_initializingCharts <[id:=true]> st))).
  { unfold spawnChart. by destruct (initializingCharts st !! id) as [[|]|]. }
  rewrite Hcall. split; intros Hw.
  - destruct (canvas_absent_run w id config (fresh st) 10 12 0
                (with_fresh (S (fresh st)) (with_initializingCharts <[id:=true]> st))
                eq_refl Htm Hw)
      as (H1 & H2 & H3 & H4 & _ & H6 & _).
    cbv zeta in *. change (10 + 12) with 22 in *.
    rewrite H1, H2, H3, H4. done.
  - destruct (context_absent_run w id config (fresh st) 20 2 0
                (with_fresh (S (fresh st)) (with_initializingCharts <[id:=true]> st))
                eq_refl Htm Hw)
      as (H1 & H2 & H3 & H4 & _ & H6 & _).
    cbv zeta in *. change (20 + 2) with 22 in *.
    rewrite H1, H2, H3, H4. done.
Qed.

(** A page without the canvas, and one whose canvas has no context. *)
Lemma spawnChart_gives_up_witness :
  now (run emptyWorld 22 (spawnChart emptyWorld "powerGauge" someConfig initial).1)
  = 500
  ∧ now (run noContextWorld 22
           (spawnChart noContextWorld "powerGauge" someConfig initial).1)
    = 2000.
Proof.
  split.
  - destruct (spawnChart_gives_up_on_time emptyWorld "powerGauge" someConfig initial
                eq_refl) as [H _]; [done|].
    destruct H as (H & _); [done|exact H].
  - destruct (spawnChart_gives_up_on_time noContextWorld "powerGauge" someConfig
                initial eq_refl) as [_ H]; [done|].
    destruct H as (H & _); [|exact H].
    intros t. by exists {| getContext_2d := None |}.
Defined.

(** ** [spawnCharts] *)

Lemma nextTimer_same_due tm tl :
  Forall (fun t => timer_due t = timer_due tm) tl → nextTimer (tm :: tl) = Some tm.
Proof.
  intros Hd. cbn [nextTimer]. destruct (nextTimer tl) as [tm'|] eqn:E; [|done].
  apply ManagerFacts.nextTimer_elem in E. rewrite Forall_forall in Hd.
  rewrite (Hd tm' E). by rewrite Nat.ltb_irrefl.
Qed.

Lemma clear_first_timer tm tl st :
  timers st = tm :: tl → timer_id tm ∉ timer_id <$> tl →
  timers (clearTimeout (timer_id tm) st) = tl.
Proof.
  intros Htm Hid. unfold clearTimeout. cbn. rewrite Htm.
  rewrite filter_cons, decide_False by (intros H; by apply H).
  apply filter_keeps_all. apply Forall_forall. intros t Ht Heq.
  apply Hid. apply list_elem_of_fmap. by exists t.
Qed.

(** The deferred block, in full. *)
Lemma constructChart_effect w id ctx config p st :
  let st' := constructChart w id ctx config p st in
  timers st' = timers st
  ∧ now st' = now st
  ∧ resolved st' = {[p]} ∪ resolved st
  ∧ (∀ h c, charts st !! h = Some c → charts st' !! h = Some c)
  ∧ (∀ id0, id0 ≠ id → chartInstances st' !! id0 = chartInstances st !! id0)
  ∧ if constructorThrows w (now st) id config
    then chartInstances st' !! id = chartInstances st !! id
    else ∃ h, chartInstances st' !! id = Some h ∧ liveFor st' id h.
Proof.
  cbv zeta. unfold constructChart, new_Chart.
  destruct (constructorThrows w (now st) id config); cbn.
  - done.
  - do 3 (split; [done|]). split; [intros h c Hc; by apply lookup_app_l_Some|].
    split; [intros id0 Hne; by apply Map_lookup_insert_ne|].
    exists (length (charts st)). split; [apply Map_lookup_insert_eq|].
    eexists. split; [cbn; by apply list_lookup_middle|done].
Qed.

(** Timers that are all deferred constructions, due now, for distinct
    identifiers with no chart registered: the loop runs them in order and
    each registers its chart unless its constructor throws. *)
Lemma run_constructions w :
  ∀ tms st,
    timers st = tms →
    Forall (fun tm => timer_due tm = now st) tms →
    NoDup (timer_id <$> tms) →
    NoDup (omap (fun tm => constructId (timer_callback tm)) tms) →
    Forall (fun tm => is_Some (constructId (timer_callback tm))) tms →
    (∀ id, id ∈ omap (fun tm => constructId (timer_callback tm)) tms →
           chartInstances st !! id = None) →
    let final := run w (length tms) st in
    timers final = []
    ∧ now final = now st
    ∧ (∀ h c, charts st !! h = Some c → charts final !! h = Some c)
    ∧ (∀ id0, id0 ∉ omap (fun tm => constructId (timer_callback tm)) tms →
              chartInstances final !! id0 = chartInstances st !! id0)
    ∧ resolved st ⊆ resolved final
    ∧ ∀ id ctx config p,
        construct_cb id ctx config p ∈ timer_callback <$> tms →
        p ∈ resolved final
        ∧ if constructorThrows w (now st) id config
          then chartInstances final !! id = None
          else ∃ h, chartInstances final !! id = Some h ∧ liveFor final id h.
Proof.
  induction tms as [|tm tl IH]; intros st Htm Hdue Hids Hcids Hcons Hreg; cbv zeta.
  - cbn. do 5 (split; [done|]). intros id ctx config p H.
    by apply not_elem_of_nil in H.
  - apply Forall_cons in Hdue as [Hd Hdue]. apply Forall_cons in Hcons as [Hc Hcons].
    cbn [fmap list_fmap] in Hids. apply NoDup_cons in Hids as [Hid Hids].
    destruct (timer_callback tm) as [?|id ctx config p|?] eqn:Hcb;
      try (by destruct Hc as [? Hc]; cbn in Hc).
    cbn [omap list_omap] in Hcids, Hreg |- *. rewrite Hcb in Hcids, Hreg |- *.
    cbn [constructId] in Hcids, Hreg |- *.
    apply NoDup_cons in Hcids as [Hcid Hcids].
    cbn [length run]. rewrite Htm. unfold fireTimer. rewrite Htm.
    rewrite nextTimer_same_due
      by (eapply Forall_impl; [exact Hdue|]; cbn; intros t Ht; by rewrite Ht, Hd).
    rewrite Hcb. cbn [runCallback].
    set (s1 := with_now (now st `max` timer_due tm) (clearTimeout (timer_id tm) st)).
    assert (Hs1 : timers s1 = tl ∧ now s1 = now st
                  ∧ chartInstances s1 = chartInstances st
                  ∧ charts s1 = charts st ∧ resolved s1 = resolved st).
    { subst s1. cbn [timers now chartInstances charts resolved with_now].
      split; [by apply clear_first_timer|]. split; [rewrite Hd; lia|done]. }
    destruct Hs1 as (T1 & N1 & R1 & C1 & Q1).
    destruct (constructChart_effect w id ctx config p s1)
      as (T2 & N2 & Q2 & C2 & R2 & Hown).
    cbv zeta in *.
    set (s2 := constructChart w id ctx config p s1) in *.
    destruct (IH s2) as (F1 & F2 & F3 & F4 & F5 & F6).
    { by rewrite T2. }
    { eapply Forall_impl; [exact Hdue|]. intros t Ht. cbv beta in *.
      by rewrite N2, N1. }
    { done. }
    { done. }
    { done. }
    { intros id' Hid'. rewrite R2, R1.
      - apply Hreg. by apply elem_of_cons; right.
      - intros ->. by apply Hcid. }
    cbv zeta in *.
    split; [done|]. split; [by rewrite F2, N2, N1|].
    split; [intros h c Hch; apply F3, C2; by rewrite C1|].
    split.
    { intros id0 Hid0. apply not_elem_of_cons in Hid0 as [Hne Hid0].
      rewrite (F4 id0 Hid0), (R2 id0 Hne), R1. done. }
    split.
    { intros q Hq. apply F5. rewrite Q2, Q1. apply elem_of_union; by right. }
    intros id' ctx' config' p' Hin. cbn [fmap list_fmap] in Hin.
    rewrite Hcb in Hin. apply elem_of_cons in Hin as [[= -> -> -> ->]|Hin].
    + split.
      { apply F5. rewrite Q2. apply elem_of_union; left. by apply elem_of_singleton. }
      rewrite N1 in Hown. rewrite (F4 id Hcid).
      destruct (constructorThrows w (now st) id config).
      * rewrite Hown, R1. apply Hreg. apply elem_of_cons; by left.
      * destruct Hown as (h & Hh & (c & Hc1 & Hc2 & Hc3)).
        exists h. split; [done|]. exists c. split; [by apply F3|done].
    + destruct (F6 id' ctx' config' p' Hin) as [G1 G2]. split; [done|].
      by rewrite N2, N1 in G2.
Qed.

(** One call of [spawnChart] that is not skipped and finds the surface. *)
Lemma spawnChart_found w id config st canvas ctx :
  initializingCharts st !! id ≠ Some true →
  getElementById w (now st) id = Some canvas →
  getContext_2d canvas = Some ctx →
  let r := spawnChart w id config st in
  timers r.1
  = timers st ++ [ {| timer_id := S (fresh st); timer_due := now st + 0;
                      timer_callback := construct_cb id ctx config (fresh st) |} ]
  ∧ r.2 = pending_promise (fresh st)
  ∧ now r.1 = now st
  ∧ fresh r.1 = S (S (fresh st))
  ∧ chartInstances r.1 = delete id (chartInstances st)
  ∧ initializingCharts r.1 = <[id := true]> (initializingCharts st).
Proof.
  intros Hflag Hcanvas Hctx. cbv zeta.
  assert (Hcall : spawnChart w id config st
                  = (tryCreateChart w id config (fresh st) 0
                       (with_fresh (S (fresh st))
                          (with_initializingCharts <[id:=true]> st)),
                     pending_promise (fresh st))).
  { unfold spawnChart. by destruct (initializingCharts st !! id) as [[|]|]. }
  rewrite Hcall. cbn [fst snd]. unfold tryCreateChart.
  cbn [now chartInstances with_fresh with_initializingCharts].
  rewrite Hcanvas, Hctx.
  destruct (chartInstances st !! id) eqn:Hreg; cbn.
  - done.
  - do 4 (split; [done|]). split; [|done]. symmetry. by apply Map_delete_id.
Qed.

(** The synchronous part of [spawnCharts], for distinct identifiers whose
    surfaces are there: one deferred construction per entry is pending. *)
Lemma spawn_phase w :
  ∀ configs st prs,
    NoDup configs.*1 →
    Forall (fun e => initializingCharts st !! e.1 ≠ Some true
                     ∧ ∃ canvas ctx, getElementById w (now st) e.1 = Some canvas
                                     ∧ getContext_2d canvas = Some ctx) configs →
    let r := foldl (fun acc '(id, config) =>
                      let '(st', pr) := spawnChart w id config acc.1 in
                      (st', acc.2 ++ [pr])) (st, prs) configs in
    ∃ tms prs',
      timers r.1 = timers st ++ tms
      ∧ r.2 = prs ++ prs'
      ∧ now r.1 = now st
      ∧ fresh st ≤ fresh r.1
      ∧ Forall (fun tm => timer_due tm = now st ∧ fresh st ≤ timer_id tm) tms
      ∧ NoDup (timer_id <$> tms)
      ∧ omap (fun tm => constructId (timer_callback tm)) tms = configs.*1
      ∧ Forall2 (fun tm e => ∃ ctx p, timer_callback tm = construct_cb e.1 ctx e.2 p)
          tms configs
      ∧ Forall2 (fun tm pr => ∃ id ctx config p,
                     timer_callback tm = construct_cb id ctx config p
                     ∧ pr = pending_promise p) tms prs'
      ∧ (∀ id, id ∈ configs.*1 → chartInstances r.1 !! id = None)
      ∧ (∀ id, chartInstances st !! id = None → chartInstances r.1 !! id = None)
      ∧ (∀ id, id ∉ configs.*1 → chartInstances r.1 !! id = chartInstances st !! id).
Proof.
  induction configs as [|[id config] tl IH]; intros st prs Hnd Hok; cbv zeta.
  - exists [], []. cbn. rewrite !app_nil_r.
    do 4 (split; [done|]). split; [constructor|]. split; [constructor|].
    split; [done|]. split; [constructor|]. split; [constructor|].
    split; [|done]. intros id H. by apply not_elem_of_nil in H.
  - cbn [fmap list_fmap fst] in Hnd. apply NoDup_cons in Hnd as [Hid Hnd].
    apply Forall_cons in Hok as [[Hflag (canvas & ctx & Hcanvas & Hctx)] Hok].
    cbn [fst] in Hflag, Hcanvas.
    cbn [foldl fst snd].
    destruct (spawnChart_found w id config st canvas ctx Hflag Hcanvas Hctx)
      as (T1 & P1 & N1 & F1 & R1 & I1).
    cbv zeta in *.
    destruct (spawnChart w id config st) as [s1 pr1]. cbn [fst snd] in *. subst pr1.
    destruct (IH s1 (prs ++ [pending_promise (fresh st)]) Hnd)
      as (tms & prs' & T2 & P2 & N2 & F2 & D2 & U2 & O2 & A2 & B2 & G2 & K2 & L2).
    { rewrite Forall_forall in Hok |- *. intros e He.
      destruct (Hok e He) as [Hf Hs]. rewrite N1, I1. split; [|done].
      rewrite lookup_insert_ne; [done|]. intros ->.
      apply Hid. apply list_elem_of_fmap. by exists e. }
    cbv zeta in *.
    eexists (_ :: tms), (pending_promise (fresh st) :: prs').
    split; [by rewrite T2, T1, <- app_assoc|].
    split; [by rewrite P2, <- app_assoc|].
    split; [by rewrite N2|]. split; [lia|].
    split.
    { apply Forall_cons. split; [cbn; split; lia|].
      eapply Forall_impl; [exact D2|]. cbn. intros t [Ht1 Ht2]. split; [by rewrite Ht1|lia]. }
    split.
    { cbn [fmap list_fmap timer_id]. apply NoDup_cons. split; [|done].
      intros (t & Ht & Hin)%list_elem_of_fmap. rewrite Forall_forall in D2.
      destruct (D2 t Hin) as [_ Hge]. lia. }
    split; [cbn; by rewrite O2|].
    split; [apply Forall2_cons; split; [by exists ctx, (fresh st)|done]|].
    split; [apply Forall2_cons; split; [by exists id, ctx, config, (fresh st)|done]|].
    split.
    { intros i [->|Hi]%elem_of_cons; [|by apply G2].
      apply K2. rewrite R1. apply Map_lookup_delete_eq. }
    split.
    { intros i Hi. apply K2. rewrite R1. by apply Map_lookup_delete_None; right. }
    intros i Hi. apply not_elem_of_cons in Hi as [Hne Hi].
    rewrite (L2 i Hi), R1. by apply Map_lookup_delete_ne.
Qed.

(** X10.  [spawnCharts] for distinct identifiers none of which is in
    flight, on an otherwise idle loop with every drawing surface there:
    after as many timers as there are entries, no timer is left, no time
    has passed, every returned promise is resolved, each entry's chart is
    registered and live unless its constructor threw (then its slot is
    empty), and the registry entries of all other identifiers are as
    before. *)
Theorem spawnCharts_creates_each
    (w : World) (configs : list (string * ChartConfiguration)) (st : State) :
  timers st = [] →
  NoDup configs.*1 →
  Forall (fun e => initializingCharts st !! e.1 ≠ Some true
                   ∧ ∃ canvas ctx, getElementById w (now st) e.1 = Some canvas
                                   ∧ getContext_2d canvas = Some ctx) configs →
  let final := run w (length configs) (spawnCharts w configs st).1 in
  timers final = []
  ∧ now final = now st
  ∧ allResolved final (spawnCharts w configs st).2 = true
  ∧ (∀ id config,
       (id, config) ∈ configs →
       if constructorThrows w (now st) id config
       then getChart id final = None
       else ∃ h, getChart id final = Some h ∧ liveFor final id h)
  ∧ (∀ id, id ∉ configs.*1 → getChart id final = getChart id st).
Proof.
  intros Htm Hnd Hok. cbv zeta. unfold spawnCharts, getChart.
  destruct (spawn_phase w configs st [] Hnd Hok)
    as (tms & prs' & T & P & N & F & D & U & O & A & B & G & K & L).
  cbv zeta in *. rewrite Htm in T. cbn [app] in T, P.
  set (r := foldl _ _ configs) in *.
  assert (Hlen : length configs = length tms)
    by (symmetry; by eapply Forall2_length).
  rewrite Hlen.
  destruct (run_constructions w tms r.1 T) as (F1 & F2 & F3 & F4 & F5 & F6).
  { eapply Forall_impl; [exact D|]. cbn. intros t [Ht _]. by rewrite Ht, N. }
  { done. }
  { rewrite O. done. }
  { apply Forall_forall. intros t Ht.
    apply list_elem_of_lookup in Ht as [i Hi].
    destruct (Forall2_lookup_l _ _ _ _ _ A Hi) as (e & _ & ctx & p & ->). by eexists. }
  { rewrite O. exact G. }
  cbv zeta in *. split; [done|]. split; [by rewrite F2|].
  split.
  { rewrite P. unfold allResolved. apply forallb_forall. intros pr Hin.
    apply list_elem_of_In, list_elem_of_lookup in Hin as [i Hi].
    destruct (Forall2_lookup_r _ _ _ _ _ B Hi) as (t & Ht & id & ctx & config & p & Hcb & ->).
    cbn. apply bool_decide_eq_true_2.
    apply (F6 id ctx config p). apply list_elem_of_fmap. exists t. split; [done|].
    by apply list_elem_of_lookup_2 in Ht. }
  split.
  { intros id config Hin. apply list_elem_of_lookup in Hin as [i Hi].
    destruct (Forall2_lookup_r _ _ _ _ _ A Hi) as (t & Ht & ctx & p & Hcb).
    cbn [fst snd] in Hcb.
    destruct (F6 id ctx config p) as [_ H].
    { apply list_elem_of_fmap. exists t. split; [done|].
      by apply list_elem_of_lookup_2 in Ht. }
    by rewrite N in H. }
  intros id Hid. rewrite F4 by (by rewrite O). by apply L.
Qed.

(** Two charts on a page that has both canvases. *)
Lemma spawnCharts_creates_each_witness :
  (∃ h, getChart "left"
          (run twoCanvasWorld 2
             (spawnCharts twoCanvasWorld
                [("left", someConfig); ("right", someConfig)] initial).1) = Some h)
  ∧ (∃ h, getChart "right"
            (run twoCanvasWorld 2
               (spawnCharts twoCanvasWorld
                  [("left", someConfig); ("right", someConfig)] initial).1) = Some h).
Proof.
  destruct (spawnCharts_creates_each twoCanvasWorld
              [("left", someConfig); ("right", someConfig)] initial)
    as (_ & _ & _ & H & _).
  - done.
  - repeat constructor; [|by apply not_elem_of_nil].
    intros [H|H]%elem_of_cons; [done|by apply not_elem_of_nil in H].
  - repeat constructor; cbn; try done;
      by exists {| getContext_2d := Some 1 |}, 1.
  - split.
    + destruct (H "left" someConfig) as (h & Hh & _); [apply elem_of_cons; by left|].
      by exists h.
    + destruct (H "right" someConfig) as (h & Hh & _);
        [apply elem_of_cons; right; apply elem_of_cons; by left|].
      by exists h.
Defined.

(** ** Polling for the canvas *)

Lemma found_run_clock w id config p n st canvas ctx fuel :
  timers st = [] →
  getElementById w (now st) id = Some canvas →
  getContext_2d canvas = Some ctx →
  now (run w (S fuel) (tryCreateChart w id config p n st)) = now st.
Proof.
  intros Htm Hcanvas Hctx. unfold tryCreateChart. rewrite Hcanvas, Hctx.
  destruct (ManagerFacts.teardown_frame id st) as (Hnow & Htm1 & _).
  cbv zeta in *.
  erewrite ManagerFacts.run_single; [|cbn; rewrite Htm1, Htm; reflexivity].
  cbn [timer_callback timer_due runCallback].
  match goal with |- context [constructChart w id ctx config p ?s] =>
    destruct (constructChart_effect w id ctx config p s) as (T & N & _)
  end.
  cbv zeta in *. rewrite ManagerFacts.run_idle by (rewrite T; done).
  rewrite N. cbn. rewrite Hnow. lia.
Qed.

(** The canvas is absent at the call and at the first [j] polls, 50 ms
    apart, and there at the next one. *)
Lemma canvas_late_run w id config p canvas ctx j :
  ∀ fuel n st,
    n + j ≤ 10 → timers st = [] →
    (∀ i, i < j → getElementById w (now st + 50 * i) id = None) →
    getElementById w (now st + 50 * j) id = Some canvas →
    getContext_2d canvas = Some ctx →
    constructorThrows w (now st + 50 * j) id config = false →
    let final := run w (S j + fuel) (tryCreateChart w id config p n st) in
    let h := length (charts st) in
    now final = now st + 50 * j
    ∧ log final = log st ++ ((fun e => (now st + 50 * j, e)) <$> teardownOf st id)
                         ++ [(now st + 50 * j, chart_constructed id h)]
    ∧ chartInstances final = <[id := h]> (delete id (chartInstances st))
    ∧ liveFor final id h
    ∧ timers final = []
    ∧ initializingCharts final !! id = None.
Proof.
  induction j as [|j IH]; intros fuel n st Hn Htm Habsent Hcanvas Hctx Hok; cbv zeta.
  - rewrite Nat.mul_0_r, Nat.add_0_r in *. cbn [Nat.add].
    destruct (ManagerFacts.tryCreateChart_found_success w id config p n st canvas ctx
                fuel Htm Hcanvas Hctx Hok) as (H1 & H2 & H3 & H4 & H5).
    cbv zeta in *.
    split; [by apply (found_run_clock w id config p n st canvas ctx)|done].
  - assert (H0 : getElementById w (now st) id = None).
    { specialize (Habsent 0). rewrite Nat.mul_0_r, Nat.add_0_r in Habsent.
      apply Habsent. lia. }
    unfold tryCreateChart. rewrite H0.
    assert ((n <? 10) = true) as -> by (apply Nat.ltb_lt; lia).
    cbn [Nat.add]. erewrite ManagerFacts.run_single; [|cbn; by rewrite Htm].
    cbn [timer_callback timer_due runCallback].
    assert (Hnj : n + 1 + j ≤ 10) by lia.
    match goal with |- context [tryCreateChart w id config p (n + 1) ?s] =>
      set (s1 := s)
    end.
    assert (Hs1 : now s1 = now st + 50 ∧ log s1 = log st
                  ∧ chartInstances s1 = chartInstances st ∧ charts s1 = charts st).
    { subst s1. cbn [now log chartInstances charts with_now with_timers
                     with_fresh setTimeout snd].
      split; [lia|done]. }
    destruct Hs1 as (E1 & E2 & E3 & E4).
    assert (Eshift : ∀ i, now s1 + 50 * i = now st + 50 * S i)
      by (intros i; rewrite E1; lia).
    destruct (IH fuel (n + 1) s1 Hnj eq_refl) as (H1 & H2 & H3 & H4 & H5 & H6).
    { intros i Hi. rewrite Eshift. apply Habsent. lia. }
    { by rewrite Eshift. }
    { done. }
    { by rewrite Eshift. }
    cbv zeta in *. unfold teardownOf in *.
    rewrite Eshift, E2, E3, E4 in *. done.
Qed.

(** X11.  Polling works: on an otherwise idle loop, when the canvas is
    missing at the first [j] attempts (the call and the polls after it,
    50 ms apart, [j] at most 10) and is there with a context at the next
    attempt, the chart is constructed at that attempt, [50 * j] ms after
    the call: it is registered and live, the in-flight flag is cleared
    and no timer is left. *)
Theorem spawnChart_polls_until_canvas
    (w : World) (id : string) (config : ChartConfiguration) (st : State)
    (canvas : Canvas) (ctx j : nat) :
  timers st = [] →
  initializingCharts st !! id ≠ Some true →
  j ≤ 10 →
  (∀ i, i < j → getElementById w (now st + 50 * i) id = None) →
  getElementById w (now st + 50 * j) id = Some canvas →
  getContext_2d canvas = Some ctx →
  constructorThrows w (now st + 50 * j) id config = false →
  let final := run w 22 (spawnChart w id config st).1 in
  let h := length (charts st) in
  now final = now st + 50 * j
  ∧ log final = log st ++ ((fun e => (now st + 50 * j, e)) <$> teardownOf st id)
                       ++ [(now st + 50 * j, chart_constructed id h)]
  ∧ getChart id final = Some h
  ∧ liveFor final id h
  ∧ timers final = []
  ∧ initializingCharts final !! id = None.
Proof.
  intros Htm Hflag Hj Habsent Hcanvas Hctx Hok. cbv zeta.
  assert (Hcall : (spawnChart w id config st).1
                  = tryCreateChart w id config (fresh st) 0
                      (with_fresh (S (fresh st))
                         (with_initializingCharts <[id:=true]> st))).
  { unfold spawnChart. by destruct (initializingCharts st !! id) as [[|]|]. }
  rewrite Hcall.
  match goal with |- context [run w 22 ?X] =>
    replace (run w 22 X) with (run w (S j + (21 - j)) X) by (f_equal; lia)
  end.
  destruct (canvas_late_run w id config (fresh st) canvas ctx j (21 - j) 0
              (with_fresh (S (fresh st)) (with_initializingCharts <[id:=true]> st)))
    as (H1 & H2 & H3 & H4 & H5 & H6); try done.
  cbv zeta in *. split; [exact H1|]. split; [exact H2|].
  split; [|done]. unfold getChart. rewrite H3. apply Map_lookup_insert_eq.
Qed.

(** The canvas enters the document at 50 ms: the chart is constructed at
    the first poll. *)
Lemma spawnChart_polls_witness :
  now (run lateCanvasWorld 22
         (spawnChart lateCanvasWorld "powerGauge" someConfig initial).1) = 50
  ∧ getChart "powerGauge"
      (run lateCanvasWorld 22
         (spawnChart lateCanvasWorld "powerGauge" someConfig initial).1) = Some 0.
Proof.
  destruct (spawnChart_polls_until_canvas lateCanvasWorld "powerGauge" someConfig
              initial {| getContext_2d := Some 1 |} 1 1)
    as (H1 & _ & H3 & _); try done.
  - lia.
  - intros i Hi. assert (i = 0) as -> by lia. reflexivity.
Defined.

(** ** In-flight flags and pending creation steps *)

Lemma identitiesSound_ext st st' :
  timers st' = timers st → cells st' = cells st → fresh st ≤ fresh st' →
  identitiesSound st → identitiesSound st'.
Proof.
  intros H1 H2 H3 [I1 I2 I3 I4]. split; rewrite ?H1, ?H2.
  - intros tm Htm. specialize (I1 tm Htm). lia.
  - done.
  - intros cell t Hc. specialize (I3 cell t Hc). lia.
  - done.
Qed.

Lemma flagsPending_ext st st' :
  timers st' = timers st → initializingCharts st' = initializingCharts st →
  flagsPending st → flagsPending st'.
Proof. intros H1 H2 Hf id. unfold pendingIds. rewrite H1, H2. apply Hf. Qed.

Lemma identitiesSound_setTimeout cb d st :
  identitiesSound st → identitiesSound (setTimeout cb d st).2.
Proof.
  intros [I1 I2 I3 I4]. split; cbn.
  - intros tm [Htm|Htm]%elem_of_app.
    + specialize (I1 tm Htm). lia.
    + apply list_elem_of_singleton in Htm as ->. cbn. lia.
  - rewrite fmap_app. apply NoDup_app. split; [done|]. split; [|apply NoDup_singleton].
    intros t (tm & -> & Htm)%list_elem_of_fmap Hin.
    apply list_elem_of_singleton in Hin. cbn in Hin.
    specialize (I1 tm Htm). lia.
  - intros cell t Hc. specialize (I3 cell t Hc). lia.
  - intros cell t tm Hc [Htm|Htm]%elem_of_app Hid.
    + by eapply I4.
    + apply list_elem_of_singleton in Htm as ->. cbn in Hid.
      specialize (I3 cell t Hc). lia.
Qed.

Lemma identitiesSound_clearTimeout t st :
  identitiesSound st → identitiesSound (clearTimeout t st).
Proof.
  intros [I1 I2 I3 I4]. split; cbn.
  - intros tm [_ Htm]%list_elem_of_filter. by apply I1.
  - pose proof (sublist_filter (fun tm => timer_id tm ≠ t) (timers st)) as Hsub.
    apply (fmap_sublist timer_id) in Hsub. by eapply sublist_NoDup in Hsub.
  - done.
  - intros cell t' tm Hc [_ Htm]%list_elem_of_filter. by eapply I4.
Qed.

Lemma pendingIds_setTimeout_mem cb d st id :
  id ∈ pendingIds (setTimeout cb d st).2 ↔ id ∈ pendingIds st ∨ spawnId cb = Some id.
Proof.
  rewrite ManagerFacts.pendingIds_setTimeout, elem_of_app.
  destruct (spawnId cb) as [id'|].
  - rewrite list_elem_of_singleton. split; (intros [H|H]; [by left|right]).
    + by subst.
    + by injection H as ->.
  - split; (intros [H|H]; [by left|]); [by apply not_elem_of_nil in H|done].
Qed.

(** Removing timers that are no creation steps keeps the pending
    identifiers. *)
Lemma pendingIds_clear_other t st :
  (∀ tm, tm ∈ timers st → timer_id tm = t → spawnId (timer_callback tm) = None) →
  pendingIds (clearTimeout t st) = pendingIds st.
Proof.
  intros H. unfold pendingIds, clearTimeout. cbn.
  induction (timers st) as [|tm tl IH]; [done|].
  rewrite filter_cons. destruct (decide (timer_id tm ≠ t)) as [Hne|Heq].
  - cbn [omap list_omap]. rewrite IH; [done|].
    intros tm' Htm'. apply H. by apply elem_of_cons; right.
  - cbn [omap list_omap]. rewrite (H tm); [|apply elem_of_cons; by left|].
    + apply IH. intros tm' Htm'. apply H. by apply elem_of_cons; right.
    + destruct (decide (timer_id tm = t)); [done|]. by exfalso; apply Heq.
Qed.

Lemma NoDup_fmap_same {A B} (f : A → B) (l : list A) x y :
  NoDup (f <$> l) → x ∈ l → y ∈ l → f x = f y → x = y.
Proof.
  induction l as [|z l IH]; intros Hnd Hx Hy Hf.
  - by apply not_elem_of_nil in Hx.
  - cbn [fmap list_fmap] in Hnd. apply NoDup_cons in Hnd as [Hz Hnd].
    apply elem_of_cons in Hx as [->|Hx]; apply elem_of_cons in Hy as [->|Hy].
    + done.
    + exfalso. apply Hz. rewrite Hf. by apply list_elem_of_fmap_2.
    + exfalso. apply Hz. rewrite <- Hf. by apply list_elem_of_fmap_2.
    + by apply IH.
Qed.

(** A creation step for [id] keeps the flags backed, when it starts from
    a state where every flag but possibly that of [id] is backed. *)
Lemma flagsPending_tryCreateChart w id config p n st :
  (∀ id', id' ≠ id → initializingCharts st !! id' = Some true →
          id' ∈ pendingIds st) →
  flagsPending (tryCreateChart w id config p n st).
Proof.
  intros Hpre.
  assert (Hsched : ∀ cb d s,
            spawnId cb = Some id →
            timers s = timers st → initializingCharts s = initializingCharts st →
            flagsPending (setTimeout cb d s).2).
  { intros cb d s Hcb Ht Hi id' Hflag. apply pendingIds_setTimeout_mem.
    destruct (decide (id' = id)) as [->|Hne]; [by right|left].
    cbn in Hflag. rewrite Hi in Hflag. unfold pendingIds. rewrite Ht.
    by apply Hpre. }
  assert (Hgive : ∀ msg, flagsPending (giveUp msg id p st)).
  { intros msg id' Hflag. cbn in Hflag.
    apply lookup_delete_Some in Hflag as [Hne Hflag]. by apply Hpre. }
  unfold tryCreateChart.
  destruct (getElementById w (now st) id) as [canvas|].
  - destruct (getContext_2d canvas) as [ctx|].
    + apply Hsched; [done|..]; by destruct (chartInstances st !! id).
    + destruct (n <? 20); [by apply Hsched|apply Hgive].
  - destruct (n <? 10); [by apply Hsched|apply Hgive].
Qed.

Lemma identitiesSound_tryCreateChart w id config p n st :
  identitiesSound st → identitiesSound (tryCreateChart w id config p n st).
Proof.
  intros Hs. unfold tryCreateChart, giveUp.
  destruct (getElementById w (now st) id) as [canvas|].
  - destruct (getContext_2d canvas) as [ctx|].
    + apply identitiesSound_setTimeout.
      destruct (chartInstances st !! id); eapply identitiesSound_ext; [..|exact Hs| | | |exact Hs]; done.
    + destruct (n <? 20); [by apply identitiesSound_setTimeout|].
      eapply identitiesSound_ext; [..|exact Hs]; done.
  - destruct (n <? 10); [by apply identitiesSound_setTimeout|].
    eapply identitiesSound_ext; [..|exact Hs]; done.
Qed.

Lemma constructChart_scheduling w id ctx config p st :
  timers (constructChart w id ctx config p st) = timers st
  ∧ cells (constructChart w id ctx config p st) = cells st
  ∧ fresh (constructChart w id ctx config p st) = fresh st
  ∧ initializingCharts (constructChart w id ctx config p st)
    = delete id (initializingCharts st).
Proof.
  unfold constructChart, new_Chart.
  by destruct (constructorThrows w (now st) id config).
Qed.

Lemma scheduling_spawnChart w id config st :
  identitiesSound st → flagsPending st →
  identitiesSound (spawnChart w id config st).1
  ∧ flagsPending (spawnChart w id config st).1.
Proof.
  intros Hs Hf. unfold spawnChart.
  set (s0 := with_fresh (S (fresh st)) (with_initializingCharts <[id:=true]> st)).
  assert (Hs0 : identitiesSound s0)
    by (eapply identitiesSound_ext; [..|exact Hs]; cbn; done || lia).
  assert (Hgo : identitiesSound (tryCreateChart w id config (fresh st) 0 s0)
                ∧ flagsPending (tryCreateChart w id config (fresh st) 0 s0)).
  { split; [by apply identitiesSound_tryCreateChart|].
    apply flagsPending_tryCreateChart. intros id' Hne Hflag. cbn in Hflag.
    rewrite lookup_insert_ne in Hflag by done. by apply Hf. }
  destruct (initializingCharts st !! id) as [[|]|]; cbn [fst]; done.
Qed.

Lemma scheduling_spawnCharts w configs st :
  identitiesSound st → flagsPending st →
  identitiesSound (spawnCharts w configs st).1
  ∧ flagsPending (spawnCharts w configs st).1.
Proof.
  unfold spawnCharts. rewrite ManagerFacts.spawnCharts_fst. revert st.
  induction configs as [|[id config] tl IH]; intros st Hs Hf; [done|].
  cbn [foldl]. destruct (scheduling_spawnChart w id config st Hs Hf). by apply IH.
Qed.

Lemma scheduling_frame st st' :
  timers st' = timers st → cells st' = cells st → fresh st ≤ fresh st' →
  initializingCharts st' = initializingCharts st →
  identitiesSound st → flagsPending st →
  identitiesSound st' ∧ flagsPending st'.
Proof.
  intros H1 H2 H3 H4 Hs Hf.
  split; [by eapply identitiesSound_ext|by eapply flagsPending_ext].
Qed.

Lemma updateAllCharts_scheduling w configs st :
  timers (updateAllCharts w configs st).1 = timers st
  ∧ cells (updateAllCharts w configs st).1 = cells st
  ∧ fresh (updateAllCharts w configs st).1 = fresh st
  ∧ initializingCharts (updateAllCharts w configs st).1 = initializingCharts st.
Proof.
  unfold updateAllCharts. rewrite ManagerFacts.updateAllCharts_fst. revert st.
  induction configs as [|[id config] tl IH]; intros st; [done|].
  cbn [foldl]. destruct (IH (updateChartConfig w id config st).1) as (->&->&->&->).
  rewrite ManagerFacts.updateChartConfig_fst. by destruct (chartInstances st !! id).
Qed.

Lemma dispose_scheduling st :
  timers (dispose st) = timers st ∧ cells (dispose st) = cells st
  ∧ fresh (dispose st) = fresh st
  ∧ initializingCharts (dispose st) = initializingCharts st.
Proof.
  destruct (ManagerFacts.dispose_frame st) as (_ & H2 & H3 & H4 & _).
  split; [done|]. split; [|done]. unfold dispose.
  generalize (entries
                (chartInstances
                   match resizeHandler st with
                   | Some l => removeEventListener l st
                   | None => st
                   end)).
  intros l.
  assert (H : ∀ s, cells (disposeEach s l) = cells s).
  { induction l as [|[id h] tl IH]; intros s; [done|]. cbn [foldl]. by rewrite IH. }
  rewrite H. by destruct (resizeHandler st).
Qed.

Lemma scheduling_resizeHandlerBody delay st :
  identitiesSound st → flagsPending st →
  identitiesSound (resizeHandlerBody delay st)
  ∧ flagsPending (resizeHandlerBody delay st).
Proof.
  intros Hs Hf. unfold resizeHandlerBody, debounce, callDebounced. cbn.
  rewrite lookup_insert_eq.
  set (s0 := with_fresh (S (fresh st)) (with_cells <[fresh st:=None]> st)).
  assert (Hs0 : identitiesSound s0).
  { destruct Hs as [I1 I2 I3 I4]. split; cbn.
    - intros tm Htm. specialize (I1 tm Htm). lia.
    - done.
    - intros cell t Hc. apply lookup_insert_Some in Hc as [[_ [=]]|[_ Hc]].
      specialize (I3 cell t Hc). lia.
    - intros cell t tm Hc. apply lookup_insert_Some in Hc as [[_ [=]]|[_ Hc]].
      by eapply I4. }
  pose proof (identitiesSound_setTimeout (debounce_cb call_resizeCharts (fresh st))
                delay s0 Hs0) as [J1 J2 J3 J4].
  split.
  - split; cbn in *.
    + done.
    + done.
    + intros cell t Hc. apply lookup_insert_Some in Hc as [[_ [= <-]]|[_ Hc]]; [lia|].
      by eapply J3.
    + intros cell t tm Hc Htm Hid.
      apply lookup_insert_Some in Hc as [[_ [= <-]]|[_ Hc]]; [|by eapply J4].
      apply elem_of_app in Htm as [Htm|Htm].
      * destruct Hs as [I1 _ _ _]. specialize (I1 tm Htm). lia.
      * by apply list_elem_of_singleton in Htm as ->.
  - intros id Hflag. cbn in Hflag. unfold pendingIds. cbn. rewrite omap_app.
    apply elem_of_app; left. by apply Hf.
Qed.

Lemma scheduling_callListener w l st :
  identitiesSound st → flagsPending st →
  identitiesSound (callListener w l st) ∧ flagsPending (callListener w l st).
Proof.
  intros Hs Hf. destruct l; cbn [callListener].
  - by apply scheduling_resizeHandlerBody.
  - destruct (ManagerFacts.resizeCharts_frame w st) as (_ & E2 & _ & E4 & E5 & E6 & _).
    apply (scheduling_frame st); try done. lia.
Qed.

Lemma scheduling_dispatchResize w st :
  identitiesSound st → flagsPending st →
  identitiesSound (dispatchResize w st) ∧ flagsPending (dispatchResize w st).
Proof.
  unfold dispatchResize. generalize (listeners st). intros ls. revert st.
  induction ls as [|l tl IH]; intros st Hs Hf; [done|].
  cbn [foldl]. destruct (scheduling_callListener w l st Hs Hf). by apply IH.
Qed.

Lemma scheduling_fireTimer w st :
  identitiesSound st → flagsPending st →
  identitiesSound (fireTimer w st) ∧ flagsPending (fireTimer w st).
Proof.
  intros Hs Hf. unfold fireTimer.
  destruct (nextTimer (timers st)) as [tm|] eqn:Hnext; [|done].
  apply ManagerFacts.nextTimer_elem in Hnext.
  set (s1 := with_now (now st `max` timer_due tm) (clearTimeout (timer_id tm) st)).
  assert (Hs1 : identitiesSound s1).
  { eapply identitiesSound_ext;
      [..|apply (identitiesSound_clearTimeout (timer_id tm) st Hs)]; done. }
  (* what is still pending once [tm] has left the list *)
  assert (Hrest : ∀ id', spawnId (timer_callback tm) ≠ Some id' →
                         initializingCharts s1 !! id' = Some true →
                         id' ∈ pendingIds s1).
  { intros id' Hne Hflag. cbn in Hflag. specialize (Hf id' Hflag).
    unfold pendingIds in Hf. apply list_elem_of_omap in Hf as (tm' & Htm' & Hid').
    unfold pendingIds. subst s1. cbn. apply list_elem_of_omap. exists tm'.
    split; [|done]. apply list_elem_of_filter. split; [|done].
    intros Heq. assert (tm' = tm) as ->.
    { eapply (NoDup_fmap_same timer_id); [apply (timer_ids_distinct st Hs)|done..]. }
    congruence. }
  destruct (timer_callback tm) as [id config p n|id ctx config p|func cell] eqn:Hcb;
    cbn [runCallback].
  - split; [by apply identitiesSound_tryCreateChart|].
    apply flagsPending_tryCreateChart. intros id' Hne. apply Hrest. cbn. congruence.
  - destruct (constructChart_scheduling w id ctx config p s1) as (E1 & E2 & E3 & E4).
    split; [eapply identitiesSound_ext; [..|exact Hs1]; lia || done|].
    intros id' Hflag. rewrite E4 in Hflag.
    apply lookup_delete_Some in Hflag as [Hne Hflag].
    unfold pendingIds. rewrite E1. apply Hrest; [cbn; congruence|done].
  - destruct func. rewrite ManagerFacts.debounceFire_unfold.
    destruct (ManagerFacts.resizeCharts_frame w s1) as (_ & E2 & _ & E4 & E5 & E6 & _).
    assert (Hplain : identitiesSound (resizeCharts w s1).1
                     ∧ flagsPending (resizeCharts w s1).1).
    { split.
      - eapply identitiesSound_ext; [..|exact Hs1]; done || lia.
      - intros id' Hflag. rewrite E2 in Hflag. unfold pendingIds. rewrite E4.
        apply Hrest; [cbn; congruence|done]. }
    destruct ((resizeCharts w s1).2); [|exact Hplain].
    destruct Hplain as [[I1 I2 I3 I4] Hfp]. split; [|exact Hfp].
    split; cbn [timers cells fresh with_cells]; try done.
    + intros c t Hc. apply lookup_insert_Some in Hc as [[_ [=]]|[_ Hc]].
      by eapply I3.
    + intros c t tm' Hc. apply lookup_insert_Some in Hc as [[_ [=]]|[_ Hc]].
      by eapply I4.
Qed.

Lemma scheduling_step w st o :
  identitiesSound st → flagsPending st →
  identitiesSound (step w st o) ∧ flagsPending (step w st o).
Proof.
  intros Hs Hf. destruct o; cbn [step].
  - by apply scheduling_spawnCharts.
  - apply (scheduling_frame st); try done;
      rewrite ManagerFacts.updateChartConfig_fst;
      by destruct (chartInstances st !! id).
  - destruct (updateAllCharts_scheduling w configs st) as (E1 & E2 & E3 & E4).
    apply (scheduling_frame st); try done. lia.
  - destruct (ManagerFacts.resizeCharts_frame w st) as (_ & E2 & _ & E4 & E5 & E6 & _).
    apply (scheduling_frame st); try done. lia.
  - apply (scheduling_frame st); try done;
      unfold setupResizeListener, addEventListener;
      destruct (bool_decide _); cbn; done || lia.
  - destruct (dispose_scheduling st) as (E1 & E2 & E3 & E4).
    apply (scheduling_frame st); try done. lia.
  - apply (scheduling_frame st); try done;
      unfold disposeChart; by destruct (chartInstances st !! id).
  - by apply scheduling_dispatchResize.
  - by apply scheduling_fireTimer.
  - apply (scheduling_frame st); try done;
      unfold idle; by destruct (nextTimer (timers st)).
Qed.

Lemma scheduling_exec w ops st :
  identitiesSound st → flagsPending st →
  identitiesSound (exec w ops st) ∧ flagsPending (exec w ops st).
Proof.
  unfold exec. revert st. induction ops as [|o ops IH]; intros st Hs Hf; [done|].
  cbn [foldl]. destruct (scheduling_step w st o Hs Hf). by apply IH.
Qed.

Lemma scheduling_initial : identitiesSound initial ∧ flagsPending initial.
Proof.
  split; [split; cbn|].
  - intros tm H. by apply not_elem_of_nil in H.
  - constructor.
  - intros cell t H. by rewrite lookup_empty in H.
  - intros cell t tm H. by rewrite lookup_empty in H.
  - intros id H. cbn in H. by rewrite lookup_empty in H.
Qed.

(** X12.  In every state the manager reaches, the in-flight map holds
    exactly the identifiers that have a creation step (a retry or the
    deferred construction) waiting in the timer list, and each of them has
    one such step only: a flag is never left set with nothing pending
    behind it, whatever else was called in between, [dispose] included. *)
Theorem in_flight_iff_step_pending (w : World) (ops : list Op) (id : string) :
  (initializingCharts (exec w ops initial) !! id = Some true
   ↔ id ∈ pendingIds (exec w ops initial))
  ∧ NoDup (pendingIds (exec w ops initial)).
Proof.
  destruct scheduling_initial as [Hs Hf].
  destruct (scheduling_exec w ops initial Hs Hf) as [_ Hfp].
  pose proof (reachable_consistent w ops) as Hc.
  split; [split|].
  - apply Hfp.
  - apply (pending_in_flight _ Hc).
  - apply (pending_once _ Hc).
Qed.

(** A creation started on a page without the canvas, then [dispose]: the
    flag is set and its retry is pending. *)
Lemma in_flight_iff_step_pending_witness :
  "powerGauge"
  ∈ pendingIds (exec emptyWorld
                  [op_spawnCharts [("powerGauge", someConfig)]; op_dispose] initial).
Proof.
  apply in_flight_iff_step_pending. vm_compute. reflexivity.
Defined.

(** ** Unmounting *)

Lemma update_all_window w mode (l : list (string * nat)) s :
  let s' := (updateEach w mode l s).1 in
  listeners s' = listeners s ∧ resizeHandler s' = resizeHandler s.
Proof.
  revert s. induction l as [|[k h] tl IH]; intros s; [done|].
  cbv zeta in IH |- *. rewrite ManagerFacts.updateEach_cons.
  destruct (updateThrows w _ h _ mode); [done|].
  destruct (IH (emit (chart_update h mode) s)) as (-> & ->). done.
Qed.

Lemma resizeCharts_window w st :
  listeners (resizeCharts w st).1 = listeners st
  ∧ resizeHandler (resizeCharts w st).1 = resizeHandler st.
Proof.
  unfold resizeCharts.
  destruct (update_all_window w (Some "resize") (entries (chartInstances st))
              (emit resizeCharts_called st)) as [-> ->]. done.
Qed.

Lemma tryCreateChart_window w id config p n st :
  resizeHandler (tryCreateChart w id config p n st) = resizeHandler st
  ∧ fresh st ≤ fresh (tryCreateChart w id config p n st).
Proof.
  unfold tryCreateChart, giveUp.
  destruct (getElementById w (now st) id) as [canvas|].
  - destruct (getContext_2d canvas) as [ctx|].
    + destruct (chartInstances st !! id); cbn; split; (done || lia).
    + destruct (n <? 20); cbn; split; (done || lia).
  - destruct (n <? 10); cbn; split; (done || lia).
Qed.

Lemma fireTimer_window w st :
  listeners (fireTimer w st) = listeners st
  ∧ resizeHandler (fireTimer w st) = resizeHandler st.
Proof.
  unfold fireTimer. destruct (nextTimer (timers st)) as [tm|]; [|done].
  set (s1 := with_now (now st `max` timer_due tm) (clearTimeout (timer_id tm) st)).
  destruct (timer_callback tm) as [id config p n|id ctx config p|func cell];
    cbn [runCallback].
  - rewrite tryCreateChart_listeners.
    destruct (tryCreateChart_window w id config p n s1) as [-> _]. done.
  - unfold constructChart, new_Chart. cbn.
    by destruct (constructorThrows w _ id config).
  - destruct func. rewrite ManagerFacts.debounceFire_unfold.
    destruct (resizeCharts_window w s1) as [H1 H2].
    destruct ((resizeCharts w s1).2); cbn [listeners resizeHandler with_cells];
      by rewrite H1, H2.
Qed.

Lemma run_window w fuel st :
  listeners (run w fuel st) = listeners st
  ∧ resizeHandler (run w fuel st) = resizeHandler st.
Proof.
  revert st. induction fuel as [|fuel IH]; intros st; [done|].
  cbn [run]. destruct (timers st); [done|].
  destruct (IH (fireTimer w st)) as [-> ->]. apply fireTimer_window.
Qed.

Lemma consistent_run w fuel st : consistent st → consistent (run w fuel st).
Proof.
  revert st. induction fuel as [|fuel IH]; intros st Hc; [done|].
  cbn [run]. destruct (timers st); [done|].
  by apply IH, ManagerFacts.consistent_fireTimer.
Qed.

(** The manager of a mounted component: the hook of [useChartManager]
    has stored its handler, [initChart] has taken it off the window
    again, and the component's own listener is the only one. *)
Lemma mounted_manager w v :
  let st := chartManager (onMounted w (setup v)) in
  consistent st
  ∧ resizeHandler st = Some (resizeHandler_fn 0 300)
  ∧ ∃ k, 0 < k ∧ listeners st = [direct_resize_fn k].
Proof.
  cbv zeta. unfold onMounted. cbn [chartManager with_chartManager setup].
  set (st0 := dispose (setupResizeListener 300 initial)).
  assert (H0 : consistent st0 ∧ listeners st0 = []
               ∧ resizeHandler st0 = Some (resizeHandler_fn 0 300)
               ∧ fresh st0 = 1).
  { split; [|by vm_compute].
    apply ManagerFacts.consistent_dispose,
      ManagerFacts.consistent_setupResizeListener,
      ManagerFacts.consistent_initial. }
  destruct H0 as (C0 & L0 & R0 & F0).
  unfold initChart. cbn [chartManager]. fold st0.
  set (st1 := (spawnCharts w [(canvasId, gaugeConfig)] st0).1).
  assert (H1 : consistent st1 ∧ listeners st1 = []
               ∧ resizeHandler st1 = Some (resizeHandler_fn 0 300)
               ∧ 0 < fresh st1).
  { split; [by apply ManagerFacts.consistent_spawnCharts|].
    subst st1. unfold spawnCharts. rewrite ManagerFacts.spawnCharts_fst.
    cbn [foldl]. rewrite spawnChart_listeners. split; [done|].
    unfold spawnChart.
    destruct (initializingCharts st0 !! canvasId) as [[|]|]; cbn [fst].
    - split; [done|lia].
    - match goal with |- context [tryCreateChart w ?i ?c ?p ?n ?s] =>
        destruct (tryCreateChart_window w i c p n s) as [-> Hle] end.
      cbn in Hle |- *. split; [done|lia].
    - match goal with |- context [tryCreateChart w ?i ?c ?p ?n ?s] =>
        destruct (tryCreateChart_window w i c p n s) as [-> Hle] end.
      cbn in Hle |- *. split; [done|lia]. }
  destruct H1 as (C1 & L1 & R1 & F1).
  split; [|split].
  - eapply ManagerFacts.consistent_ext; [..|exact C1];
      unfold addEventListener;
      by destruct (bool_decide _).
  - unfold addEventListener. by destruct (bool_decide _).
  - exists (fresh st1). split; [done|].
    by apply addEventListener_first.
Qed.

(** X13.  The component's own "resize" listener, added in its mounted
    hook, is never removed: [dispose] only knows the handler of
    [setupResizeListener].  After the unmount, and after any number of
    timers that fire later, it is the window's one listener and a resize
    event still calls [resizeCharts].  Right after the unmount the
    registry is empty and every chart is destroyed.  When the creation
    had settled before the unmount (no timer pending), nothing happens
    afterwards and such a resize event requests no redraw.  When the
    component is unmounted before the deferred construction has run (on
    the page with its canvas, right after mounting), the chart is
    constructed after the unmount, stays registered and live, and a
    resize event requests its redraw. *)
Theorem unmount_leaves_resize_listener
    (w : World) (v : float) (fuel later : nat) :
  let mounted := chartManager (runLoop w fuel (onMounted w (setup v))) in
  let st := chartManager (onUnmounted (runLoop w fuel (onMounted w (setup v)))) in
  let st' := run w later st in
  (∃ k, listeners st' = [direct_resize_fn k])
  ∧ resizeCalls (log (dispatchResize w st')) = resizeCalls (log st') ++ [now st']
  ∧ chartInstances st = ∅
  ∧ Forall (fun c => chart_destroyed c = true) (charts st)
  ∧ (timers mounted = [] →
     st' = st
     ∧ updateRequests (log (dispatchResize w st')) = updateRequests (log st'))
  ∧ (let late :=
       run pageWorld 1
         (chartManager (onUnmounted (onMounted pageWorld (setup v)))) in
     getChart canvasId late = Some 0
     ∧ liveFor late canvasId 0
     ∧ updateRequests (log (dispatchResize pageWorld late)) = [0]).
Proof.
  cbv zeta. unfold onUnmounted, runLoop.
  cbn [chartManager with_chartManager].
  destruct (mounted_manager w v) as (Cm & Rm & k & Hk & Lm). cbv zeta in *.
  set (m := chartManager (onMounted w (setup v))) in *.
  destruct (run_window w fuel m) as [Lr Rr].
  pose proof (consistent_run w fuel m Cm) as Cr.
  set (r := run w fuel m) in *.
  destruct (ManagerFacts.dispose_frame r) as (Hreg & _ & Htm & _).
  assert (Hls : listeners (dispose r) = [direct_resize_fn k]).
  { rewrite dispose_listeners, Rr, Rm, Lr, Lm. cbn [listener_uid].
    rewrite filter_cons, decide_True by (cbn; lia). done. }
  assert (Hls' : listeners (run w later (dispose r)) = [direct_resize_fn k]).
  { destruct (run_window w later (dispose r)) as [-> _]. exact Hls. }
  split; [by exists k|]. split.
  { unfold dispatchResize. rewrite Hls'. cbn [foldl callListener].
    apply resizeCharts_calls. }
  split; [exact Hreg|]. split.
  { apply Forall_lookup. intros h c Hc.
    destruct (chart_destroyed c) eqn:Hd; [done|].
    pose proof (live_registered _ (ManagerFacts.consistent_dispose r Cr) h c Hc Hd)
      as H.
    by rewrite Hreg, Map_lookup_empty in H. }
  split.
  { intros Hidle.
    assert (Hrun : run w later (dispose r) = dispose r).
    { apply ManagerFacts.run_idle. by rewrite Htm. }
    rewrite Hrun. split; [done|].
    unfold dispatchResize. rewrite Hls. cbn [foldl callListener].
    unfold resizeCharts. rewrite Hreg. cbn.
    by rewrite updateRequests_app, app_nil_r. }
  split; [by vm_compute|]. split; [|by vm_compute].
  eexists. split; [vm_compute; reflexivity|done].
Qed.

(** On the page: unmounted after the creation has settled, nothing
    happens any more and a resize event requests no redraw. *)
Lemma unmount_leaves_resize_listener_witness :
  timers (chartManager (runLoop pageWorld 22 (onMounted pageWorld (setup 1.4)))) = []
  ∧ updateRequests
      (log (dispatchResize pageWorld
              (run pageWorld 5
                 (chartManager
                    (onUnmounted
                       (runLoop pageWorld 22 (onMounted pageWorld (setup 1.4))))))))
    = updateRequests
        (log (run pageWorld 5
                (chartManager
                   (onUnmounted
                      (runLoop pageWorld 22 (onMounted pageWorld (setup 1.4))))))).
Proof.
  assert (Hidle : timers (chartManager
                            (runLoop pageWorld 22 (onMounted pageWorld (setup 1.4))))
                  = []) by (by vm_compute).
  split; [exact Hidle|].
  destruct (unmount_leaves_resize_listener pageWorld 1.4%float 22 5)
    as (_ & _ & _ & _ & Hsettled & _).
  by destruct (Hsettled Hidle) as [_ H].
Defined.

End LifecycleFacts.

(* ===================================================================== *)
(** * Further properties of the overlay *)
(* ===================================================================== *)

Module OverlayFacts.
Import JsNumber Gauge Notions Lifecycle.

(** X14.  Whenever the overlay paints (the arc is laid out with a centre
    off both axes), whatever the centre, radius, dataset angles, pointer
    value and trigonometric functions: it issues 243 context calls, framed
    by exactly one [save], first, and one [restore], last; it strokes 54
    lines (13 major ticks, 40 minor ticks and the needle); and it writes
    13 labels for the 11 major values, because the values 1.4 and 1.8,
    which end one colour segment and begin the next, are drawn once for
    each of the two segments. *)
Theorem afterDraw_call_structure
    (Math_cos Math_sin : float -> float) (chart : DrawnChart)
    (a : ArcElement) (value : float) :
  meta0_data0 chart = Some a →
  truthy (arc_x a) = true → truthy (arc_y a) = true →
  let calls := afterDraw Math_cos Math_sin chart value in
  length calls = 243
  ∧ head calls = Some save
  ∧ last calls = Some restore
  ∧ stateCallsOf calls = [save; restore]
  ∧ strokesOf calls = 54
  ∧ labelsOf calls
    = [ Some "1.0"; Some "1.2"; Some "1.4"; Some "1.4"; Some "1.6"; Some "1.8";
        Some "1.8"; Some "2.0"; Some "2.2"; Some "2.4"; Some "2.6"; Some "2.8";
        Some "3.0" ].
Proof.
  intros Ha Hx Hy. cbv zeta. unfold afterDraw. rewrite Ha, Hx, Hy.
  cbn [negb orb]. vm_compute. done.
Qed.

(** The gauge drawn with its centre at (150, 150). *)
Lemma afterDraw_call_structure_witness :
  length (afterDraw (fun a => a) (fun a => a) (drawnGauge 150 150) 1.4) = 243
  ∧ stateCallsOf (afterDraw (fun a => a) (fun a => a) (drawnGauge 150 150) 1.4)
    = [save; restore].
Proof.
  destruct (afterDraw_call_structure (fun a => a) (fun a => a) (drawnGauge 150 150)
              {| arc_x := 150; arc_y := 150; innerRadius := 100 |} 1.4%float
              eq_refl eq_refl eq_refl) as (H1 & _ & _ & H4 & _).
  split; [exact H1|exact H4].
Defined.

(** ** The generated tick values as a set *)

Lemma ticks_permuted prev rest k :
  ticksAfter prev rest k ≡ₚ ticksBetween prev rest k.
Proof.
  revert prev. induction rest as [|curr tl IH]; intros prev; [done|].
  cbn [ticksAfter ticksBetween]. rewrite (IH curr).
  apply Permutation_middle.
Qed.

(** X15.  The tick sequence the script generates holds exactly the values
    of the ascending layout (after the first major value, the [k - 1]
    interpolated values of each interval followed by the interval's upper
    major value), each as often, in another order: the two are
    permutations of each other, for every major list and count.  For the
    gauge's own list with [k = 4] the ascending layout is strictly
    increasing, and every generated value lies between [minValue] and
    [maxValue], so the initial value, picked at a random index, is on the
    scale. *)
Theorem fullTickValues_permutes_ascending (M : list float) (k : nat) :
  fullTickValuesOf M k ≡ₚ ascendingTickValues M k
  ∧ length (ascendingTickValues M k) = length (fullTickValuesOf M k)
  ∧ strictlyIncreasing (ascendingTickValues majorTickValues subStepCount) = true
  ∧ forallb (fun v => PrimFloat.leb minValue v && PrimFloat.leb v maxValue)
      fullTickValues = true.
Proof.
  assert (H : fullTickValuesOf M k ≡ₚ ascendingTickValues M k).
  { destruct M as [|m0 tl]; [done|].
    rewrite GaugeFacts.fullTickValuesOf_cons. cbn [ascendingTickValues].
    constructor. apply ticks_permuted. }
  split; [exact H|]. split; [by rewrite H|]. split; vm_compute; reflexivity.
Qed.

End OverlayFacts.
